(** * pddb: a shallow embedding of the table engine of [pddb/pddb.py]

    The development follows the Python class [PandasDatabase]:

    - identifiers and the checks of the "boiler plate" section
      ([_check_case_str], [_check_columns], [_check_conditions], ...);
    - the part of pandas the engine relies on: a [DataFrame] is a list of
      column names and a list of rows, each row carrying its index label;
      a boolean [Series] carries labels too, because pandas aligns on labels
      when a frame is indexed by a boolean series;
    - the engine state (the attributes of [self]) together with the files of
      the database folder, the threads started by the deferred save, and the
      clock read by [time()];
    - the operations [load], [find], [delete], [insert], [upsert], [drop],
      [save], written in a state-and-exception monad: a Python exception
      leaves the attributes as they were when it was raised.

    Conventions.  Strings are byte strings; [lower] folds the ASCII letters
    only.  Cells hold a string or are null ([None]/[NaN]); a row is a finite
    map from column name to string, an absent key being a null cell.  Python
    dictionaries are association lists in insertion order.  Time is counted in
    integer ticks.  [uuid.uuid4()] is an argument of [insert] and [upsert]. *)

From stdpp Require Import gmap strings list fin_maps.
From Stdlib Require Import ZArith Ascii.

Open Scope string_scope.
Open Scope list_scope.
Open Scope Z_scope.
Set Warnings "-clear-no-such-hyp".

(** ** Identifiers *)

Module Ident.

(** [str.lower()] on one byte. *)
Definition lower_ascii (c : ascii) : ascii :=
  let n := nat_of_ascii c in
  if ((65 <=? n) && (n <=? 90))%nat then ascii_of_nat (n + 32) else c.

(** [str.lower()]. *)
Fixpoint lower (s : string) : string :=
  match s with
  | EmptyString => EmptyString
  | String c s' => String (lower_ascii c) (lower s')
  end.

(** One character of the class [[a-zA-Z0-9_]]. *)
Definition is_word_ascii (c : ascii) : bool :=
  let n := nat_of_ascii c in
  (((48 <=? n) && (n <=? 57)) || ((65 <=? n) && (n <=? 90))
   || ((97 <=? n) && (n <=? 122)) || (n =? 95))%nat.

(** [re.match(_colname_rgx, s)] with [_colname_rgx = r'^[a-zA-Z0-9_]*$'].
    In Python [$] also matches just before a newline that ends the string. *)
Fixpoint colname_match (s : string) : bool :=
  match s with
  | EmptyString => true
  | String c s' =>
      if is_word_ascii c then colname_match s'
      else bool_decide (c = "010"%char) && bool_decide (s' = EmptyString)
  end.

(** [PandasDatabase._id_colname] and [PandasDatabase._blank_schema]. *)
Definition _id_colname : string := "__id__".
Definition _blank_schema : list string := [_id_colname].

End Ident.
Export Ident.

(** ** Python values, dictionaries and exceptions *)

(** The values a caller can put in a record or in a condition: a [str], [None],
    a compiled regular expression (its [.pattern]), or a value of another type,
    kept as the text [str()] gives for it. *)
Inductive pyval : Type :=
  | PStr (s : string)
  | PNone
  | PRegex (pattern : string)
  | POther (shown : string).

#[export] Instance pyval_eq_dec : EqDecision pyval.
Proof. solve_decision. Defined.

(** [isinstance(v, PandasDatabase._regex_type)] and [pandas.isnull(v)]. *)
Definition is_regex (v : pyval) : bool :=
  match v with PRegex _ => true | _ => false end.
Definition isnull (v : pyval) : bool :=
  match v with PNone => true | _ => false end.
Definition is_str (v : pyval) : bool :=
  match v with PStr _ => true | _ => false end.

(** An argument of a condition: one value, or a list of values. *)
Inductive cond_arg : Type :=
  | CVal (v : pyval)
  | CList (vs : list pyval).

(** A Python [dict] with [str] keys, in insertion order. *)
Module Dict.

Abbreviation dict V := (list (string * V)).

(** [d[k]], [None] when the key is missing. *)
Fixpoint get {V} (k : string) (d : dict V) : option V :=
  match d with
  | [] => None
  | (k', v) :: d' => if bool_decide (k' = k) then Some v else get k d'
  end.

(** [d[k] = v]: an existing key keeps its place, a new key goes last. *)
Fixpoint set {V} (k : string) (v : V) (d : dict V) : dict V :=
  match d with
  | [] => [(k, v)]
  | (k', v') :: d' =>
      if bool_decide (k' = k) then (k, v) :: d' else (k', v') :: set k v d'
  end.

(** [d.pop(k)] as far as the dictionary is concerned. *)
Fixpoint remove {V} (k : string) (d : dict V) : dict V :=
  match d with
  | [] => []
  | (k', v') :: d' =>
      if bool_decide (k' = k) then d' else (k', v') :: remove k d'
  end.

Definition keys {V} (d : dict V) : list string := d.*1.

(** [for k, v in src.items(): dst[k] = v]. *)
Definition update {V} (dst src : dict V) : dict V :=
  foldl (λ acc kv, set kv.1 kv.2 acc) dst src.

End Dict.
Export Dict.

(** The [raise] statements of the engine, by message, and the exceptions that
    pandas raises on its behalf. *)
Inductive value_error : Type :=
  | TableNotInSchemaStore     (* 'Table "%s" not found in schema store' *)
  | SchemasRequired           (* 'Table schemas must be provided if dynamic schema is disabled' *)
  | NoLoadParameter           (* 'At least one of the parameters must be provided' *)
  | TableWouldBeOverwritten   (* 'Auto load tables is disabled but table "%s" already exists' *)
  | TableNotFoundNoSchema     (* 'Table %s not found and schema was not passed as a parameter' *)
  | RegexInWhereIn            (* 'Regex matching cannot be applied to WHERE IN case' *)
  | NullInWhereIn             (* 'Null checking cannot be applied to WHERE IN case' *)
  | UnknownColumn             (* 'Column "%s" does not exist in schema for table "%s"' *)
  | UpsertConflict            (* 'Cannot insert new record because default values conflict' *)
  | TableDoesNotExist         (* 'Selected table "%s" does not exist in this database' *)
  | ParameterType             (* 'Parameter must be of type "%s" or iterable of such type' *)
  | MissingIdColumn           (* 'Schema must contain column named "%s"' *)
  | InvalidColumnName         (* 'Invalid column name "%s"' *)
  | DictValueType             (* 'Dictionary values must be of type "%s"' *)
  | UnknownRecordsType.       (* 'Instance type of records is unknown: "%s"' *)

Inductive runtime_error : Type :=
  | UnsupportedOutputType     (* 'Record output type is "%s", must be one of [%s]' *)
  | CannotCast.               (* 'Records of type "%s" could not be cast into "%s"' *)

Inductive exn : Type :=
  | ValueError (why : value_error)
  | RuntimeError (why : runtime_error)
  | KeyError (key : string)
  | IndexingError             (* 'Unalignable boolean Series key provided' *)
  | AttributeError.

#[export] Instance value_error_eq_dec : EqDecision value_error.
Proof. solve_decision. Defined.
#[export] Instance runtime_error_eq_dec : EqDecision runtime_error.
Proof. solve_decision. Defined.
#[export] Instance exn_eq_dec : EqDecision exn.
Proof. solve_decision. Defined.

(** The error kind [InvalidCondition] of the design: the condition checks of
    [_check_conditions] and of [_get_condition_mask]. *)
Definition is_invalid_condition (e : exn) : bool :=
  match e with
  | ValueError (RegexInWhereIn | NullInWhereIn | ParameterType | DictValueType) => true
  | _ => false
  end.

(** The outcome of a call: a value or a raised exception. *)
Inductive result (A : Type) : Type :=
  | Ok (a : A)
  | Raise (e : exn).
Arguments Ok {A} a.
Arguments Raise {A} e.

Definition rbind {A B} (r : result A) (k : A → result B) : result B :=
  match r with Ok a => k a | Raise e => Raise e end.

Notation "'try!' x ':=' r 'in' k" := (rbind r (λ x, k))
  (at level 10, x name, r at level 100, k at level 200, only parsing).

(** A loop that may raise: [for x in xs: acc = f(acc, x)]. *)
Fixpoint rfold {A B} (f : B → A → result B) (acc : B) (xs : list A) : result B :=
  match xs with
  | [] => Ok acc
  | x :: xs' => try! acc' := f acc x in rfold f acc' xs'
  end.

(** ** The part of pandas the engine uses *)

Module Pandas.

(** A row of a frame: column name to cell, an absent key being a null cell. *)
Abbreviation row := (gmap string string).

(** A [Series] indexed by column names, as built by [Series(record_new)] or
    read off a row. *)
Abbreviation series := (dict (option string)).

(** A boolean [Series] indexed by row labels. *)
Abbreviation bseries := (list (Z * bool)).

(** A [DataFrame]: its columns in order and its rows in order, each with the
    label it has in [df.index]. *)
Record DataFrame : Type := mkDF {
  columns : list string;
  rows : list (Z * row)
}.

#[export] Instance DataFrame_eq_dec : EqDecision DataFrame.
Proof. solve_decision. Defined.

(** [len(df)], [df.index], [DataFrame(columns=cols, dtype=str)]. *)
Definition df_len (df : DataFrame) : Z := Z.of_nat (length (rows df)).
Definition index (df : DataFrame) : list Z := (rows df).*1.
Definition df_new (cols : list string) : DataFrame := mkDF cols [].

(** The index a frame gets when it is created or read from a file:
    [RangeIndex(0, n)]. *)
Definition range_index (n : nat) : list Z := Z.of_nat <$> seq 0 n.

(** [Series([b] * n)]. *)
Definition series_const (b : bool) (n : nat) : bseries := (λ l, (l, b)) <$> range_index n.

(** [m[l]] for a label. *)
Fixpoint mask_get (l : Z) (m : bseries) : option bool :=
  match m with
  | [] => None
  | (l', b) :: m' => if bool_decide (l' = l) then Some b else mask_get l m'
  end.

(** [m &= s].  pandas keeps the labels of the left operand and looks the right
    operand up by label ([other.reindex_like(self)]); a label that the right
    operand lacks counts as [False]. *)
Definition mask_and (m s : bseries) : bseries :=
  (λ lb, (lb.1, lb.2 && default false (mask_get lb.1 s))) <$> m.

(** [~m]. *)
Definition mask_not (m : bseries) : bseries := (λ lb, (lb.1, negb lb.2)) <$> m.

(** A test applied to every cell of column [c]: the result has the labels of
    the frame. *)
Definition col_test (df : DataFrame) (c : string) (p : option string → bool) : bseries :=
  (λ lr, (lr.1, p (lr.2 !! c))) <$> rows df.

(** [df[c].isnull()], [df[c] == v] and [df[c].isin(vs)] on one cell.  A cell is
    a string or null, so it equals no regular expression and no value of
    another type; a null cell equals nothing. *)
Definition cell_isnull (cell : option string) : bool :=
  match cell with None => true | Some _ => false end.
Definition cell_eq (v : pyval) (cell : option string) : bool :=
  match cell, v with
  | Some s, PStr s' => bool_decide (s = s')
  | _, _ => false
  end.
Definition cell_isin (vs : list pyval) (cell : option string) : bool :=
  match cell with
  | Some s => bool_decide (PStr s ∈ vs)
  | None => false
  end.

(** [df[m]] for a boolean series [m]: the series is reindexed to the labels of
    the frame, and a label it lacks is an error.  (On a frame without rows
    pandas does not take the empty series for a boolean indexer and returns
    a frame without columns; here the columns are kept.  The rows selected
    are the same.) *)
Definition df_getitem_mask (df : DataFrame) (m : bseries) : result DataFrame :=
  if forallb (λ l, bool_decide (is_Some (mask_get l m))) (index df)
  then Ok (mkDF (columns df)
             (filter (λ lr, mask_get lr.1 m = Some true) (rows df)))
  else Raise IndexingError.

(** [df[cols]] for a list of column names. *)
Definition df_getitem_cols (df : DataFrame) (cols : list string) : result DataFrame :=
  match List.find (λ c, bool_decide (c ∉ columns df)) cols with
  | Some c => Raise (KeyError c)
  | None =>
      Ok (mkDF cols
            ((λ lr, (lr.1, filter (λ kv : string * string, kv.1 ∈ cols) lr.2))
               <$> rows df))
  end.

(** [df[c] = None]: every cell of the column becomes null; a new column goes
    last. *)
Definition df_setcol_none (df : DataFrame) (c : string) : DataFrame :=
  mkDF (if bool_decide (c ∈ columns df) then columns df else columns df ++ [c])
       ((λ lr, (lr.1, delete c lr.2)) <$> rows df).

(** The row that a series becomes inside a frame with columns [cols]. *)
Definition series_row (cols : list string) (s : series) : row :=
  list_to_map (omap (λ c, match get c s with
                          | Some (Some v) => Some (c, v)
                          | _ => None
                          end) cols).

(** [df.loc[l] = s]: the row labelled [l] is replaced; when no row has the
    label, the row is added at the end. *)
Definition df_loc_setrow (df : DataFrame) (l : Z) (s : series) : DataFrame :=
  let r := series_row (columns df) s in
  if bool_decide (l ∈ index df)
  then mkDF (columns df)
         ((λ lr, if bool_decide (lr.1 = l) then (lr.1, r) else lr) <$> rows df)
  else mkDF (columns df) (rows df ++ [(l, r)]).

(** [df.loc[ixs, c] = v]; a null value empties the cell. *)
Definition df_loc_setcell (df : DataFrame) (ixs : list Z) (c : string)
    (v : option string) : DataFrame :=
  mkDF (if bool_decide (c ∈ columns df) then columns df else columns df ++ [c])
       ((λ lr, if bool_decide (lr.1 ∈ ixs)
               then (lr.1, match v with
                           | Some s => <[c := s]> lr.2
                           | None => delete c lr.2
                           end)
               else lr)
          <$> rows df).

(** [df.loc[ixs]]: the rows with these labels, in the order of [ixs]. *)
Definition df_loc_rows (df : DataFrame) (ixs : list Z) : DataFrame :=
  mkDF (columns df)
       (mjoin ((λ l, filter (λ lr : Z * row, lr.1 = l) (rows df)) <$> ixs)).

(** [df[~(df.index.isin(ls))]]: a positional selection, no alignment. *)
Definition df_drop_labels (df : DataFrame) (ls : list Z) : DataFrame :=
  mkDF (columns df) (filter (λ lr, lr.1 ∉ ls) (rows df)).

(** A row read as a series over the columns of its frame ([df.iloc[i]],
    [to_dict('records')]). *)
Definition row_series (cols : list string) (r : row) : series :=
  (λ c, (c, r !! c)) <$> cols.

(** [s[cols]] and [s[k]] on a series indexed by names. *)
Definition series_getitem_list (s : series) (cols : list string) : result series :=
  rfold (λ acc c, match get c s with
                  | Some v => Ok (acc ++ [(c, v)])
                  | None => Raise (KeyError c)
                  end) [] cols.
Definition series_getitem (s : series) (k : string) : result (option string) :=
  match get k s with
  | Some v => Ok v
  | None => Raise (KeyError k)
  end.

(** [x in vs] for a value read from a series. *)
Definition value_in (x : option string) (vs : list pyval) : bool :=
  match x with
  | Some s => bool_decide (PStr s ∈ vs)
  | None => bool_decide (PNone ∈ vs)
  end.

(** What [to_csv(filepath, cols=schema, index=False)] leaves in the file and
    [read_csv(filepath, dtype=str)] reads back: the columns of the schema, the
    rows without their labels; an empty field reads as a null cell. *)
Definition to_csv (df : DataFrame) (schema : list string) : DataFrame :=
  mkDF schema
       (imap (λ i lr, (Z.of_nat i,
                       filter (λ kv : string * string, kv.1 ∈ schema ∧ kv.2 ≠ "") lr.2))
          (rows df)).
Definition read_csv (file : DataFrame) : DataFrame := file.

End Pandas.
Export Pandas.

(** ** The attributes of a [PandasDatabase] *)

(** The [astype] argument: [None], a [str], a type (its [__name__]), or
    another object (the [__name__] of its type). *)
Inductive astype_arg : Type :=
  | AsNone
  | AsStr (s : string)
  | AsType (type_name : string)
  | AsObject (type_name : string).

(** The options set by [defaults()] and by the keywords of the constructor
    ([debug] and [root_dir] only affect printing and the place of the files). *)
Record Options : Type := mkOptions {
  astype : astype_arg;
  auto_load : bool;
  auto_save : bool;
  auto_cast : bool;
  dynamic_schema : bool;
  persistent : bool;
  deferred_save : bool;
  save_wait : Z;
  save_queue_max : Z
}.

Definition defaults : Options :=
  {| astype := AsNone; auto_load := true; auto_save := true; auto_cast := false;
     dynamic_schema := true; persistent := true; deferred_save := false;
     save_wait := 1; save_queue_max := 10 |}.

(** A thread started by [_save_defer]: [threading.Thread(target=...).start()]. *)
Inductive thread : Type :=
  | SaveNowThread
  | SaveDeferThread (waittime : Z).

#[export] Instance thread_eq_dec : EqDecision thread.
Proof. solve_decision. Defined.

(** [self], with the three things of its surroundings that the engine reads
    and writes: the [.csv] files of the database folder (by table name), the
    threads started so far, and the clock. *)
Record PandasDatabase : Type := mkPandasDatabase {
  name : string;
  opts : Options;
  _db : gmap string DataFrame;
  _schemas : gmap string (list string);
  _rowgens : gmap string series;
  _save_last : Z;
  _save_queue_len : Z;
  _save_pending_flag : bool;
  files : gmap string DataFrame;
  threads : list thread;
  clock : Z
}.

Definition set_db (f : gmap string DataFrame → gmap string DataFrame)
    (self : PandasDatabase) : PandasDatabase :=
  mkPandasDatabase (name self) (opts self) (f (_db self)) (_schemas self) (_rowgens self)
    (_save_last self) (_save_queue_len self) (_save_pending_flag self)
    (files self) (threads self) (clock self).
Definition set_schemas (f : gmap string (list string) → gmap string (list string))
    (self : PandasDatabase) : PandasDatabase :=
  mkPandasDatabase (name self) (opts self) (_db self) (f (_schemas self)) (_rowgens self)
    (_save_last self) (_save_queue_len self) (_save_pending_flag self)
    (files self) (threads self) (clock self).
Definition set_rowgens (f : gmap string series → gmap string series)
    (self : PandasDatabase) : PandasDatabase :=
  mkPandasDatabase (name self) (opts self) (_db self) (_schemas self) (f (_rowgens self))
    (_save_last self) (_save_queue_len self) (_save_pending_flag self)
    (files self) (threads self) (clock self).
Definition set_save_last (t : Z) (self : PandasDatabase) : PandasDatabase :=
  mkPandasDatabase (name self) (opts self) (_db self) (_schemas self) (_rowgens self)
    t (_save_queue_len self) (_save_pending_flag self)
    (files self) (threads self) (clock self).
Definition set_save_queue_len (n : Z) (self : PandasDatabase) : PandasDatabase :=
  mkPandasDatabase (name self) (opts self) (_db self) (_schemas self) (_rowgens self)
    (_save_last self) n (_save_pending_flag self)
    (files self) (threads self) (clock self).
Definition set_save_pending_flag (b : bool) (self : PandasDatabase) : PandasDatabase :=
  mkPandasDatabase (name self) (opts self) (_db self) (_schemas self) (_rowgens self)
    (_save_last self) (_save_queue_len self) b
    (files self) (threads self) (clock self).
Definition set_files (f : gmap string DataFrame → gmap string DataFrame)
    (self : PandasDatabase) : PandasDatabase :=
  mkPandasDatabase (name self) (opts self) (_db self) (_schemas self) (_rowgens self)
    (_save_last self) (_save_queue_len self) (_save_pending_flag self)
    (f (files self)) (threads self) (clock self).
Definition start_thread (t : thread) (self : PandasDatabase) : PandasDatabase :=
  mkPandasDatabase (name self) (opts self) (_db self) (_schemas self) (_rowgens self)
    (_save_last self) (_save_queue_len self) (_save_pending_flag self)
    (files self) (threads self ++ [t]) (clock self).
Definition sleep (d : Z) (self : PandasDatabase) : PandasDatabase :=
  mkPandasDatabase (name self) (opts self) (_db self) (_schemas self) (_rowgens self)
    (_save_last self) (_save_queue_len self) (_save_pending_flag self)
    (files self) (threads self) (clock self + d).

(** ** Methods: a state monad with exceptions *)

Definition M (A : Type) : Type := PandasDatabase → PandasDatabase * result A.

Definition ret {A} (a : A) : M A := λ self, (self, Ok a).
Definition raise {A} (e : exn) : M A := λ self, (self, Raise e).
Definition bind {A B} (m : M A) (k : A → M B) : M B :=
  λ self, match m self with
          | (self', Ok a) => k a self'
          | (self', Raise e) => (self', Raise e)
          end.
Definition lift {A} (r : result A) : M A := λ self, (self, r).
Definition gets {A} (f : PandasDatabase → A) : M A := λ self, (self, Ok (f self)).
Definition modify (f : PandasDatabase → PandasDatabase) : M unit :=
  λ self, (f self, Ok tt).

Notation "'do!' x ':=' m 'in' k" := (bind m (λ x, k))
  (at level 10, x name, m at level 100, k at level 200, only parsing).
Notation "m ';;' k" := (bind m (λ _, k))
  (at level 100, k at level 200, right associativity, only parsing).

(** [for x in xs: body(x)]. *)
Fixpoint for_each {A} (xs : list A) (body : A → M unit) : M unit :=
  match xs with
  | [] => ret tt
  | x :: xs' => body x ;; for_each xs' body
  end.

(** [self._db[tname]] and [self._schemas[tname]]. *)
Definition db_getitem (tname : string) : M DataFrame :=
  λ self, match _db self !! tname with
          | Some df => (self, Ok df)
          | None => (self, Raise (KeyError tname))
          end.
Definition schemas_getitem (tname : string) : M (list string) :=
  λ self, match _schemas self !! tname with
          | Some s => (self, Ok s)
          | None => (self, Raise (KeyError tname))
          end.

(** ** The checks of the boiler plate section *)

(** [type(v)], as far as the checks distinguish types. *)
Inductive pytype : Type := TStr | TList | TRegex | TNoneType | TOther.

#[export] Instance pytype_eq_dec : EqDecision pytype.
Proof. solve_decision. Defined.

Definition type_of (v : pyval) : pytype :=
  match v with
  | PStr _ => TStr
  | PNone => TNoneType
  | PRegex _ => TRegex
  | POther _ => TOther
  end.
Definition arg_type (a : cond_arg) : pytype :=
  match a with
  | CVal v => type_of v
  | CList _ => TList
  end.

(** [tostr(s, cast)]: a [str] is returned as it is; another value becomes
    [str(s)] when [cast] is set. *)
Definition tostr (cast : bool) (v : pyval) : pyval :=
  match v with
  | PStr s => PStr s
  | PNone => if cast then PStr "None" else PNone
  | PRegex p => if cast then PStr ("re.compile('" +:+ p +:+ "')") else PRegex p
  | POther shown => if cast then PStr shown else POther shown
  end.

(** The cell that a checked value of a record becomes. *)
Definition cell_of (v : pyval) : option string :=
  match v with
  | PStr s => Some s
  | PNone => None
  | PRegex p => Some p
  | POther shown => Some shown
  end.
Definition pyval_of (cell : option string) : pyval :=
  match cell with
  | Some s => PStr s
  | None => PNone
  end.

(** [map] with a function that may raise. *)
Fixpoint rmap {A B} (f : A → result B) (xs : list A) : result (list B) :=
  match xs with
  | [] => Ok []
  | x :: xs' => try! y := f x in try! ys := rmap f xs' in Ok (y :: ys)
  end.

(** [_check_case_str]. *)
Definition _check_case_str (s : string) : string :=
  if bool_decide (s ≠ lower s) then lower s else s.

(** The body of the loop of [_check_case_dict]: a key that is not in lower
    case is popped and its value stored under the lowered key. *)
Definition _check_case_key {V} (dic : dict V) (k : string) : dict V :=
  let k_chk := _check_case_str k in
  if bool_decide (k ≠ k_chk)
  then match get k dic with
       | Some v => set k_chk v (remove k dic)
       | None => dic
       end
  else dic.

(** [_check_case_dict]: [for k in list(dic.keys())]. *)
Definition _check_case_dict {V} (dic : dict V) : dict V :=
  foldl _check_case_key dic (keys dic).

(** [_check_table_names]: [None] is no table, a single name is a list of one
    name. *)
Definition _check_table_names (table_names : list string) : list string :=
  lower <$> table_names.

(** [_check_type_iter(str, var_iter)] on the argument of a condition. *)
Definition _check_type_iter (var_iter : cond_arg) : result (list pyval) :=
  let var_iter := match var_iter with
                  | CVal PNone => []
                  | CVal v => [v]
                  | CList vs => vs
                  end in
  if forallb is_str var_iter then Ok var_iter
  else Raise (ValueError ParameterType).

(** [_check_columns]. *)
Definition _check_columns (columns : list string) (add_id : bool) : result (list string) :=
  try! columns :=
    (if bool_decide (_id_colname ∉ columns)
     then if add_id then Ok (columns ++ [_id_colname])
          else Raise (ValueError MissingIdColumn)
     else Ok columns) in
  if forallb colname_match columns then Ok columns
  else Raise (ValueError InvalidColumnName).

(** [_check_dict_type(str, val_type, obj, cast)].  The keys are [str] already. *)
Definition _check_dict_type {V} (type_of : V → pytype) (tostr : bool → V → V)
    (val_type : list pytype) (obj : dict V) (cast : bool) : result (dict V) :=
  let obj := (λ kv, (kv.1, tostr cast kv.2)) <$> obj in
  if negb cast && negb (forallb (λ kv, bool_decide (type_of kv.2 ∈ val_type)) obj)
  then Raise (ValueError DictValueType)
  else Ok obj.

(** [hasattr(v, '__iter__')] (Python 3: a [str] has it). *)
Definition has_iter (a : cond_arg) : bool :=
  match a with
  | CList _ | CVal (PStr _) => true
  | CVal _ => false
  end.

(** [_check_conditions]: every argument becomes a list of values. *)
Definition _check_conditions (conditions : dict cond_arg) : result (dict (list pyval)) :=
  try! conditions :=
    _check_dict_type arg_type (λ _ a, a) [TStr; TList; TRegex] conditions false in
  rmap (λ kv : string * cond_arg,
          match kv.2 with
          | CVal v =>
              if negb (has_iter kv.2) && (isnull v || is_regex v)
              then Ok (kv.1, [v])
              else try! vs := _check_type_iter kv.2 in Ok (kv.1, vs)
          | CList _ => try! vs := _check_type_iter kv.2 in Ok (kv.1, vs)
          end)
       conditions.

(** A checked condition passed on to another method. *)
Definition as_args (condition : dict (list pyval)) : dict cond_arg :=
  (λ kv, (kv.1, CList kv.2)) <$> condition.

(** ** Output casting *)

(** What a method returns: the records as they are, or cast by [_output]. *)
Inductive output : Type :=
  | OutSeries (s : series)
  | OutFrame (df : DataFrame)
  | OutDict (d : series)                 (* [records.to_dict()] *)
  | OutDictList (ds : list series)       (* a list of such dictionaries *)
  | OutJson (s : series)                 (* [records.to_json()] *)
  | OutJsonWrapped (s : series)          (* ['[' + records.to_json() + ']'] *)
  | OutJsonRecords (df : DataFrame).     (* [records.to_json(orient='records')] *)

Definition astype_name (a : astype_arg) : string :=
  match a with
  | AsNone => "NoneType"
  | AsStr s => s
  | AsType n => n
  | AsObject n => n
  end.

(** [astype in supported_formats]: only a [str] equals a [str]. *)
Definition astype_in (a : astype_arg) (supported : list string) : bool :=
  match a with
  | AsStr s => bool_decide (s ∈ supported)
  | _ => false
  end.

(** [type(records).__name__.lower()]. *)
Definition records_type (records : output) : string :=
  match records with
  | OutSeries _ => "series"
  | OutFrame _ => "dataframe"
  | OutDict _ => "dict"
  | OutDictList _ => "list"
  | OutJson _ | OutJsonWrapped _ | OutJsonRecords _ => "str"
  end.

(** [self.astype]. *)
Definition self_astype : M astype_arg := gets (λ self, astype (opts self)).

(** [_output]. *)
Definition _output (records : output) (single : bool) (astype : astype_arg) : M output :=
  do! astype := (match astype with
                 | AsNone => self_astype
                 | _ => ret astype
                 end) in
  let astype_str := lower (astype_name astype) in
  let supported_formats :=
    if single then ["nonetype"; "series"; "str"; "dict"; "json"]
    else ["nonetype"; "dataframe"; "dict"; "str"; "json"] in
  if negb (astype_in astype supported_formats)
     && negb (bool_decide (astype_str ∈ supported_formats))
  then raise (RuntimeError UnsupportedOutputType)
  else
    let records :=
      match single, records with
      | true, OutFrame df =>
          match rows df with
          | lr :: _ => OutSeries (row_series (columns df) lr.2)
          | [] => OutSeries []
          end
      | _, _ => records
      end in
    if match astype with AsNone => true | _ => false end
       || bool_decide (astype_str = records_type records)
    then ret records
    else match records with
         | OutSeries s =>
             if bool_decide (astype_str = "dict")
             then ret (if single then OutDict s else OutDictList [s])
             else if bool_decide (astype_str = "str") || bool_decide (astype_str = "json")
             then ret (if single then OutJson s else OutJsonWrapped s)
             else raise (RuntimeError CannotCast)
         | OutFrame df =>
             if bool_decide (astype_str = "dict")
             then ret (OutDictList ((λ lr, row_series (columns df) lr.2) <$> rows df))
             else if bool_decide (astype_str = "str") || bool_decide (astype_str = "json")
             then ret (OutJsonRecords df)
             else raise (RuntimeError CannotCast)
         | _ => raise (ValueError UnknownRecordsType)
         end.

(** [records.index] and the use of a returned record as a series. *)
Definition frame_of (records : output) : result DataFrame :=
  match records with
  | OutFrame df => Ok df
  | _ => Raise AttributeError
  end.
Definition series_of (records : output) : result series :=
  match records with
  | OutSeries s => Ok s
  | _ => Raise AttributeError
  end.

(** ** Persistence *)

(** [_save_now]: every table with rows is written to its file, the file of a
    table without rows is removed; then the time of the last save and the
    queue length are reset.  (The engine keeps a schema for every table; for a
    table without one the columns of the frame are written.) *)
Definition _save_now : M unit :=
  λ self,
    if negb (persistent (opts self)) then (self, Ok tt)
    else
      let written : gmap string DataFrame :=
        map_imap (λ tname df,
                    if 0 <? df_len df
                    then Some (to_csv df (default (columns df) (_schemas self !! tname)))
                    else None)
                 (_db self) in
      let kept : gmap string DataFrame :=
        filter (λ kv, _db self !! kv.1 = None) (files self) in
      (set_save_queue_len 0
         (set_save_last (clock self) (set_files (λ _, written ∪ kept) self)),
       Ok tt).

(** [_save_defer(waittime)]. *)
Definition _save_defer (waittime : Z) : M unit :=
  λ self,
    let self := if 0 <? waittime then sleep waittime self else self in
    (* cancelling a pending save is signalled by a cleared flag *)
    if (0 <? waittime) && negb (_save_pending_flag self) then (self, Ok tt)
    else
      let now := clock self in
      let self := set_save_pending_flag false self in
      (* the first time, save_last is 0 *)
      let self := if _save_last self =? 0 then set_save_last now self else self in
      (* has it been longer than save_wait? *)
      let self :=
        if (0 <? save_wait (opts self)) && (save_wait (opts self) <? now - _save_last self)
        then start_thread SaveNowThread self
        else if (0 <? save_wait (opts self)) && negb (_save_pending_flag self)
        then start_thread
               (SaveDeferThread (save_wait (opts self) - now + _save_last self))
               (set_save_pending_flag true self)
        else self in
      (* is the queue long enough? *)
      let self :=
        if (0 <? save_queue_max (opts self))
           && (save_queue_max (opts self) <? _save_queue_len self)
        then start_thread SaveNowThread self
        else if 0 <? save_queue_max (opts self)
        then set_save_queue_len (_save_queue_len self + 1) self
        else self in
      (self, Ok tt).

(** [save]. *)
Definition save : M unit :=
  do! deferred := gets (λ self, deferred_save (opts self)) in
  if deferred then _save_defer 0 else _save_now.

(** [if self.auto_save: self.save()]. *)
Definition save_if_auto : M unit :=
  do! auto := gets (λ self, auto_save (opts self)) in
  if auto then save else ret tt.

(** The body of a thread, once it is scheduled. *)
Definition run_thread (t : thread) : M unit :=
  match t with
  | SaveNowThread => _save_now
  | SaveDeferThread waittime => _save_defer waittime
  end.

(** ** Tables and schemas *)

(** [get_table_names] (in the order of the keys of the finite map). *)
Definition get_table_names : M (list string) :=
  gets (λ self, (map_to_list (_db self)).*1).

(** [load(table_names, table_schemas, table_rowgens)]. *)
Definition load (table_names : option (list string))
    (table_schemas : option (dict (list string)))
    (table_rowgens : option (dict series)) : M unit :=
  do! dynamic := gets (λ self, dynamic_schema (opts self)) in
  (* check for table schemas *)
  do! table_schemas :=
    (match table_schemas with
     | Some schemas =>
         lift (try! checked :=
                 rmap (λ kv : string * list string,
                         try! cols := _check_columns kv.2 true in Ok (kv.1, cols))
                      (_check_case_dict schemas) in
               Ok (Some checked))
     | None =>
         if dynamic then ret None else raise (ValueError SchemasRequired)
     end) in
  (* check for row generators *)
  let table_rowgens := _check_case_dict <$> table_rowgens in
  (* infer the table names from one of the other parameters *)
  do! table_names :=
    (match table_names, table_schemas, table_rowgens with
     | Some names, _, _ => ret names
     | None, Some schemas, _ => ret (keys schemas)
     | None, None, Some rowgens => ret (keys rowgens)
     | None, None, None => raise (ValueError NoLoadParameter)
     end) in
  let table_names := _check_table_names table_names in
  (* update schemas and row generators without losing previous ones *)
  for_each table_names (λ tname,
    (match table_schemas ≫= get tname with
     | Some schema => modify (set_schemas <[tname := schema]>)
     | None => ret tt
     end) ;;
    (match table_rowgens ≫= get tname with
     | Some rowgen => modify (set_rowgens <[tname := rowgen]>)
     | None => ret tt
     end)) ;;
  for_each table_names (λ tname,
    let tname := _check_case_str tname in
    do! self := gets id in
    match files self !! tname with
    | Some file =>
        (* table already exists, simply load it *)
        if auto_load (opts self)
        then
          let dataframe := read_csv file in
          modify (set_db <[tname := dataframe]>) ;;
          do! schema := lift (_check_columns (columns dataframe) false) in
          modify (set_schemas <[tname := schema]>)
        else if persistent (opts self)
        then raise (ValueError TableWouldBeOverwritten)
        else ret tt
    | None =>
        match table_schemas, _schemas self !! tname with
        | Some _, Some schema =>
            (* table not found, try to create it using given schema *)
            modify (set_db <[tname := df_new schema]>)
        | _, _ =>
            if dynamic_schema (opts self)
            then
              (* table not found, dynamic schema *)
              modify (set_db <[tname := df_new _blank_schema]>) ;;
              modify (set_schemas <[tname := _blank_schema]>)
            else raise (ValueError TableNotFoundNoSchema)
        end
    end).

(** [_check_tname(tname, noload)]. *)
Definition _check_tname (tname : string) (noload : bool) : M string :=
  let tname := lower tname in
  do! self := gets id in
  match _db self !! tname with
  | Some _ => ret tname
  | None =>
      if auto_load (opts self) && negb noload
      then load (Some [tname]) None None ;; ret tname
      else raise (ValueError TableDoesNotExist)
  end.

(** [get_table_schema]. *)
Definition get_table_schema (tname : string) : M (list string) :=
  do! tname := _check_tname tname true in
  do! self := gets id in
  match _schemas self !! tname with
  | Some schema => ret schema
  | None => raise (ValueError TableNotInSchemaStore)
  end.

(** [drop(table_names)]. *)
Definition drop (table_names : list string) : M unit :=
  let table_names := _check_table_names table_names in
  for_each table_names (λ tname,
    do! tname := _check_tname tname true in
    modify (set_db (delete tname)) ;;
    do! keep := gets (λ self, persistent (opts self)) in
    if keep then modify (set_files (delete tname)) else ret tt).

(** [drop_all] (the removal of the emptied folder is left out). *)
Definition drop_all : M unit :=
  do! table_names := get_table_names in
  drop table_names.

(** [_update_schema(tname, columns)]. *)
Definition _update_schema (tname : string) (columns : list string) : M unit :=
  for_each columns (λ field_key,
    do! schema := schemas_getitem tname in
    (* is the column part of the schema? *)
    if bool_decide (field_key ∉ schema)
    then
      do! dynamic := gets (λ self, dynamic_schema (opts self)) in
      if dynamic
      then
        (* [append], then [_check_columns] on the list just extended *)
        modify (set_schemas <[tname := schema ++ [field_key]]>) ;;
        do! checked := lift (_check_columns (schema ++ [field_key]) false) in
        modify (set_schemas <[tname := checked]>) ;;
        do! dataframe := db_getitem tname in
        modify (set_db <[tname := df_setcol_none dataframe field_key]>)
      else raise (ValueError UnknownColumn)
    else ret tt).

(** The dictionary [record_new] that [insert] builds: the record of the row
    generator of the table, if there is one (kept as the dictionary it
    returns), overlaid with the checked record, whose reserved column holds
    the freshly drawn identifier. *)
Definition record_new (uuid4 : string) (rowgen : option series)
    (record : dict pyval) : series :=
  let record := set _id_colname (PStr uuid4) record in
  (* if a row generation function exists for this table, use that *)
  let record_new : series := default [] rowgen in
  (* set as many fields as provided in new record, leave the rest as-is *)
  update record_new ((λ kv, (kv.1, cell_of kv.2)) <$> record).

(** The part of [insert] between the checks of its arguments and the cast of
    the row it returns; [record] is the checked record. *)
Definition insert_row (uuid4 : string) (tname : string) (record : dict pyval)
    (columns : list string) : M series :=
  do! rowgen := gets (λ self, _rowgens self !! tname) in
  let row := record_new uuid4 rowgen record in
  _update_schema tname (keys row) ;;
  do! dataframe := db_getitem tname in
  modify (set_db <[tname := df_loc_setrow dataframe (df_len dataframe) row]>) ;;
  (* save the changes to disk if required *)
  save_if_auto ;;
  if (0 <? length columns)%nat
  then lift (series_getitem_list row columns)
  else ret row.

(** [insert(tname, record, columns, astype)]; [uuid4] is the text of the
    [uuid.uuid4()] drawn by the call, [columns] the list that
    [_check_type_iter(str, columns)] returns. *)
Definition insert (uuid4 : string) (tname : string) (record : dict pyval)
    (columns : list string) (astype : astype_arg) : M output :=
  do! tname := _check_tname tname false in
  do! cast := gets (λ self, auto_cast (opts self)) in
  do! record := lift (_check_dict_type type_of tostr [TStr] record cast) in
  do! row := insert_row uuid4 tname record columns in
  _output (OutSeries row) true astype.

(** ** Conditions, queries and updates *)

Section Engine.

(** [Series.astype(str).str.match(pattern)] on one cell: the regular
    expression engine is a parameter of the development. *)
Variable str_match : string → option string → bool.

(** The loop of [_get_condition_mask]: [mask] is the mask so far, [condition]
    the entries still to visit.  The three shapes of [cond_val] are
    [len(cond_val) == 1], [len(cond_val) > 1] and the empty list, which
    neither branch handles. *)
Fixpoint _get_condition_mask_loop (dataframe : DataFrame) (mask : bseries)
    (condition : dict (list pyval)) : result bseries :=
  match condition with
  | [] => Ok mask
  | (cond_key, cond_val) :: condition' =>
      if bool_decide (cond_key ∉ columns dataframe)
      then
        (* warning: table does not contain the column; [break] *)
        Ok (series_const false (length (rows dataframe)))
      else
        match cond_val with
        | [cond_val] =>
            match cond_val with
            | PRegex pattern =>
                (* regex type: pass the underlying pattern to pandas' match *)
                _get_condition_mask_loop dataframe
                  (mask_and mask (col_test dataframe cond_key (str_match pattern)))
                  condition'
            | _ =>
                if isnull cond_val
                then
                  (* null: check for all nullable values in column *)
                  _get_condition_mask_loop dataframe
                    (mask_and mask (col_test dataframe cond_key cell_isnull))
                    condition'
                else
                  (* otherwise use standard string comparison *)
                  _get_condition_mask_loop dataframe
                    (mask_and mask (col_test dataframe cond_key (cell_eq cond_val)))
                    condition'
            end
        | _ :: _ :: _ =>
            if existsb is_regex cond_val
            then Raise (ValueError RegexInWhereIn)
            else if existsb isnull cond_val
            then Raise (ValueError NullInWhereIn)
            else
              (* otherwise use pandas' .isin() operator *)
              _get_condition_mask_loop dataframe
                (mask_and mask (col_test dataframe cond_key (cell_isin cond_val)))
                condition'
        | [] => _get_condition_mask_loop dataframe mask condition'
        end
  end.

(** [_get_condition_mask(dataframe, condition)]. *)
Definition _get_condition_mask (dataframe : DataFrame)
    (condition : dict (list pyval)) : result bseries :=
  _get_condition_mask_loop dataframe
    (series_const true (length (rows dataframe))) condition.

(** The body of [find] up to the cast of the result. *)
Definition find_frame (tname : string) (where_ where_not : dict cond_arg)
    (columns : list string) : M DataFrame :=
  do! where_ := lift (_check_conditions where_) in
  do! where_not := lift (_check_conditions where_not) in
  do! dataframe := db_getitem tname in
  do! dataframe :=
    (if (0 <? length columns)%nat && (0 <? df_len dataframe)
     then lift (df_getitem_cols dataframe columns)
     else ret dataframe) in
  (* parse the conditions to match *)
  do! dataframe :=
    (if (0 <? length where_)%nat
     then lift (try! m := _get_condition_mask dataframe where_ in
                df_getitem_mask dataframe m)
     else ret dataframe) in
  (* parse the conditions not to match *)
  do! dataframe :=
    (if (0 <? length where_not)%nat
     then lift (try! m := _get_condition_mask dataframe where_not in
                df_getitem_mask dataframe (mask_not m))
     else ret dataframe) in
  ret dataframe.

(** [find(tname, where, where_not, columns, astype)]: a [ValueError] of
    [_check_tname] is caught and answered with an empty frame. *)
Definition find (tname : string) (where_ where_not : dict cond_arg)
    (columns : list string) (astype : astype_arg) : M output :=
  λ self,
    match _check_tname tname true self with
    | (self, Ok tname) =>
        (do! dataframe := find_frame tname where_ where_not columns in
         _output (OutFrame dataframe) false astype) self
    | (self, Raise (ValueError _)) => _output (OutFrame (df_new [])) false astype self
    | (self, Raise e) => (self, Raise e)
    end.

(** [find_one]. *)
Definition find_one (tname : string) (where_ where_not : dict cond_arg)
    (columns : list string) (astype : astype_arg) : M output :=
  do! records := find tname where_ where_not columns (AsStr "dataframe") in
  _output records true astype.

(** [delete(tname, where, where_not, columns, astype)]. *)
Definition delete (tname : string) (where_ where_not : dict cond_arg)
    (columns : list string) (astype : astype_arg) : M output :=
  do! tname := _check_tname tname false in
  do! where_ := lift (_check_conditions where_) in
  do! where_not := lift (_check_conditions where_not) in
  (* find the rows to be deleted *)
  do! found := find tname (as_args where_) (as_args where_not) [] (AsType "DataFrame") in
  do! delrows := lift (frame_of found) in
  (* remove them from the table *)
  do! dataframe := db_getitem tname in
  modify (set_db <[tname := df_drop_labels dataframe (index delrows)]>) ;;
  (* save the changes to disk if required *)
  save_if_auto ;;
  (* return deleted rows *)
  _output (OutFrame delrows) false astype.

(** [upsert(tname, record, where, where_not, columns, astype)]. *)
Definition upsert (uuid4 : string) (tname : string) (record : dict pyval)
    (where_ where_not : dict cond_arg) (columns : list string)
    (astype : astype_arg) : M output :=
  do! tname := _check_tname tname false in
  do! where_ := lift (_check_conditions where_) in
  do! where_not := lift (_check_conditions where_not) in
  do! cast := gets (λ self, auto_cast (opts self)) in
  do! record := lift (_check_dict_type type_of tostr [TStr] record cast) in
  (* attempt search only if where conditions are given *)
  if (0 <? length where_)%nat || (0 <? length where_not)%nat
  then
    do! found := find tname (as_args where_) (as_args where_not) [] (AsStr "dataframe") in
    do! found := lift (frame_of found) in
    let ixs := index found in
    if (length ixs =? 0)%nat
    then
      (* no records matched the where conditions, default to insert:
         add all the key-value pairs from the where condition *)
      let record :=
        foldl (λ record kv,
                 set kv.1 (match kv.2 with v :: _ => v | [] => PNone end) record)
              record where_ in
      (* create a new record *)
      do! inserted := insert uuid4 tname record columns (AsStr "series") in
      do! record_new := lift (series_of inserted) in
      (* if the default value of the column provided in where_not conflicts,
         error out; the list of tests is built in full before [any] *)
      do! tests :=
        lift (rmap (λ kv : string * list pyval,
                      try! x := series_getitem record_new kv.1 in
                      Ok (value_in x kv.2))
                   where_not) in
      if existsb id tests
      then
        do! _id := lift (series_getitem record_new _id_colname) in
        delete tname [(_id_colname, CVal (pyval_of _id))] [] [] AsNone ;;
        raise (ValueError UpsertConflict)
      else
        (* otherwise return created record *)
        _output inserted false astype
    else
      (* existing record(s) must be updated *)
      _update_schema tname (keys record) ;;
      for_each record (λ kv,
        do! dataframe := db_getitem tname in
        modify (set_db <[tname := df_loc_setcell dataframe ixs kv.1 (cell_of kv.2)]>)) ;;
      (* save the changes to disk if required *)
      save_if_auto ;;
      (* return updated records *)
      do! dataframe := db_getitem tname in
      let rows := df_loc_rows dataframe ixs in
      do! rows := (if (0 <? length columns)%nat
                   then lift (df_getitem_cols rows columns)
                   else ret rows) in
      _output (OutFrame rows) false astype
  else
    (* insert if no where conditions are given; return the new record *)
    do! new_record := insert uuid4 tname record columns (AsStr "series") in
    _output new_record false astype.

End Engine.

(** ** Tables in their normal form *)

(** Table [tname] of the database is the frame [df]: the schema store lists
    the columns of the frame, the reserved column is among them, the column
    names are well-formed and every cell lies in a column. *)
Record is_table (self : PandasDatabase) (tname : string) (df : DataFrame) : Prop := {
  table_stored : _db self !! tname = Some df;
  table_schema : _schemas self !! tname = Some (columns df);
  table_has_id : _id_colname ∈ columns df;
  table_colnames : forallb colname_match (columns df) = true;
  table_cells : Forall (λ lr, dom lr.2 ⊆ list_to_set (columns df)) (rows df)
}.

(** The frame carries the index it had when it was created or read from its
    file and rows were only added to it: [0 .. len(df) - 1]. *)
Definition default_index (df : DataFrame) : Prop :=
  index df = range_index (length (rows df)).

(** The values of the reserved column are present and pairwise distinct. *)
Definition unique_ids (df : DataFrame) : Prop :=
  Forall (λ lr, is_Some (lr.2 !! _id_colname)) (rows df)
  ∧ NoDup ((λ lr, lr.2 !! _id_colname) <$> rows df).

(** The columns that [_update_schema] adds to [schema] for the keys [cols],
    in the order it adds them. *)
Fixpoint new_columns (schema cols : list string) : list string :=
  match cols with
  | [] => []
  | c :: cols' =>
      if bool_decide (c ∈ schema) then new_columns schema cols'
      else c :: new_columns (schema ++ [c]) cols'
  end.

(** The database with table [tname] replaced by the frame [df] and the
    schema [schema]. *)
Definition with_table (tname : string) (df : DataFrame) (schema : list string)
    (self : PandasDatabase) : PandasDatabase :=
  set_db <[tname := df]> (set_schemas <[tname := schema]> self).

(** The frame [df] with the columns among [cols] that it lacks added at the
    end. *)
Definition with_columns (df : DataFrame) (cols : list string) : DataFrame :=
  mkDF (columns df ++ new_columns (columns df) cols) (rows df).

(** The frame that [insert] leaves for a table in its normal form that was
    the frame [df]: the new columns of the row are added, then the row is
    stored under the label [len(df)]. *)
Definition frame_after_insert (df : DataFrame) (row : series) : DataFrame :=
  df_loc_setrow (with_columns df (keys row)) (df_len df) row.

(** The keys [cols] pass [_update_schema] on a table with the frame [df]:
    well-formed names under a dynamic schema, known columns under a fixed
    one. *)
Definition schema_accepts (self : PandasDatabase) (df : DataFrame)
    (cols : list string) : Prop :=
  if dynamic_schema (opts self) then forallb colname_match cols = true
  else Forall (λ c, c ∈ columns df) cols.

(** Two states of the database with the same tables, schemas, row generators
    and options. *)
Definition same_tables (self self' : PandasDatabase) : Prop :=
  _db self' = _db self ∧ _schemas self' = _schemas self
  ∧ _rowgens self' = _rowgens self ∧ opts self' = opts self.

(** No method writes to the options. *)
Definition keeps_opts {A} (m : M A) : Prop := ∀ self, opts (m self).1 = opts self.

(** The values that [_check_conditions] lets through: a list of [str], or a
    single value. *)
Definition checked_values (vs : list pyval) : Prop :=
  forallb is_str vs = true ∨ ∃ v, vs = [v].

(** A record whose values are all [str], and a condition whose arguments are
    a [str] or a list of [str]. *)
Definition str_record (record : dict pyval) : Prop :=
  Forall (λ kv, is_str kv.2 = true) record.
Definition str_condition (condition : dict cond_arg) : Prop :=
  Forall (λ kv, match kv.2 with
                | CVal v => is_str v
                | CList vs => forallb is_str vs
                end = true) condition.

(** No wait time has elapsed: the time-based branch of [_save_defer] does not
    start a save. *)
Definition no_wait_elapsed (self : PandasDatabase) : Prop :=
  save_wait (opts self) ≤ 0
  ∨ _save_last self = 0
  ∨ clock self - _save_last self ≤ save_wait (opts self).

(** The list of values that [_check_conditions] makes of an argument that it
    accepts. *)
Definition arg_values (a : cond_arg) : list pyval :=
  match a with
  | CVal v => [v]
  | CList vs => vs
  end.

(** The conditions that [_check_conditions] makes of conditions that it
    accepts. *)
Definition checked (conditions : dict cond_arg) : dict (list pyval) :=
  (λ kv, (kv.1, arg_values kv.2)) <$> conditions.

(** [record.items()] written into a row of the frame. *)
Definition row_update (record : dict pyval) (r : row) : row :=
  foldl (λ r kv, match cell_of kv.2 with
                 | Some s => <[kv.1 := s]> r
                 | None => base.delete kv.1 r
                 end) r record.

(** The frame that [upsert] leaves for a table in its normal form that was
    the frame [df], when the rows with the labels [ixs] are updated. *)
Definition frame_after_update (df : DataFrame) (ixs : list Z)
    (record : dict pyval) : DataFrame :=
  foldl (λ d kv, df_loc_setcell d ixs kv.1 (cell_of kv.2))
    (with_columns df (keys record)) record.

(** The frame [found] holds the rows of [df] whose label satisfies some
    test. *)
Definition selects_by_label (df found : DataFrame) : Prop :=
  columns found = columns df
  ∧ ∃ P : Z → Prop, ∀ lr, lr ∈ rows found ↔ lr ∈ rows df ∧ P lr.1.

(** Column [c] is in the frame [df'], and every row of [df] whose label is
    not in [updated] is in [df'] at its place, unchanged, with a null cell in
    column [c]. *)
Definition column_added (c : string) (df df' : DataFrame) (updated : list Z) : Prop :=
  (∃ news, columns df' = columns df ++ news ∧ c ∈ news)
  ∧ ∀ i l r, rows df !! i = Some (l, r) → l ∉ updated →
      rows df' !! i = Some (l, r) ∧ r !! c = None.

(** The record that [upsert] inserts when no row matches: the record of the
    call with, for every entry of [where], the first of its values. *)
Definition synthesized (record : dict pyval) (where_ : dict (list pyval)) : dict pyval :=
  foldl (λ record kv, set kv.1 (match kv.2 with v :: _ => v | [] => PNone end) record)
    record where_.

(** The tests of the conflict: one per entry of [where_not], in order; a key
    that the returned series lacks raises [KeyError]. *)
Definition conflict_tests (record_new : series) (where_not : dict (list pyval)) :
    result (list bool) :=
  rmap (λ kv : string * list pyval,
          try! x := series_getitem record_new kv.1 in
          Ok (value_in x kv.2))
       where_not.

(** The test that one entry of a checked condition puts on the cell of its
    column: the three shapes of [_get_condition_mask]. *)
Definition entry_test (str_match : string → option string → bool)
    (cond_val : list pyval) : option string → bool :=
  match cond_val with
  | [] => λ _, true
  | [PRegex pattern] => str_match pattern
  | [v] => if isnull v then cell_isnull else cell_eq v
  | _ => cell_isin cond_val
  end.

(** A row passes a checked condition: every entry names a column of the frame
    and holds of the cell of the row in that column. *)
Definition row_matches (str_match : string → option string → bool)
    (cols : list string) (condition : dict (list pyval)) (r : row) : bool :=
  forallb (λ kv, bool_decide (kv.1 ∈ cols) && entry_test str_match kv.2 (r !! kv.1))
    condition.

(** The boolean series that holds [g] of every row, under the label of the
    row. *)
Definition row_mask (df : DataFrame) (g : row → bool) : bseries :=
  (λ lr, (lr.1, g lr.2)) <$> rows df.

(** ** Concrete databases used by the examples *)

Module Examples.

(** A regular expression engine that accepts a cell when the pattern is a
    prefix of its text. *)
Definition prefix_match (pattern : string) (cell : option string) : bool :=
  match cell with
  | Some s => String.prefix pattern s
  | None => false
  end.

(** [PandasDatabase("test", auto_save=False, persistent=False)]. *)
Definition memory_options : Options :=
  mkOptions AsNone true false false true false false 1 10.
Definition memory_db : PandasDatabase :=
  mkPandasDatabase "test" memory_options ∅ ∅ ∅ 0 0 false ∅ [] 0.

(** The same with [astype='dict'], as in the test suite. *)
Definition dict_db : PandasDatabase :=
  mkPandasDatabase "test" (mkOptions (AsStr "dict") true false false true false false 1 10)
    ∅ ∅ ∅ 0 0 false ∅ [] 0.

(** [PandasDatabase("test", auto_save=True, deferred_save=True)] at a time
    when the clock reads 1000. *)
Definition deferred_db : PandasDatabase :=
  mkPandasDatabase "test" (mkOptions AsNone true true false true true true 1 10)
    ∅ ∅ ∅ 0 0 false ∅ [] 1000.

(** A table with the columns [__id__], [a], [b] and two rows. *)
Definition two_rows : DataFrame :=
  mkDF ["__id__"; "a"; "b"]
       [(0, {[ "__id__" := "id0"; "a" := "x"; "b" := "p" ]});
        (1, {[ "__id__" := "id1"; "a" := "y"; "b" := "q" ]})].
Definition two_rows_db : PandasDatabase :=
  mkPandasDatabase "test" memory_options {[ "t" := two_rows ]}
    {[ "t" := ["__id__"; "a"; "b"] ]} ∅ 0 0 false ∅ [] 0.

(** The same table in a database with a fixed schema. *)
Definition fixed_db : PandasDatabase :=
  mkPandasDatabase "test" (mkOptions AsNone false false false false false false 1 10)
    {[ "t" := two_rows ]} {[ "t" := ["__id__"; "a"; "b"] ]} ∅ 0 0 false ∅ [] 0.

End Examples.

(** * Properties *)

(** ** Identifiers and dictionaries *)

Lemma lower_ascii_idemp c : lower_ascii (lower_ascii c) = lower_ascii c.
Proof. destruct c as [[] [] [] [] [] [] [] []]; reflexivity. Qed.

Lemma lower_idemp s : lower (lower s) = lower s.
Proof.
  induction s as [|c s IH]; simpl; [done|].
  by rewrite lower_ascii_idemp, IH.
Qed.

Lemma _check_case_str_lower s : _check_case_str s = lower s.
Proof.
  unfold _check_case_str. case_bool_decide; [done|].
  by destruct (decide (s = lower s)).
Qed.

Lemma _check_table_names_idemp names :
  _check_table_names (lower <$> names) = _check_table_names names.
Proof.
  unfold _check_table_names. rewrite <- list_fmap_compose.
  apply list_fmap_ext. intros _ s _. simpl. apply lower_idemp.
Qed.

Section DictFacts.
Context {V : Type}.
Implicit Types (d : dict V) (k : string) (v : V).

Lemma keys_set_subseteq k v d : keys (set k v d) ⊆ k :: keys d.
Proof.
  induction d as [|[k' v'] d IH]; simpl; [set_solver|].
  case_bool_decide; subst; unfold keys in *; simpl; set_solver.
Qed.

Lemma keys_remove_subseteq k d : keys (remove k d) ⊆ keys d.
Proof.
  induction d as [|[k' v'] d IH]; simpl; [done|].
  case_bool_decide; unfold keys in *; simpl; set_solver.
Qed.

Lemma keys_remove_NoDup k d :
  NoDup (keys d) → NoDup (keys (remove k d)) ∧ k ∉ keys (remove k d).
Proof.
  induction d as [|[k' v'] d IH]; simpl; [intros; split; [constructor|set_solver]|].
  unfold keys in *. simpl. rewrite NoDup_cons. intros [Hk' Hd].
  case_bool_decide; subst; [done|].
  destruct (IH Hd) as [IH1 IH2]. simpl. split.
  - constructor; [|done]. intros Hin. apply Hk'. by apply (keys_remove_subseteq k d).
  - set_solver.
Qed.

Lemma keys_set_NoDup k v d : NoDup (keys d) → NoDup (keys (set k v d)).
Proof.
  induction d as [|[k' v'] d IH]; simpl.
  - intros _. unfold keys. simpl. apply NoDup_singleton.
  - unfold keys in *. simpl. rewrite NoDup_cons. intros [Hk' Hd].
    case_bool_decide; subst; simpl.
    + by constructor.
    + constructor; [|by apply IH]. intros Hin.
      apply (keys_set_subseteq k v d) in Hin. set_solver.
Qed.

Lemma get_None_not_in k d : get k d = None → k ∉ keys d.
Proof.
  induction d as [|[k' v'] d IH]; simpl; [set_solver|].
  case_bool_decide; [done|]. intros H1. unfold keys in *. simpl. set_solver.
Qed.

Lemma _check_case_key_lower d k : k = lower k → _check_case_key d k = d.
Proof.
  intros Hk. unfold _check_case_key. rewrite _check_case_str_lower.
  by case_bool_decide.
Qed.

(** After the loop of [_check_case_dict] every key is in lower case. *)
Lemma _check_case_keys_lower ks d :
  NoDup (keys d) →
  (∀ k, k ∈ keys d → k ≠ lower k → k ∈ ks) →
  Forall (λ k, k = lower k) (keys (foldl _check_case_key d ks)).
Proof.
  revert d. induction ks as [|k ks IH]; intros d Hnd Hin; simpl.
  - apply Forall_forall. intros k Hk. destruct (decide (k = lower k)) as [|Hne]; [done|].
    exfalso. specialize (Hin k Hk Hne). set_solver.
  - apply IH.
    + unfold _check_case_key. case_bool_decide; [|done].
      destruct (get k d); [|done].
      apply keys_set_NoDup. by apply keys_remove_NoDup.
    + intros k' Hk' Hne. unfold _check_case_key in Hk'.
      rewrite _check_case_str_lower in Hk'.
      case_bool_decide as Hk.
      * destruct (get k d) as [v|] eqn:Hg.
        -- apply keys_set_subseteq in Hk'.
           apply elem_of_cons in Hk' as [->|Hk'].
           { exfalso. apply Hne. by rewrite lower_idemp. }
           assert (k' ≠ k).
           { intros ->. by apply (keys_remove_NoDup k d Hnd). }
           apply keys_remove_subseteq in Hk'. specialize (Hin k' Hk' Hne). set_solver.
        -- apply get_None_not_in in Hg. specialize (Hin k' Hk' Hne). set_solver.
      * specialize (Hin k' Hk' Hne). set_solver.
Qed.

Lemma _check_case_keys_id ks d :
  Forall (λ k, k = lower k) ks → foldl _check_case_key d ks = d.
Proof.
  revert d. induction ks as [|k ks IH]; intros d Hks; simpl; [done|].
  inversion Hks; subst. rewrite _check_case_key_lower by done. by apply IH.
Qed.

Lemma _check_case_dict_idemp d :
  NoDup (keys d) → _check_case_dict (_check_case_dict d) = _check_case_dict d.
Proof.
  intros Hnd. unfold _check_case_dict at 1.
  apply _check_case_keys_id. unfold _check_case_dict.
  by apply _check_case_keys_lower.
Qed.

End DictFacts.

(** ** Table names *)

Lemma _check_tname_lower tname noload :
  _check_tname (lower tname) noload = _check_tname tname noload.
Proof. unfold _check_tname. by rewrite lower_idemp. Qed.

(** A table that exists is found under the lowered name, and nothing is
    loaded. *)
Lemma _check_tname_found self tname noload df :
  _db self !! lower tname = Some df →
  _check_tname tname noload self = (self, Ok (lower tname)).
Proof. intros Hdf. unfold _check_tname, bind, gets, ret. simpl. by rewrite Hdf. Qed.

(** ** C9: case of identifiers *)

(** C9, as stated, fails: a column identifier is not folded to lower case.
    After [insert("T", {"Name": "John"})] on an empty database the table is
    stored as ["t"], but its schema lists the column as ["Name"]; a search on
    column ["Name"] finds the record, a search on column ["name"] finds
    nothing. *)
Lemma column_names_keep_their_case :
  let self := (insert "u1" "T" [("Name", PStr "John")] [] AsNone Examples.memory_db).1 in
  _schemas self !! "t" = Some ["__id__"; "Name"]
  ∧ lower "Name" ≠ "Name"
  ∧ (find Examples.prefix_match "T" [("Name", CVal (PStr "John"))] [] [] AsNone self).2
    = Ok (OutFrame (mkDF ["__id__"; "Name"]
                      [(0, {[ "__id__" := "u1"; "Name" := "John" ]})]))
  ∧ (find Examples.prefix_match "T" [("name", CVal (PStr "John"))] [] [] AsNone self).2
    = Ok (OutFrame (mkDF ["__id__"; "Name"] [])).
Proof. vm_compute. by repeat split. Qed.

(** ** C5: the deferred save *)

(** One call of [_save_defer()] within the wait interval: a save is started
    exactly when the counter of the earlier calls exceeds [save_queue_max];
    otherwise the counter is incremented. *)
Lemma _save_defer_within_wait self :
  no_wait_elapsed self →
  0 < save_queue_max (opts self) →
  let self' := (_save_defer 0 self).1 in
  opts self' = opts self ∧ clock self' = clock self ∧ no_wait_elapsed self'
  ∧ (_save_defer 0 self).2 = Ok tt
  ∧ if save_queue_max (opts self) <? _save_queue_len self
    then SaveNowThread ∈ threads self'
         ∧ _save_queue_len self' = _save_queue_len self
    else (SaveNowThread ∈ threads self' ↔ SaveNowThread ∈ threads self)
         ∧ _save_queue_len self' = _save_queue_len self + 1.
Proof.
  intros Hwait Hmax.
  destruct self as [nm o db sch rg last qlen flag fs ths clk].
  unfold _save_defer, no_wait_elapsed in *. simpl in *.
  assert ((0 <? save_queue_max o) = true) as Hm by lia.
  assert (∀ t : thread, SaveNowThread ∈ [t] → t = SaveNowThread) as Hone.
  { intros t Ht. by apply list_elem_of_singleton in Ht. }
  destruct (last =? 0) eqn:Hlast; simpl;
    (destruct (0 <? save_wait o) eqn:Hw; simpl;
     [ lazymatch goal with
       | |- context [save_wait o <? ?x] =>
           destruct (save_wait o <? x) eqn:Hc; [lia|]
       end | ]);
    simpl; rewrite Hm; simpl; destruct (save_queue_max o <? qlen) eqn:Hq; simpl;
    (split; [done|]); (split; [done|]); (split; [lia|]); (split; [done|]);
    (split; [|lia || done]);
    rewrite ?elem_of_app; try tauto; try (by right; apply list_elem_of_singleton).
  all: split; [intros [?|Hin]; [done|by apply Hone in Hin] | tauto].
Qed.

Lemma save_deferred self :
  deferred_save (opts self) = true → save self = _save_defer 0 self.
Proof. intros Hd. unfold save, bind, gets. by rewrite Hd. Qed.

(** A closed, decidable proposition is settled by evaluation. *)
Ltac by_evaluation :=
  lazymatch goal with
  | |- ?P => apply (bool_decide_unpack P); vm_compute; exact I
  end.

(** C5.  Under the deferred policy, with no wait time elapsed and starting
    from an empty queue, [k] calls of [save()] leave the counter at [k] and
    start no save as long as [k <= save_queue_max + 1]: the call that follows
    [save_queue_max] earlier ones finds the counter equal to the bound, not
    above it.  The save is started by the call after that one. *)
Theorem queue_bound_flush_is_one_call_late (self : PandasDatabase) :
  deferred_save (opts self) = true →
  0 < save_queue_max (opts self) →
  no_wait_elapsed self →
  _save_queue_len self = 0 →
  SaveNowThread ∉ threads self →
  let after (k : nat) := Nat.iter k (λ s, (save s).1) self in
  (∀ k : nat, Z.of_nat k <= save_queue_max (opts self) + 1 →
     (SaveNowThread ∉ threads (after k)) ∧ _save_queue_len (after k) = Z.of_nat k)
  ∧ SaveNowThread ∈ threads (after (Z.to_nat (save_queue_max (opts self)) + 2)%nat).
Proof.
  intros Hdef Hmax Hwait Hlen Hths after.
  assert (∀ k : nat, Z.of_nat k <= save_queue_max (opts self) + 1 →
            opts (after k) = opts self ∧ no_wait_elapsed (after k)
            ∧ (SaveNowThread ∉ threads (after k))
            ∧ _save_queue_len (after k) = Z.of_nat k) as Hinv.
  { induction k as [|k IH]; intros Hk; [done|].
    destruct IH as (Hopts & Hw & Hno & Hq); [lia|].
    unfold after in *. simpl.
    rewrite save_deferred by congruence.
    destruct (_save_defer_within_wait _ Hw) as (Ho & _ & Hw' & _ & Hstep);
      [by rewrite Hopts|].
    rewrite Hopts, Hq in Hstep.
    destruct (save_queue_max (opts self) <? Z.of_nat k) eqn:Hlt; [lia|].
    destruct Hstep as [Hths' Hq'].
    repeat split; [congruence | done | tauto | lia]. }
  split.
  - intros k Hk. destruct (Hinv k Hk) as (_ & _ & ? & ?). done.
  - replace (Z.to_nat (save_queue_max (opts self)) + 2)%nat
      with (S (Z.to_nat (save_queue_max (opts self)) + 1)) by lia.
    destruct (Hinv (Z.to_nat (save_queue_max (opts self)) + 1)%nat)
      as (Hopts & Hw & _ & Hq); [lia|].
    unfold after in *. simpl.
    rewrite save_deferred by congruence.
    destruct (_save_defer_within_wait _ Hw) as (_ & _ & _ & _ & Hstep);
      [by rewrite Hopts|].
    rewrite Hopts, Hq in Hstep.
    destruct (save_queue_max (opts self)
              <? Z.of_nat (Z.to_nat (save_queue_max (opts self)) + 1)) eqn:Hlt;
      [|apply Z.ltb_ge in Hlt; lia].
    by destruct Hstep.
Qed.

(** With the default bound of 10: eleven calls of [save()] in a row start no
    save and leave the counter at 11; the twelfth call starts it. *)
Lemma queue_bound_flush_is_one_call_late_witness :
  (SaveNowThread ∉ threads (Nat.iter 11 (λ s, (save s).1) Examples.deferred_db))
  ∧ _save_queue_len (Nat.iter 11 (λ s, (save s).1) Examples.deferred_db) = 11
  ∧ SaveNowThread ∈ threads (Nat.iter 12 (λ s, (save s).1) Examples.deferred_db).
Proof.
  destruct (queue_bound_flush_is_one_call_late Examples.deferred_db) as [Hno Hyes].
  - reflexivity.
  - reflexivity.
  - right. left. reflexivity.
  - reflexivity.
  - by_evaluation.
  - split; [|split].
    + apply (Hno 11%nat). vm_compute. discriminate.
    + apply (Hno 11%nat). vm_compute. discriminate.
    + exact Hyes.
Defined.

(** ** Running methods *)

Lemma bind_ok {A B} (m : M A) (k : A → M B) self self' a :
  m self = (self', Ok a) → bind m k self = k a self'.
Proof. intros H. unfold bind. by rewrite H. Qed.

Lemma bind_raise {A B} (m : M A) (k : A → M B) self self' e :
  m self = (self', Raise e) → bind m k self = (self', Raise e).
Proof. intros H. unfold bind. by rewrite H. Qed.

Lemma bind_assoc {A B C} (m : M A) (f : A → M B) (g : B → M C) self :
  bind (bind m f) g self = bind m (λ a, bind (f a) g) self.
Proof. unfold bind. by destruct (m self) as [self' [a|e]]. Qed.

Lemma bind_ret {A B} (a : A) (k : A → M B) self : bind (ret a) k self = k a self.
Proof. done. Qed.
Lemma bind_gets {A B} (f : PandasDatabase → A) (k : A → M B) self :
  bind (gets f) k self = k (f self) self.
Proof. done. Qed.
Lemma bind_modify {B} f (k : unit → M B) self : bind (modify f) k self = k tt (f self).
Proof. done. Qed.
Lemma bind_lift_ok {A B} (a : A) (k : A → M B) self : bind (lift (Ok a)) k self = k a self.
Proof. done. Qed.
Lemma bind_lift_raise {A B} e (k : A → M B) self :
  bind (lift (Raise e)) k self = (self, Raise e).
Proof. done. Qed.
Lemma bind_raise_now {A B} e (k : A → M B) self : bind (raise e) k self = (self, Raise e).
Proof. done. Qed.

Create Rewrite HintDb run.
#[export] Hint Rewrite @bind_assoc @bind_ret @bind_gets @bind_modify @bind_lift_ok
  @bind_lift_raise @bind_raise_now : run.

(** One step of a method whose outcome is known. *)
Ltac run_with H :=
  first [ rewrite (bind_ok _ _ _ _ _ H) | rewrite (bind_raise _ _ _ _ _ H) ].

(** [_output] reads [self.astype] and changes nothing. *)
Lemma _output_state records single astype self :
  (_output records single astype self).1 = self.
Proof.
  unfold _output, bind, self_astype, gets, ret, raise.
  destruct astype; simpl; repeat case_match; simplify_eq; done.
Qed.

Lemma _output_series_as_series row self :
  _output (OutSeries row) true (AsStr "series") self = (self, Ok (OutSeries row)).
Proof. reflexivity. Qed.

Lemma _output_frame_as_dataframe df self :
  _output (OutFrame df) false (AsStr "dataframe") self = (self, Ok (OutFrame df)).
Proof. reflexivity. Qed.

Lemma _output_frame_as_DataFrame df self :
  _output (OutFrame df) false (AsType "DataFrame") self = (self, Ok (OutFrame df)).
Proof. reflexivity. Qed.

(** With no [astype] given and none configured, a series is returned as it is,
    whether one record or several are expected. *)
Lemma _output_series_native row single self :
  astype (opts self) = AsNone →
  _output (OutSeries row) single AsNone self = (self, Ok (OutSeries row)).
Proof.
  intros Ha. unfold _output, bind, self_astype, gets, ret. simpl. rewrite Ha.
  by destruct single.
Qed.

Lemma _output_series_dict row single self :
  _output (OutSeries row) single (AsStr "dict") self
  = (self, Ok (if single then OutDict row else OutDictList [row])).
Proof. by destruct single. Qed.

Lemma _output_series_json row single self :
  _output (OutSeries row) single (AsStr "json") self
  = (self, Ok (if single then OutJson row else OutJsonWrapped row)).
Proof. by destruct single. Qed.

Lemma tostr_idemp cast v : tostr cast (tostr cast v) = tostr cast v.
Proof. by destruct cast, v. Qed.

Lemma _check_dict_type_record_idemp record cast record' :
  _check_dict_type type_of tostr [TStr] record cast = Ok record' →
  _check_dict_type type_of tostr [TStr] record' cast = Ok record'.
Proof.
  unfold _check_dict_type. intros H.
  destruct (negb cast && _) eqn:Hc in H; [done|]. simplify_eq.
  assert ((λ kv : string * pyval, (kv.1, tostr cast kv.2))
            <$> ((λ kv : string * pyval, (kv.1, tostr cast kv.2)) <$> record)
          = (λ kv : string * pyval, (kv.1, tostr cast kv.2)) <$> record) as ->.
  { rewrite <- list_fmap_compose. apply list_fmap_ext.
    intros _ [k v] _. simpl. by rewrite tostr_idemp. }
  by rewrite Hc.
Qed.

(** A record of [str] values passes the check unchanged. *)
Lemma _check_dict_type_str_record record cast :
  str_record record →
  _check_dict_type type_of tostr [TStr] record cast = Ok record.
Proof.
  intros Hrec. unfold _check_dict_type.
  assert ((λ kv : string * pyval, (kv.1, tostr cast kv.2)) <$> record = record) as ->.
  { induction Hrec as [|[k v] record Hv _ IH]; [done|].
    rewrite fmap_cons, IH. simpl in *. by destruct v. }
  assert (forallb (λ kv : string * pyval, bool_decide (type_of kv.2 ∈ [TStr])) record = true)
    as ->.
  { induction Hrec as [|[k v] record Hv _ IH]; simpl; [done|].
    rewrite IH. by destruct v. }
  by destruct cast.
Qed.

(** After a successful [_check_tname] the table exists under the lowered
    name, so a second check changes nothing. *)
Lemma _check_tname_ok self tname noload self' t :
  _check_tname tname noload self = (self', Ok t) →
  t = lower tname ∧ is_Some (_db self' !! t).
Proof.
  unfold _check_tname, bind, gets, ret, raise. simpl.
  destruct (_db self !! lower tname) as [df|] eqn:Hdf.
  { intros [= <- <-]. by rewrite Hdf. }
  destruct (auto_load (opts self) && negb noload) eqn:Hload; [|done].
  apply andb_prop in Hload as [Hauto _].
  unfold load, bind, gets, ret, raise, lift, modify. simpl.
  destruct (dynamic_schema (opts self)) eqn:Hdyn; [|done]. simpl.
  rewrite lower_idemp, _check_case_str_lower, lower_idemp.
  unfold bind, ret. simpl. rewrite Hauto, Hdyn.
  destruct (files self !! lower tname) as [file|] eqn:Hfile.
  - destruct (_check_columns (columns (read_csv file)) false); [|done]. simpl.
    intros [= <- <-]. split; [done|]. simpl. by rewrite lookup_insert_eq.
  - intros [= <- <-]. split; [done|]. simpl. by rewrite lookup_insert_eq.
Qed.

Lemma _check_tname_again self tname noload self' t noload' :
  _check_tname tname noload self = (self', Ok t) →
  _check_tname t noload' self' = (self', Ok t).
Proof.
  intros H. apply _check_tname_ok in H as [-> [df Hdf]].
  rewrite <- (lower_idemp tname) at 2.
  eapply _check_tname_found. by rewrite lower_idemp.
Qed.

Lemma keeps_opts_ret {A} (a : A) : keeps_opts (ret a).
Proof. done. Qed.
Lemma keeps_opts_raise {A} e : keeps_opts (@raise A e).
Proof. done. Qed.
Lemma keeps_opts_lift {A} (r : result A) : keeps_opts (lift r).
Proof. done. Qed.
Lemma keeps_opts_gets {A} (f : PandasDatabase → A) : keeps_opts (gets f).
Proof. done. Qed.
Lemma keeps_opts_modify f : (∀ self, opts (f self) = opts self) → keeps_opts (modify f).
Proof. intros Hf self. apply Hf. Qed.
Lemma keeps_opts_bind {A B} (m : M A) (k : A → M B) :
  keeps_opts m → (∀ a, keeps_opts (k a)) → keeps_opts (bind m k).
Proof.
  intros Hm Hk self. unfold bind. specialize (Hm self).
  destruct (m self) as [self' [a|e]]; simpl in *; [|done].
  by rewrite Hk.
Qed.
Lemma keeps_opts_for_each {A} (xs : list A) body :
  (∀ x, keeps_opts (body x)) → keeps_opts (for_each xs body).
Proof.
  intros Hbody. induction xs as [|x xs IH]; simpl; [done|].
  apply keeps_opts_bind; auto.
Qed.

Lemma keeps_opts_db_getitem tname : keeps_opts (db_getitem tname).
Proof. intros self. unfold db_getitem. by destruct (_db self !! tname). Qed.
Lemma keeps_opts_schemas_getitem tname : keeps_opts (schemas_getitem tname).
Proof. intros self. unfold schemas_getitem. by destruct (_schemas self !! tname). Qed.

Lemma keeps_opts_output records single astype : keeps_opts (_output records single astype).
Proof. intros self. by rewrite _output_state. Qed.

Lemma keeps_opts_save_now : keeps_opts _save_now.
Proof. intros self. unfold _save_now. destruct self. simpl. by case_match. Qed.

Lemma keeps_opts_save_defer w : keeps_opts (_save_defer w).
Proof.
  intros self. unfold _save_defer. destruct self. simpl.
  repeat (case_match; simpl; try done).
Qed.

Create HintDb keeps_opts.
#[export] Hint Resolve keeps_opts_ret keeps_opts_raise keeps_opts_lift keeps_opts_gets
  keeps_opts_bind keeps_opts_for_each : keeps_opts.

Ltac keeps_opts :=
  repeat first
    [ done
    | apply keeps_opts_output | apply keeps_opts_save_now | apply keeps_opts_save_defer
    | apply keeps_opts_bind; [|intros ?]
    | apply keeps_opts_for_each; intros ?
    | apply keeps_opts_modify; intros []; done
    | apply keeps_opts_ret | apply keeps_opts_raise | apply keeps_opts_lift
    | apply keeps_opts_gets
    | apply keeps_opts_db_getitem | apply keeps_opts_schemas_getitem
    | case_match ].

Lemma keeps_opts_save_if_auto : keeps_opts save_if_auto.
Proof.
  unfold save_if_auto, save. keeps_opts.
Qed.

Lemma keeps_opts_load names schemas rowgens : keeps_opts (load names schemas rowgens).
Proof. unfold load. keeps_opts. Qed.

Lemma keeps_opts_check_tname tname noload : keeps_opts (_check_tname tname noload).
Proof. unfold _check_tname. keeps_opts. Qed.

Lemma keeps_opts_update_schema tname cols : keeps_opts (_update_schema tname cols).
Proof.
  unfold _update_schema. keeps_opts.
Qed.

Lemma keeps_opts_insert_row uuid4 tname record columns :
  keeps_opts (insert_row uuid4 tname record columns).
Proof.
  unfold insert_row. keeps_opts; auto using keeps_opts_update_schema.
Qed.

(** [insert] is its checks, [insert_row], and the cast of the row. *)
Lemma insert_as_series uuid4 tname record columns astype self :
  insert uuid4 tname record columns astype self
  = match insert uuid4 tname record columns (AsStr "series") self with
    | (self', Ok (OutSeries row)) => _output (OutSeries row) true astype self'
    | (self', Ok other) => (self', Ok other)
    | (self', Raise e) => (self', Raise e)
    end.
Proof.
  unfold insert, bind, gets, lift.
  destruct (_check_tname tname false self) as [s1 [t1|e]]; [|done].
  destruct (_check_dict_type _ _ _ record _) as [record'|e]; [|done].
  destruct (insert_row uuid4 t1 record' columns s1) as [s2 [row|e]]; [|done].
  by rewrite _output_series_as_series.
Qed.

(** ** C2: [upsert] without conditions *)

Section C2.
Variable str_match : string → option string → bool.

(** Without conditions [upsert] is: [insert] with [astype='series'], then the
    cast of the returned row as a result of several records. *)
Lemma upsert_without_conditions_unfold uuid4 tname record columns astype self :
  upsert str_match uuid4 tname record [] [] columns astype self
  = (do! new_record := insert uuid4 tname record columns (AsStr "series") in
     _output new_record false astype) self.
Proof.
  unfold upsert, insert. autorewrite with run.
  destruct (_check_tname tname false self) as [s1 [t1|e]] eqn:Ht; run_with Ht;
    [|by run_with Ht].
  run_with Ht. change (_check_conditions []) with (Ok ([] : dict (list pyval))).
  autorewrite with run.
  destruct (_check_dict_type _ _ _ record _) as [record'|e] eqn:Hrec;
    autorewrite with run; [|done].
  change ((0 <? length ([] : dict (list pyval)))%nat || (0 <? length ([] : dict (list pyval)))%nat)
    with false. cbv iota.
  autorewrite with run.
  run_with (_check_tname_again _ _ _ _ _ false Ht).
  autorewrite with run.
  rewrite (_check_dict_type_record_idemp _ _ _ Hrec). autorewrite with run.
  reflexivity.
Qed.

Lemma keeps_opts_insert uuid4 tname record columns astype :
  keeps_opts (insert uuid4 tname record columns astype).
Proof.
  unfold insert. keeps_opts; auto using keeps_opts_insert_row.
Qed.

Lemma insert_returns_series uuid4 tname record columns self self' out :
  insert uuid4 tname record columns (AsStr "series") self = (self', Ok out) →
  ∃ row, out = OutSeries row.
Proof.
  unfold insert, bind, gets, lift.
  destruct (_check_tname tname false self) as [s1 [t1|e]]; [|done].
  destruct (_check_dict_type _ _ _ record _) as [record'|e]; [|done].
  destruct (insert_row uuid4 t1 record' columns s1) as [s2 [row|e]]; [|done].
  rewrite _output_series_as_series. intros [= <- <-]. by exists row.
Qed.

(** C2, amended.  [upsert(T, record=R)] without conditions leaves the database
    exactly as [insert(T, record=R)] leaves it, whatever [astype] is; with no
    output type given or configured it returns what [insert] returns; with
    the output types [dict] and [json] it returns the record of [insert]
    wrapped in a list of one element. *)
Theorem upsert_without_conditions_is_insert uuid4 tname record columns self :
  (∀ astype astype',
     (upsert str_match uuid4 tname record [] [] columns astype self).1
     = (insert uuid4 tname record columns astype' self).1)
  ∧ (astype (opts self) = AsNone →
     upsert str_match uuid4 tname record [] [] columns AsNone self
     = insert uuid4 tname record columns AsNone self)
  ∧ (∀ self' d,
     insert uuid4 tname record columns (AsStr "dict") self = (self', Ok (OutDict d)) →
     upsert str_match uuid4 tname record [] [] columns (AsStr "dict") self
     = (self', Ok (OutDictList [d])))
  ∧ (∀ self' d,
     insert uuid4 tname record columns (AsStr "json") self = (self', Ok (OutJson d)) →
     upsert str_match uuid4 tname record [] [] columns (AsStr "json") self
     = (self', Ok (OutJsonWrapped d))).
Proof.
  repeat split.
  - intros astype astype'.
    rewrite upsert_without_conditions_unfold, (insert_as_series _ _ _ _ astype').
    unfold bind.
    destruct (insert uuid4 tname record columns (AsStr "series") self)
      as [s' [out|e]] eqn:Hins; [|done].
    destruct (insert_returns_series _ _ _ _ _ _ _ Hins) as [row ->].
    by rewrite !_output_state.
  - intros Hnone.
    rewrite upsert_without_conditions_unfold, (insert_as_series _ _ _ _ AsNone).
    unfold bind.
    destruct (insert uuid4 tname record columns (AsStr "series") self)
      as [s' [out|e]] eqn:Hins; [|done].
    destruct (insert_returns_series _ _ _ _ _ _ _ Hins) as [row ->].
    assert (astype (opts s') = AsNone) as Hnone'.
    { rewrite <- Hnone. change s' with (s', Ok (OutSeries row)).1.
      rewrite <- Hins. f_equal. apply keeps_opts_insert. }
    by rewrite !_output_series_native.
  - intros self' d.
    rewrite upsert_without_conditions_unfold, (insert_as_series _ _ _ _ (AsStr "dict")).
    unfold bind.
    destruct (insert uuid4 tname record columns (AsStr "series") self)
      as [s' [out|e]] eqn:Hins; [|done].
    destruct (insert_returns_series _ _ _ _ _ _ _ Hins) as [row ->].
    rewrite !_output_series_dict. by intros [= <- <-].
  - intros self' d.
    rewrite upsert_without_conditions_unfold, (insert_as_series _ _ _ _ (AsStr "json")).
    unfold bind.
    destruct (insert uuid4 tname record columns (AsStr "series") self)
      as [s' [out|e]] eqn:Hins; [|done].
    destruct (insert_returns_series _ _ _ _ _ _ _ Hins) as [row ->].
    rewrite !_output_series_json. by intros [= <- <-].
Qed.

End C2.

(** C2, as stated, fails: in a database created with [astype='dict'] (as the
    test suite does), [insert] returns the stored record as a dictionary and
    [upsert] without conditions returns a list holding that dictionary. *)
Lemma upsert_wraps_what_insert_returns :
  (insert "u1" "t" [("Name", PStr "John")] [] AsNone Examples.dict_db).2
  = Ok (OutDict [("Name", Some "John"); ("__id__", Some "u1")])
  ∧ (upsert Examples.prefix_match "u1" "t" [("Name", PStr "John")] [] [] [] AsNone
       Examples.dict_db).2
    = Ok (OutDictList [[("Name", Some "John"); ("__id__", Some "u1")]])
  ∧ upsert Examples.prefix_match "u1" "t" [("Name", PStr "John")] [] [] [] AsNone
      Examples.dict_db
    ≠ insert "u1" "t" [("Name", PStr "John")] [] AsNone Examples.dict_db.
Proof.
  split; [by vm_compute|]. split; [by vm_compute|].
  intros Heq. apply (f_equal snd) in Heq. vm_compute in Heq. discriminate.
Qed.

(** In the database of the test suite the two calls leave the same state. *)
Lemma upsert_without_conditions_is_insert_witness :
  (upsert Examples.prefix_match "u1" "t" [("Name", PStr "John")] [] [] [] AsNone
     Examples.memory_db)
  = insert "u1" "t" [("Name", PStr "John")] [] AsNone Examples.memory_db.
Proof.
  pose proof (upsert_without_conditions_is_insert Examples.prefix_match
                "u1" "t" [("Name", PStr "John")] [] Examples.memory_db)
    as (_ & Hnative & _).
  apply Hnative. reflexivity.
Defined.

(** ** Boolean series and the rows they select *)

Lemma filter_none {A} (P : A → Prop) `{∀ x, Decision (P x)} (l : list A) :
  (∀ x, x ∈ l → ¬ P x) → filter P l = [].
Proof.
  induction l as [|x l IH]; intros Hl; [done|].
  rewrite filter_cons_False by (apply Hl; left).
  apply IH. intros y Hy. apply Hl. by right.
Qed.

Lemma forallb_elem_of {A} (f : A → bool) (l : list A) :
  (∀ x, x ∈ l → f x = true) → forallb f l = true.
Proof.
  intros Hl. apply forallb_forall. intros x Hx. apply Hl. by apply list_elem_of_In.
Qed.

Lemma mask_get_series_const b n l :
  l ∈ range_index n → mask_get l (series_const b n) = Some b.
Proof.
  unfold series_const. induction (range_index n) as [|l' ls IH]; simpl.
  - intros H. by apply elem_of_nil in H.
  - intros H. case_bool_decide; [done|].
    apply elem_of_cons in H as [->|H]; [done|]. by apply IH.
Qed.

Lemma row_label_in_index df lr : lr ∈ rows df → lr.1 ∈ index df.
Proof. intros H. unfold index. by apply list_elem_of_fmap_2. Qed.

(** The all-false mask of a frame with the default index selects no row. *)
Lemma df_getitem_mask_all_false df :
  default_index df →
  df_getitem_mask df (series_const false (length (rows df)))
  = Ok (mkDF (columns df) []).
Proof.
  intros Hidx. unfold df_getitem_mask.
  assert (∀ l, l ∈ index df →
            mask_get l (series_const false (length (rows df))) = Some false) as Hget.
  { intros l Hl. apply mask_get_series_const. by rewrite <- Hidx. }
  rewrite forallb_elem_of.
  - f_equal. f_equal. apply filter_none. intros lr Hlr.
    rewrite (Hget _ (row_label_in_index _ _ Hlr)). done.
  - intros l Hl. rewrite (Hget l Hl). by apply bool_decide_eq_true.
Qed.

(** A frame without rows stays without rows under any mask. *)
Lemma df_getitem_mask_no_rows cols m :
  df_getitem_mask (mkDF cols []) m = Ok (mkDF cols []).
Proof. done. Qed.

Lemma _check_type_iter_ok a vs :
  _check_type_iter a = Ok vs → forallb is_str vs = true.
Proof.
  unfold _check_type_iter.
  destruct (forallb is_str _) eqn:Hall; [|done]. by intros [= <-].
Qed.

Lemma rmap_ok_inv {A B} (f : A → result B) xs ys :
  rmap f xs = Ok ys → Forall2 (λ x y, f x = Ok y) xs ys.
Proof.
  revert ys. induction xs as [|x xs IH]; simpl; intros ys.
  - intros [= <-]. constructor.
  - destruct (f x) as [y|e] eqn:Hy; simpl; [|done].
    destruct (rmap f xs) as [ys'|e] eqn:Hys; simpl; [|done].
    intros [= <-]. constructor; [done|]. by apply IH.
Qed.

Lemma _check_dict_type_conditions_ok (conditions conditions' : dict cond_arg) :
  _check_dict_type arg_type (λ _ a, a) [TStr; TList; TRegex] conditions false
  = Ok conditions' →
  conditions' = conditions.
Proof.
  unfold _check_dict_type. case_match; [done|]. intros [= <-].
  clear. induction conditions as [|[k a] conditions IH]; [done|].
  rewrite fmap_cons. by rewrite IH.
Qed.

Lemma _check_conditions_checked conditions checked :
  _check_conditions conditions = Ok checked →
  keys checked = keys conditions ∧ Forall (λ kv, checked_values kv.2) checked.
Proof.
  unfold _check_conditions.
  destruct (_check_dict_type _ _ _ conditions _) as [conditions'|e] eqn:Hd; [|done].
  apply _check_dict_type_conditions_ok in Hd as ->. simpl.
  intros Hmap. apply rmap_ok_inv in Hmap.
  induction Hmap as [|[k a] [k' vs] conditions checked Hkv _ IH];
    [by split; [|constructor]|].
  destruct IH as [IHk IHv]. unfold keys in *. simpl in *.
  assert (k' = k ∧ checked_values vs) as [-> Hvs].
  { destruct a as [v|vs0]; cbv iota in Hkv.
    - destruct (negb (has_iter (CVal v)) && (isnull v || is_regex v)) eqn:Hb.
      + simplify_eq. split; [done|]. right. by eexists.
      + destruct (_check_type_iter (CVal v)) as [vs'|e] eqn:Hit; [|done].
        simpl in Hkv. simplify_eq. split; [done|]. left.
        by eapply _check_type_iter_ok.
    - destruct (_check_type_iter (CList vs0)) as [vs'|e] eqn:Hit; [|done].
      simpl in Hkv. simplify_eq. split; [done|]. left.
      by eapply _check_type_iter_ok. }
  split; [by f_equal|]. by constructor.
Qed.

Lemma str_values_not_special vs :
  forallb is_str vs = true → existsb is_regex vs = false ∧ existsb isnull vs = false.
Proof.
  induction vs as [|v vs IH]; simpl; [done|].
  intros [Hv Hvs]%andb_prop. destruct (IH Hvs) as [-> ->]. by destruct v.
Qed.

Section Conditions.
Variable str_match : string → option string → bool.

(** On checked values the loop of [_get_condition_mask] raises nothing, and
    one absent column makes the mask all false. *)
Lemma _get_condition_mask_loop_checked df mask condition :
  Forall (λ kv, checked_values kv.2) condition →
  ∃ mask',
    _get_condition_mask_loop str_match df mask condition = Ok mask'
    ∧ ((∃ k, k ∈ keys condition ∧ k ∉ columns df) →
       mask' = series_const false (length (rows df))).
Proof.
  intros Hcond. revert mask.
  induction Hcond as [|[k vs] condition Hvs _ IH]; intros mask.
  - exists mask. split; [done|]. intros (k & Hk & _). by apply elem_of_nil in Hk.
  - simpl. case_bool_decide as Hcol.
    { eexists. split; [done|]. done. }
    assert (∀ mask0,
              ∃ mask',
                _get_condition_mask_loop str_match df mask0 condition = Ok mask'
                ∧ ((∃ k0, k0 ∈ keys ((k, vs) :: condition) ∧ k0 ∉ columns df) →
                   mask' = series_const false (length (rows df)))) as Hrest.
    { intros mask0. destruct (IH mask0) as (mask' & Hloop & Hfalse).
      exists mask'. split; [done|]. intros (k0 & Hk0 & Hno). apply Hfalse.
      exists k0. split; [|done]. unfold keys in *. simpl in Hk0.
      apply elem_of_cons in Hk0 as [->|Hk0]; [|done].
      exfalso. apply Hno. by apply dec_stable. }
    simpl in Hvs. destruct Hvs as [Hstr|[v ->]]; simpl in *.
    + destruct vs as [|v1 [|v2 vs]]; [apply Hrest| |].
      * simpl in Hstr. destruct v1; try done; apply Hrest.
      * destruct (str_values_not_special _ Hstr) as [-> ->]. apply Hrest.
    + destruct v; apply Hrest.
Qed.

(** A search on a column that the frame, once projected, does not have
    selects nothing. *)
Lemma find_frame_absent_column self tname df projected columns
    where_ where_not condition condition_not :
  _db self !! tname = Some df →
  (if (0 <? length columns)%nat && (0 <? df_len df)
   then df_getitem_cols df columns else Ok df) = Ok projected →
  default_index projected →
  _check_conditions where_ = Ok condition →
  _check_conditions where_not = Ok condition_not →
  (∃ k, k ∈ keys where_ ∧ k ∉ Pandas.columns projected) →
  find_frame str_match tname where_ where_not columns self
  = (self, Ok (mkDF (Pandas.columns projected) [])).
Proof.
  intros Hdf Hproj Hidx Hw Hwn Habsent.
  destruct (_check_conditions_checked _ _ Hw) as [Hkeys Hchecked].
  destruct (_check_conditions_checked _ _ Hwn) as [_ Hchecked_not].
  unfold find_frame. rewrite Hw, Hwn. autorewrite with run.
  unfold db_getitem at 1. unfold bind at 1. rewrite Hdf.
  assert (∀ k : DataFrame → M DataFrame,
            bind (if (0 <? length columns)%nat && (0 <? df_len df)
                  then lift (df_getitem_cols df columns) else ret df) k self
            = k projected self) as ->.
  { intros k. destruct ((0 <? length columns)%nat && (0 <? df_len df));
      [by rewrite Hproj|by simplify_eq]. }
  assert ((0 <? length condition)%nat = true) as ->.
  { destruct Habsent as (k & Hk & _). rewrite <- Hkeys in Hk.
    destruct condition; [by apply elem_of_nil in Hk|done]. }
  unfold _get_condition_mask.
  destruct (_get_condition_mask_loop_checked projected
              (series_const true (length (rows projected))) condition Hchecked)
    as (mask' & -> & Hfalse).
  rewrite Hfalse by (by rewrite Hkeys). simpl.
  rewrite df_getitem_mask_all_false by done. autorewrite with run.
  destruct (0 <? length condition_not)%nat; [|done].
  destruct (_get_condition_mask_loop_checked (mkDF (Pandas.columns projected) [])
              (series_const true (length (rows (mkDF (Pandas.columns projected) []))))
              condition_not Hchecked_not) as (mask'' & -> & _).
  done.
Qed.

(** [find] on a table that exists is [find_frame] and the cast of its
    result. *)
Lemma find_on_table self tname df where_ where_not columns astype :
  _db self !! lower tname = Some df →
  find str_match tname where_ where_not columns astype self
  = (do! dataframe := find_frame str_match (lower tname) where_ where_not columns in
     _output (OutFrame dataframe) false astype) self.
Proof. intros Hdf. unfold find. by rewrite (_check_tname_found _ _ _ _ Hdf). Qed.

(** ** C7: a condition on a column the table does not have *)

Lemma mask_get_series_const_None b n l :
  l ∉ range_index n → mask_get l (series_const b n) = None.
Proof.
  unfold series_const. induction (range_index n) as [|l' ls IH]; intros Hl; [done|].
  apply not_elem_of_cons in Hl as [Hne Hl]. cbn [fmap list_fmap mask_get].
  rewrite bool_decide_eq_false_2 by done. by apply IH.
Qed.

(** A mask built for [n] rows does not index a frame that has a label
    outside [0 .. n - 1]. *)
Lemma df_getitem_mask_misaligned df b n :
  (∃ l, l ∈ index df ∧ l ∉ range_index n) →
  df_getitem_mask df (series_const b n) = Raise IndexingError.
Proof.
  intros (l & Hin & Hout). unfold df_getitem_mask.
  assert (forallb (λ l, bool_decide (is_Some (mask_get l (series_const b n)))) (index df)
          = false) as ->; [|done].
  apply not_true_is_false. intros Hall.
  rewrite forallb_forall in Hall. apply list_elem_of_In, Hall in Hin.
  apply bool_decide_eq_true_1 in Hin. rewrite mask_get_series_const_None in Hin by done.
  by destruct Hin.
Qed.

(** C7.  For every table and conditions that pass the checks of [find], with
    a positive condition that names a column the table does not have:
    [find] returns the cast of a frame without rows when the row labels of
    the table are [0 .. len - 1]; when some row has another label, as after
    a [delete] of a row that is not the last one, the mask of [False] built
    for the absent column does not carry that label and [find] raises
    [IndexingError] instead of returning an empty result. *)
Theorem find_on_absent_column self tname df
    where_ where_not condition condition_not out :
  _db self !! lower tname = Some df →
  _check_conditions where_ = Ok condition →
  _check_conditions where_not = Ok condition_not →
  (∃ k, k ∈ keys where_ ∧ k ∉ columns df) →
  (default_index df →
   ∃ found, rows found = []
     ∧ find str_match tname where_ where_not [] out self
       = _output (OutFrame found) false out self)
  ∧ ((∃ l, l ∈ index df ∧ l ∉ range_index (length (rows df))) →
     find str_match tname where_ where_not [] out self = (self, Raise IndexingError)).
Proof.
  intros Hdf Hw Hwn Habsent. split.
  - intros Hidx. exists (mkDF (columns df) []). split; [done|].
    rewrite (find_on_table _ _ _ _ _ _ _ Hdf).
    assert (find_frame str_match (lower tname) where_ where_not [] self
            = (self, Ok (mkDF (columns df) []))) as Hfind.
    { eapply find_frame_absent_column; eauto. }
    by run_with Hfind.
  - intros Hlabel.
    destruct (_check_conditions_checked _ _ Hw) as [Hkeys Hchecked].
    rewrite (find_on_table _ _ _ _ _ _ _ Hdf).
    assert (find_frame str_match (lower tname) where_ where_not [] self
            = (self, Raise IndexingError)) as Hfind.
    { unfold find_frame. rewrite Hw, Hwn. autorewrite with run.
      unfold db_getitem at 1. unfold bind at 1. rewrite Hdf.
      change ((0 <? length (@nil string))%nat && (0 <? df_len df)) with false.
      cbv iota. autorewrite with run.
      assert ((0 <? length condition)%nat = true) as ->.
      { destruct Habsent as (k & Hk & _). rewrite <- Hkeys in Hk.
        destruct condition; [by apply elem_of_nil in Hk|done]. }
      unfold _get_condition_mask.
      destruct (_get_condition_mask_loop_checked df
                  (series_const true (length (rows df))) condition Hchecked)
        as (mask' & -> & Hfalse).
      rewrite Hfalse by (by rewrite Hkeys). simpl.
      by rewrite df_getitem_mask_misaligned. }
    by run_with Hfind.
Qed.

(** ** C10: projection before matching *)

Lemma df_getitem_cols_ok df cols :
  Forall (λ c, c ∈ columns df) cols →
  df_getitem_cols df cols
  = Ok (mkDF cols ((λ lr, (lr.1, filter (λ kv : string * string, kv.1 ∈ cols) lr.2))
                     <$> rows df)).
Proof.
  intros Hcols. unfold df_getitem_cols.
  assert (List.find (λ c, bool_decide (c ∉ columns df)) cols = None) as ->; [|done].
  induction Hcols as [|c cols Hc _ IH]; simpl; [done|].
  rewrite bool_decide_eq_false_2 by (by intros Hn). done.
Qed.

(** C10, amended.  For a table with at least one row whose row labels are
    [0 .. len - 1], a projection list of at least one name, all of them
    columns of the table, and conditions that pass the checks of [find]: a
    positive condition on a column that is not in the projection list makes
    [find] return the cast of a frame without rows, whatever the rows of
    the table hold, because the frame is projected before the condition is
    matched; without negative conditions the columns of that frame are the
    projection list. *)
Theorem projection_hides_condition_column self tname df columns
    where_ where_not condition condition_not out :
  _db self !! lower tname = Some df →
  default_index df →
  rows df ≠ [] →
  columns ≠ [] →
  Forall (λ c, c ∈ Pandas.columns df) columns →
  _check_conditions where_ = Ok condition →
  _check_conditions where_not = Ok condition_not →
  (∃ c, c ∈ keys where_ ∧ c ∉ columns) →
  ∃ found,
    rows found = []
    ∧ (where_not = [] → Pandas.columns found = columns)
    ∧ find_frame str_match (lower tname) where_ where_not columns self = (self, Ok found)
    ∧ find str_match tname where_ where_not columns out self
      = _output (OutFrame found) false out self.
Proof.
  intros Hdf Hidx Hrows Hcols Hsub Hw Hwn Habsent.
  assert (find_frame str_match (lower tname) where_ where_not columns self
          = (self, Ok (mkDF columns []))) as Hfind.
  { eapply (find_frame_absent_column self (lower tname) df
              (mkDF columns ((λ lr, (lr.1, filter (λ kv : string * string, kv.1 ∈ columns) lr.2))
                               <$> rows df))); eauto.
    - assert ((0 <? length columns)%nat && (0 <? df_len df) = true) as ->.
      { unfold df_len. destruct columns, (rows df); done. }
      by apply df_getitem_cols_ok.
    - unfold default_index, index in *. simpl.
      rewrite length_fmap, <- Hidx, <- list_fmap_compose. done. }
  exists (mkDF columns []). split; [done|]. split; [done|]. split; [done|].
  rewrite (find_on_table _ _ _ _ _ _ _ Hdf). by run_with Hfind.
Qed.

End Conditions.

(** After the first of the two rows is deleted, the row that is left keeps
    its label 1; the search on the absent column [zz] then raises
    [IndexingError]. *)
Lemma find_on_absent_column_witness :
  let self := (delete Examples.prefix_match "T" [("a", CVal (PStr "x"))] [] [] AsNone
                 Examples.two_rows_db).1 in
  _db self !! "t"
  = Some (mkDF ["__id__"; "a"; "b"] [(1, {[ "__id__" := "id1"; "a" := "y"; "b" := "q" ]})])
  ∧ find Examples.prefix_match "T" [("zz", CVal (PStr "1"))] [] [] AsNone self
    = (self, Raise IndexingError).
Proof.
  intros self. split; [by_evaluation|].
  pose proof (find_on_absent_column Examples.prefix_match self "T"
                (mkDF ["__id__"; "a"; "b"]
                   [(1, {[ "__id__" := "id1"; "a" := "y"; "b" := "q" ]})])
                [("zz", CVal (PStr "1"))] [] [("zz", [PStr "1"])] [] AsNone) as Hfind.
  destruct Hfind as [_ Hraise]; [by_evaluation|reflexivity|reflexivity| |].
  - exists "zz". split; by_evaluation.
  - apply Hraise. exists 1. split; by_evaluation.
Defined.

(** C10, as stated, fails on two kinds of input that meet its conditions.
    In the table of two rows, the first row has [a = "x"]: with the
    projection list [["nope"]], which names no column of the table, [find]
    with that condition raises [KeyError] in the projection, before any
    condition is matched.  After the first row is deleted the row that is
    left keeps its label 1, and [find] with the projection list [["b"]] and
    a condition on [a] raises [IndexingError]. *)
Lemma projection_can_raise :
  let self := (delete Examples.prefix_match "T" [("a", CVal (PStr "x"))] [] [] AsNone
                 Examples.two_rows_db).1 in
  (_db Examples.two_rows_db !! "t" = Some Examples.two_rows
   ∧ rows Examples.two_rows ≠ []
   ∧ find Examples.prefix_match "T" [("a", CVal (PStr "x"))] [] ["nope"] AsNone
       Examples.two_rows_db
     = (Examples.two_rows_db, Raise (KeyError "nope")))
  ∧ (_db self !! "t"
     = Some (mkDF ["__id__"; "a"; "b"]
               [(1, {[ "__id__" := "id1"; "a" := "y"; "b" := "q" ]})])
     ∧ find Examples.prefix_match "T" [("a", CVal (PStr "y"))] [] ["b"] AsNone self
       = (self, Raise IndexingError)).
Proof.
  cbv zeta. split; [split; [reflexivity|split; [discriminate|by vm_compute]]|].
  split; [by_evaluation|by vm_compute].
Qed.

(** In the table of two rows, the first row has [a = "x"]: [find] with that
    condition returns it, and returns nothing once the result is projected
    to column [b]. *)
Lemma projection_hides_condition_column_witness :
  find Examples.prefix_match "T" [("a", CVal (PStr "x"))] [] ["b"] AsNone
    Examples.two_rows_db
  = (Examples.two_rows_db, Ok (OutFrame (mkDF ["b"] [])))
  ∧ find Examples.prefix_match "T" [("a", CVal (PStr "x"))] [] [] AsNone
      Examples.two_rows_db
    = (Examples.two_rows_db,
       Ok (OutFrame (mkDF ["__id__"; "a"; "b"]
                       [(0, {[ "__id__" := "id0"; "a" := "x"; "b" := "p" ]})]))).
Proof.
  split; [|by vm_compute].
  pose proof (projection_hides_condition_column Examples.prefix_match
                Examples.two_rows_db "T" Examples.two_rows ["b"]
                [("a", CVal (PStr "x"))] [] [("a", [PStr "x"])] [] AsNone) as Hfind.
  destruct Hfind as (found & Hrows & Hcols & _ & Hfind).
  - reflexivity.
  - reflexivity.
  - discriminate.
  - discriminate.
  - by_evaluation.
  - reflexivity.
  - reflexivity.
  - exists "a". split; by_evaluation.
  - rewrite Hfind. destruct found as [cols rws]. simpl in Hrows, Hcols.
    rewrite Hrows, (Hcols eq_refl). reflexivity.
Defined.

(** ** C6: conditions with several values *)

Lemma filter_ext_in {A} (P Q : A → Prop) `{∀ x, Decision (P x)} `{∀ x, Decision (Q x)}
    (l : list A) :
  (∀ x, x ∈ l → P x ↔ Q x) → filter P l = filter Q l.
Proof.
  induction l as [|x l IH]; intros Hl; [done|].
  assert (filter P l = filter Q l) as IH'.
  { apply IH. intros y Hy. apply Hl. by right. }
  destruct (decide (P x)) as [Hp|Hp].
  - rewrite !filter_cons_True by (done || by apply Hl; [left|]). by rewrite IH'.
  - rewrite !filter_cons_False by (done || by rewrite <- Hl; [|left]). done.
Qed.

(** The test of a column, read at the label of a row, is the test of the cell
    of that row. *)
Lemma mask_get_col_test df c p l r :
  NoDup (index df) → (l, r) ∈ rows df →
  mask_get l (col_test df c p) = Some (p (r !! c)).
Proof.
  unfold index, col_test. induction (rows df) as [|[l' r'] rs IH]; simpl.
  - intros _ H. by apply elem_of_nil in H.
  - rewrite NoDup_cons. intros [Hl' Hnd] Hin.
    apply elem_of_cons in Hin as [[= -> ->]|Hin].
    + by rewrite bool_decide_eq_true_2.
    + rewrite bool_decide_eq_false_2; [by apply IH|].
      intros ->. apply Hl'. by apply (list_elem_of_fmap_2 fst _ (l, r)).
Qed.

Lemma NoDup_range_index n : NoDup (range_index n).
Proof.
  unfold range_index. apply NoDup_fmap_2; [|apply NoDup_seq].
  intros x y. apply Nat2Z.inj.
Qed.

Lemma default_index_NoDup df : default_index df → NoDup (index df).
Proof. intros ->. apply NoDup_range_index. Qed.

(** With the default index, the initial mask [Series([True] * len(df))] has
    the labels of the frame, and [&=] with the test of a column is that
    test. *)
Lemma mask_and_true_col_test df c p :
  default_index df →
  mask_and (series_const true (length (rows df))) (col_test df c p) = col_test df c p.
Proof.
  intros Hidx. unfold mask_and, series_const. rewrite <- Hidx.
  unfold index, col_test at 2. rewrite <- !list_fmap_compose.
  apply list_fmap_ext. intros i [l r] Hlr. simpl.
  rewrite (mask_get_col_test df c p l r); [done|by apply default_index_NoDup|].
  by eapply list_elem_of_lookup_2.
Qed.

(** A frame indexed by the test of one of its columns keeps the rows whose
    cell passes the test. *)
Lemma df_getitem_mask_col_test df c p :
  NoDup (index df) →
  df_getitem_mask df (col_test df c p)
  = Ok (mkDF (columns df) (filter (λ lr, p (lr.2 !! c) = true) (rows df))).
Proof.
  intros Hnd. unfold df_getitem_mask.
  rewrite forallb_elem_of.
  - f_equal. f_equal. apply filter_ext_in. intros [l r] Hlr. simpl.
    rewrite (mask_get_col_test df c p l r) by done. split; congruence.
  - intros l Hl. apply bool_decide_eq_true.
    apply list_elem_of_fmap in Hl as ([l' r] & -> & Hlr). simpl.
    rewrite (mask_get_col_test df c p l' r) by done. done.
Qed.

Lemma cell_isin_spec vs cell :
  cell_isin vs cell = true ↔ ∃ s, cell = Some s ∧ PStr s ∈ vs.
Proof.
  unfold cell_isin. destruct cell as [s|].
  - rewrite bool_decide_eq_true. split; [by exists s|]. by intros (s' & [= ->] & ?).
  - split; [done|]. by intros (s & ? & _).
Qed.

Lemma existsb_elem_of {A} (f : A → bool) (l : list A) :
  existsb f l = true ↔ ∃ x, x ∈ l ∧ f x = true.
Proof.
  rewrite existsb_exists. split; intros (x & Hx & Hf); exists x;
    (split; [by apply list_elem_of_In|done]).
Qed.

(** The first exception of [rmap] is one that its function raises. *)
Lemma rmap_raises {A B} (f : A → result B) (xs : list A) (x : A) e0 :
  x ∈ xs → f x = Raise e0 →
  ∃ x' e, x' ∈ xs ∧ f x' = Raise e ∧ rmap f xs = Raise e.
Proof.
  induction xs as [|y xs IH]; intros Hx Hf.
  - by apply elem_of_nil in Hx.
  - simpl. destruct (f y) as [b|e] eqn:Hy.
    + apply elem_of_cons in Hx as [->|Hx]; [congruence|].
      destruct (IH Hx Hf) as (x' & e & Hx' & Hfx' & ->).
      exists x', e. split; [by right|done].
    + exists y, e. split; [by left|done].
Qed.

(** A list of several values that holds a regular expression or a null is
    refused by the checks of the conditions. *)
Lemma _check_conditions_refuses_mixed (conditions : dict cond_arg) k vs :
  (k, CList vs) ∈ conditions →
  (∃ v, v ∈ vs ∧ (is_regex v = true ∨ isnull v = true)) →
  ∃ e, _check_conditions conditions = Raise e ∧ is_invalid_condition e = true.
Proof.
  intros Hin (v & Hv & Hbad). unfold _check_conditions.
  destruct (_check_dict_type _ _ _ conditions _) as [conditions'|e] eqn:Hd.
  - apply _check_dict_type_conditions_ok in Hd as ->. simpl.
    assert (_check_type_iter (CList vs) = Raise (ValueError ParameterType)) as Hiter.
    { unfold _check_type_iter.
      destruct (forallb is_str vs) eqn:Hall; [|done].
      rewrite forallb_forall in Hall. specialize (Hall v).
      rewrite <- list_elem_of_In in Hall. specialize (Hall Hv).
      destruct v, Hbad; done. }
    edestruct (rmap_raises
                 (λ kv : string * cond_arg,
                    match kv.2 with
                    | CVal v0 =>
                        if negb (has_iter kv.2) && (isnull v0 || is_regex v0)
                        then Ok (kv.1, [v0])
                        else rbind (_check_type_iter kv.2) (λ vs0, Ok (kv.1, vs0))
                    | CList _ => rbind (_check_type_iter kv.2) (λ vs0, Ok (kv.1, vs0))
                    end) conditions (k, CList vs)) as (kv' & e & _ & Hkv' & ->); [done| |].
    { simpl. by rewrite Hiter. }
    exists e. split; [done|].
    destruct kv' as [k' [v'|vs']]; simpl in Hkv'.
    + destruct (negb _ && _); [done|].
      unfold _check_type_iter in Hkv'.
      destruct (forallb is_str _) in Hkv'; simpl in Hkv'; by simplify_eq.
    + unfold _check_type_iter in Hkv'.
      destruct (forallb is_str _) in Hkv'; simpl in Hkv'; by simplify_eq.
  - exists e. split; [done|]. unfold _check_dict_type in Hd.
    by case_match; simplify_eq.
Qed.

Section InCondition.
Variable str_match : string → option string → bool.

Lemma _get_condition_mask_loop_several df mask k v1 v2 vs condition' :
  k ∈ columns df →
  _get_condition_mask_loop str_match df mask ((k, v1 :: v2 :: vs) :: condition')
  = if existsb is_regex (v1 :: v2 :: vs)
    then Raise (ValueError RegexInWhereIn)
    else if existsb isnull (v1 :: v2 :: vs)
    then Raise (ValueError NullInWhereIn)
    else _get_condition_mask_loop str_match df
           (mask_and mask (col_test df k (cell_isin (v1 :: v2 :: vs)))) condition'.
Proof.
  intros Hcol. simpl. by rewrite bool_decide_eq_false_2 by (by intros Hn).
Qed.

(** C6.  A condition entry with more than one value.  If one of the values is
    a regular expression or a null, the evaluation fails with an error of the
    kind [InvalidCondition]: [_get_condition_mask] raises it when its loop
    reaches the entry on a column of the frame, and [find] raises it from the
    checks of its conditions whatever the columns of the table are.
    Otherwise the loop goes on with the mask restricted by [isin], a cell
    passes [isin] exactly when it holds a string that is among the values,
    and [find] with that one entry returns the rows whose cell passes. *)
Theorem condition_with_several_values df cond_key cond_val :
  (1 < length cond_val)%nat →
  ((∃ v, v ∈ cond_val ∧ (is_regex v = true ∨ isnull v = true)) →
     (cond_key ∈ columns df →
      ∀ mask condition', ∃ e,
        _get_condition_mask_loop str_match df mask ((cond_key, cond_val) :: condition')
        = Raise e
        ∧ is_invalid_condition e = true)
     ∧ (∀ self tname (where_ where_not : dict cond_arg) cols astype,
          _db self !! lower tname = Some df →
          (cond_key, CList cond_val) ∈ where_ →
          ∃ e, find str_match tname where_ where_not cols astype self = (self, Raise e)
               ∧ is_invalid_condition e = true))
  ∧ ((∀ v, v ∈ cond_val → is_regex v = false ∧ isnull v = false) →
     (cond_key ∈ columns df →
      ∀ mask condition',
        _get_condition_mask_loop str_match df mask ((cond_key, cond_val) :: condition')
        = _get_condition_mask_loop str_match df
            (mask_and mask (col_test df cond_key (cell_isin cond_val))) condition')
     ∧ (∀ cell, cell_isin cond_val cell = true ↔ ∃ s, cell = Some s ∧ PStr s ∈ cond_val)
     ∧ (∀ self tname,
          _db self !! lower tname = Some df →
          default_index df →
          cond_key ∈ columns df →
          forallb is_str cond_val = true →
          find_frame str_match (lower tname) [(cond_key, CList cond_val)] [] [] self
          = (self,
             Ok (mkDF (columns df)
                   (filter (λ lr, cell_isin cond_val (lr.2 !! cond_key) = true)
                      (rows df)))))).
Proof.
  intros Hlen.
  destruct cond_val as [|v1 [|v2 cond_val]]; [simpl in Hlen; lia..|]. clear Hlen.
  split.
  - intros Hbad. split.
    + intros Hcol mask condition'.
      rewrite _get_condition_mask_loop_several by done.
      destruct (existsb is_regex (v1 :: v2 :: cond_val)) eqn:Hre.
      { by eexists. }
      destruct (existsb isnull (v1 :: v2 :: cond_val)) eqn:Hnull.
      { by eexists. }
      exfalso. destruct Hbad as (v & Hv & [Hr|Hn]).
      * assert (existsb is_regex (v1 :: v2 :: cond_val) = true); [|congruence].
        apply existsb_elem_of. eauto.
      * assert (existsb isnull (v1 :: v2 :: cond_val) = true); [|congruence].
        apply existsb_elem_of. eauto.
    + intros self tname where_ where_not cols astype Hdf Hin.
      destruct (_check_conditions_refuses_mixed where_ cond_key (v1 :: v2 :: cond_val) Hin Hbad)
        as (e & Hcheck & He).
      exists e. split; [|done].
      rewrite (find_on_table _ _ _ _ _ _ _ _ Hdf).
      unfold find_frame. rewrite Hcheck. by autorewrite with run.
  - intros Hgood.
    assert (existsb is_regex (v1 :: v2 :: cond_val) = false) as Hre.
    { apply not_true_is_false. intros (v & Hv & Hr)%existsb_elem_of.
      destruct (Hgood v Hv). congruence. }
    assert (existsb isnull (v1 :: v2 :: cond_val) = false) as Hnull.
    { apply not_true_is_false. intros (v & Hv & Hr)%existsb_elem_of.
      destruct (Hgood v Hv). congruence. }
    split; [|split].
    + intros Hcol mask condition'.
      rewrite _get_condition_mask_loop_several by done.
      by rewrite Hre, Hnull.
    + apply cell_isin_spec.
    + intros self tname Hdf Hidx Hcol Hstr.
      unfold find_frame.
      assert (_check_conditions [(cond_key, CList (v1 :: v2 :: cond_val))] = Ok [(cond_key, (v1 :: v2 :: cond_val))]) as ->.
      { unfold _check_conditions, _check_type_iter. simpl. simpl in Hstr.
        by rewrite Hstr. }
      change (_check_conditions []) with (Ok ([] : dict (list pyval))).
      autorewrite with run.
      unfold db_getitem at 1. unfold bind at 1. rewrite Hdf.
      change ((0 <? length ([] : list string))%nat && (0 <? df_len df)) with false.
      cbv iota. autorewrite with run.
      change (0 <? length [(cond_key, (v1 :: v2 :: cond_val))])%nat with true. cbv iota.
      unfold _get_condition_mask.
      rewrite _get_condition_mask_loop_several by done.
      rewrite Hre, Hnull. simpl _get_condition_mask_loop.
      rewrite mask_and_true_col_test by done. simpl rbind.
      rewrite df_getitem_mask_col_test by (by apply default_index_NoDup).
      autorewrite with run. reflexivity.
Qed.

End InCondition.

(** On the table of two rows: the values [re.compile("x"), "y"] for column [a]
    make the loop of [_get_condition_mask] raise, and [find] with
    [a in ["x", "z"]] returns the first row. *)
Lemma condition_with_several_values_witness :
  _get_condition_mask Examples.prefix_match Examples.two_rows [("a", [PRegex "x"; PStr "y"])]
  = Raise (ValueError RegexInWhereIn)
  ∧ find_frame Examples.prefix_match "t" [("a", CList [PStr "x"; PStr "z"])] [] []
      Examples.two_rows_db
    = (Examples.two_rows_db,
       Ok (mkDF ["__id__"; "a"; "b"]
             [(0, {[ "__id__" := "id0"; "a" := "x"; "b" := "p" ]})])).
Proof.
  split.
  - destruct (condition_with_several_values Examples.prefix_match Examples.two_rows
                "a" [PRegex "x"; PStr "y"]) as [Hfail _]; [simpl; lia|].
    destruct Hfail as [Hloop _].
    { exists (PRegex "x"). split; [by_evaluation|by left]. }
    destruct (Hloop ltac:(by_evaluation)
                (series_const true (length (rows Examples.two_rows))) [])
      as (e & He & _).
    unfold _get_condition_mask. rewrite He.
    vm_compute in He. by injection He as <-.
  - destruct (condition_with_several_values Examples.prefix_match Examples.two_rows
                "a" [PStr "x"; PStr "z"]) as [_ Hmatch]; [simpl; lia|].
    destruct Hmatch as (_ & _ & Hfind).
    { intros v Hv. by apply list_elem_of_In in Hv as [<-|[<-|[]]]. }
    specialize (Hfind Examples.two_rows_db "t").
    change (lower "t") with "t" in Hfind.
    rewrite Hfind; [by vm_compute|done|done|by_evaluation|done].
Defined.

(** ** Dictionaries in insertion order *)

Section DictLookup.
Context {V : Type}.
Implicit Types (d : dict V) (k : string) (v : V).

Lemma get_set_eq k v d : get k (set k v d) = Some v.
Proof.
  induction d as [|[k' v'] d IH]; simpl.
  - by rewrite bool_decide_eq_true_2.
  - case_bool_decide as Hk; simpl.
    + by rewrite bool_decide_eq_true_2.
    + by rewrite bool_decide_eq_false_2.
Qed.

Lemma get_set_ne k k' v d : k ≠ k' → get k (set k' v d) = get k d.
Proof.
  intros Hne. induction d as [|[k0 v0] d IH]; simpl.
  - by rewrite bool_decide_eq_false_2.
  - case_bool_decide as Hk; simpl; subst.
    + by rewrite !bool_decide_eq_false_2.
    + case_bool_decide; [done|apply IH].
Qed.

Lemma get_Some_in k v d : get k d = Some v → k ∈ keys d.
Proof.
  induction d as [|[k' v'] d IH]; simpl; [done|].
  unfold keys in *. simpl. case_bool_decide; subst; [by left|].
  intros H'. right. by apply IH.
Qed.

Lemma get_in k d : k ∈ keys d → is_Some (get k d).
Proof.
  induction d as [|[k' v'] d IH]; simpl.
  - intros H. by apply elem_of_nil in H.
  - unfold keys in *. simpl. case_bool_decide; [done|].
    intros [->|H']%elem_of_cons; [done|]. by apply IH.
Qed.

(** [update]: the entries of [src] win over those of [dst]. *)
Lemma get_update k (dst src : dict V) :
  NoDup (keys src) →
  get k (update dst src) = match get k src with
                           | Some v => Some v
                           | None => get k dst
                           end.
Proof.
  unfold update. revert dst. induction src as [|[k0 v0] src IH]; intros dst Hnd; [done|].
  unfold keys in *. simpl in *. apply NoDup_cons in Hnd as [Hk0 Hnd].
  rewrite IH by done. case_bool_decide as Hk; subst.
  - destruct (get k src) as [v|] eqn:Hg.
    + exfalso. apply Hk0. by eapply get_Some_in.
    + apply get_set_eq.
  - destruct (get k src); [done|]. by apply get_set_ne.
Qed.

Lemma keys_update_subseteq (dst src : dict V) : keys (update dst src) ⊆ keys dst ++ keys src.
Proof.
  unfold update. revert dst. induction src as [|[k0 v0] src IH]; intros dst; simpl.
  - unfold keys. simpl. set_solver.
  - intros k Hk. apply IH in Hk. unfold keys in *. simpl.
    apply elem_of_app in Hk as [Hk|Hk]; [|set_solver].
    apply keys_set_subseteq in Hk. unfold keys in *. set_solver.
Qed.

Lemma keys_set_elem_of k v d : k ∈ keys (set k v d).
Proof. eapply get_Some_in. apply get_set_eq. Qed.

Lemma keys_set_mono k k' v d : k ∈ keys d → k ∈ keys (set k' v d).
Proof.
  intros Hk. destruct (decide (k = k')) as [->|Hne]; [apply keys_set_elem_of|].
  apply get_in in Hk as [x Hx]. eapply get_Some_in. by rewrite get_set_ne.
Qed.

Lemma keys_update_dst k (dst src : dict V) : k ∈ keys dst → k ∈ keys (update dst src).
Proof.
  unfold update. revert dst. induction src as [|[k0 v0] src IH]; intros dst Hk; [done|].
  simpl. apply IH. by apply keys_set_mono.
Qed.

Lemma keys_update_src k (dst src : dict V) : k ∈ keys src → k ∈ keys (update dst src).
Proof.
  unfold update. revert dst. induction src as [|[k0 v0] src IH]; intros dst Hk.
  - by apply elem_of_nil in Hk.
  - unfold keys in Hk. simpl in *. apply elem_of_cons in Hk as [->|Hk].
    + apply (keys_update_dst _ _ src). apply keys_set_elem_of.
    + by apply IH.
Qed.

End DictLookup.

Lemma get_fmap_values {V W} (f : V → W) k (d : dict V) :
  get k ((λ kv, (kv.1, f kv.2)) <$> d) = f <$> get k d.
Proof.
  induction d as [|[k' v'] d IH]; [done|].
  rewrite fmap_cons. simpl. by case_bool_decide.
Qed.

Lemma keys_fmap_values {V W} (f : V → W) (d : dict V) :
  keys ((λ kv, (kv.1, f kv.2)) <$> d) = keys d.
Proof.
  unfold keys. rewrite <- list_fmap_compose. by apply list_fmap_ext.
Qed.

(** ** Schema evolution *)

Lemma with_table_with_table tname df1 schema1 df2 schema2 self :
  with_table tname df2 schema2 (with_table tname df1 schema1 self)
  = with_table tname df2 schema2 self.
Proof.
  destruct self. unfold with_table, set_db, set_schemas. simpl.
  by rewrite !insert_insert_eq.
Qed.

Lemma with_table_id tname df schema self :
  _db self !! tname = Some df → _schemas self !! tname = Some schema →
  with_table tname df schema self = self.
Proof.
  destruct self. unfold with_table, set_db, set_schemas. simpl. intros Hdf Hs.
  by rewrite !insert_id.
Qed.

Lemma with_table_db tname df schema self :
  _db (with_table tname df schema self) !! tname = Some df.
Proof. destruct self. simpl. apply lookup_insert_eq. Qed.

Lemma with_table_schemas tname df schema self :
  _schemas (with_table tname df schema self) !! tname = Some schema.
Proof. destruct self. simpl. apply lookup_insert_eq. Qed.

Lemma _check_columns_ok cols :
  _id_colname ∈ cols → forallb colname_match cols = true →
  _check_columns cols false = Ok cols.
Proof.
  intros Hid Hnames. unfold _check_columns.
  rewrite bool_decide_eq_false_2 by (by intros Hn). simpl. by rewrite Hnames.
Qed.

Lemma new_columns_elem_of c schema cols :
  c ∈ cols → c ∉ schema → c ∈ new_columns schema cols.
Proof.
  revert schema. induction cols as [|c0 cols IH]; intros schema Hc Hno.
  - by apply elem_of_nil in Hc.
  - simpl. case_bool_decide as Hc0.
    + apply IH; [|done]. apply elem_of_cons in Hc as [->|Hc]; done.
    + destruct (decide (c = c0)) as [->|Hne]; [by left|]. right.
      apply IH; [by apply elem_of_cons in Hc as [->|Hc]|].
      rewrite elem_of_app, list_elem_of_singleton. tauto.
Qed.

Lemma new_columns_fresh c schema cols :
  c ∈ new_columns schema cols → c ∈ cols ∧ c ∉ schema.
Proof.
  revert schema. induction cols as [|c0 cols IH]; intros schema; simpl.
  - intros H. by apply elem_of_nil in H.
  - case_bool_decide as Hc0.
    + intros H. destruct (IH _ H). split; [by right|done].
    + intros [->|H]%elem_of_cons; [split; [by left|done]|].
      destruct (IH _ H) as [? Hno]. split; [by right|].
      intros Hin. apply Hno. apply elem_of_app. by left.
Qed.

Lemma new_columns_nil schema cols :
  Forall (λ c, c ∈ schema) cols → new_columns schema cols = [].
Proof.
  induction 1 as [|c cols Hc _ IH]; simpl; [done|].
  by rewrite bool_decide_eq_true_2.
Qed.

(** Columns that are all new are added to the frame in order. *)
Lemma columns_foldl_setcol_none df news :
  columns (foldl df_setcol_none df news)
  = foldl (λ cols c, if bool_decide (c ∈ cols) then cols else cols ++ [c])
      (columns df) news.
Proof. revert df. induction news as [|c news IH]; intros df; simpl; [done|]. by rewrite IH. Qed.

Lemma rows_foldl_setcol_none df news :
  rows (foldl df_setcol_none df news)
  = (λ lr, (lr.1, foldl (λ r c, base.delete c r) lr.2 news)) <$> rows df.
Proof.
  revert df. induction news as [|c news IH]; intros df; simpl.
  - induction (rows df) as [|[l r] rs IHr]; [done|]. rewrite fmap_cons. by f_equal.
  - rewrite IH. simpl. rewrite <- list_fmap_compose. by apply list_fmap_ext.
Qed.

(** [_update_schema] under dynamic schema, on a table in its normal form and
    well-formed column names: the new columns are appended to the schema and
    to the frame, where they are null in every row. *)
Lemma _update_schema_dynamic self tname df cols :
  dynamic_schema (opts self) = true →
  _db self !! tname = Some df →
  _schemas self !! tname = Some (columns df) →
  _id_colname ∈ columns df →
  forallb colname_match (columns df) = true →
  forallb colname_match cols = true →
  _update_schema tname cols self
  = (with_table tname (foldl df_setcol_none df (new_columns (columns df) cols))
       (columns df ++ new_columns (columns df) cols) self, Ok tt)
  ∧ columns (foldl df_setcol_none df (new_columns (columns df) cols))
    = columns df ++ new_columns (columns df) cols.
Proof.
  revert self df. unfold _update_schema.
  induction cols as [|c cols IH]; intros self df Hdyn Hdf Hschema Hid Hnames Hcols.
  - simpl. rewrite app_nil_r. split; [|done]. unfold ret. f_equal.
    symmetry. by apply with_table_id.
  - simpl in Hcols. apply andb_prop in Hcols as [Hc Hcols].
    simpl. autorewrite with run.
    unfold schemas_getitem at 1. unfold bind at 1. rewrite Hschema.
    case_bool_decide as Hin.
    + rewrite bool_decide_eq_false_2 by done. autorewrite with run.
      rewrite Hdyn. autorewrite with run.
      rewrite _check_columns_ok.
      2: { apply elem_of_app. by left. }
      2: { rewrite forallb_app, Hnames. simpl. by rewrite Hc. }
      autorewrite with run.
      unfold db_getitem at 1. unfold bind at 1.
      assert (_db (set_schemas <[tname:=columns df ++ [c]]>
                     (set_schemas <[tname:=columns df ++ [c]]> self)) !! tname
              = Some df) as -> by (by destruct self).
      autorewrite with run.
      assert (set_db <[tname:=df_setcol_none df c]>
                (set_schemas <[tname:=columns df ++ [c]]>
                   (set_schemas <[tname:=columns df ++ [c]]> self))
              = with_table tname (df_setcol_none df c) (columns (df_setcol_none df c)) self)
        as ->.
      { destruct self. unfold with_table, set_db, set_schemas. simpl.
        rewrite bool_decide_eq_false_2 by done. by rewrite insert_insert_eq. }
      assert (columns (df_setcol_none df c) = columns df ++ [c]) as Hcols'.
      { simpl. by rewrite bool_decide_eq_false_2. }
      destruct (IH (with_table tname (df_setcol_none df c) (columns (df_setcol_none df c)) self)
                  (df_setcol_none df c)) as [IHrun IHcols].
      * by destruct self.
      * apply with_table_db.
      * apply with_table_schemas.
      * rewrite Hcols'. apply elem_of_app. by left.
      * rewrite Hcols', forallb_app, Hnames. simpl. by rewrite Hc.
      * done.
      * rewrite IHrun, with_table_with_table. rewrite Hcols' in IHcols |- *.
        rewrite <- app_assoc. simpl. split; [done|].
        rewrite IHcols. symmetry. apply (app_assoc _ [c]).
    + rewrite bool_decide_eq_true_2 by done.
      autorewrite with run. by apply IH.
Qed.

(** [_update_schema] under a fixed schema: nothing changes; a key outside the
    schema is an error. *)
Lemma _update_schema_fixed self tname schema cols :
  dynamic_schema (opts self) = false →
  _schemas self !! tname = Some schema →
  _update_schema tname cols self
  = (self, if forallb (λ c, bool_decide (c ∈ schema)) cols
           then Ok tt else Raise (ValueError UnknownColumn)).
Proof.
  intros Hdyn Hschema. unfold _update_schema.
  induction cols as [|c cols IH]; simpl; [done|].
  autorewrite with run.
  unfold schemas_getitem at 1. unfold bind at 1. rewrite Hschema.
  case_bool_decide as Hin.
  - rewrite bool_decide_eq_false_2 by done. autorewrite with run.
    by rewrite Hdyn.
  - rewrite bool_decide_eq_true_2 by done. autorewrite with run.
    by rewrite IH.
Qed.

(** Saving touches neither the tables nor the options. *)
Lemma save_if_auto_run self :
  ∃ self', save_if_auto self = (self', Ok tt) ∧ same_tables self self'.
Proof.
  unfold save_if_auto, save, same_tables. autorewrite with run.
  destruct (auto_save (opts self)); [|by eexists].
  autorewrite with run. destruct (deferred_save (opts self)).
  - unfold _save_defer. destruct self. simpl.
    repeat (case_match; simpl; try (by eexists)).
  - unfold _save_now. destruct self. simpl.
    repeat (case_match; simpl; try (by eexists)).
Qed.

(** The cell that a series leaves in a row of a frame with the columns
    [cols]. *)
Lemma series_row_lookup cols (s : series) c :
  series_row cols s !! c
  = if bool_decide (c ∈ cols) then mjoin (get c s) else None.
Proof.
  unfold series_row. induction cols as [|c0 cols IH]; [done|].
  csimpl.
  destruct (decide (c = c0)) as [->|Hne].
  - rewrite (bool_decide_eq_true_2 (c0 ∈ c0 :: cols)) by (by left).
    destruct (get c0 s) as [[v|]|] eqn:Hg; csimpl.
    + by rewrite lookup_insert_eq.
    + rewrite IH. by case_bool_decide.
    + rewrite IH. by case_bool_decide.
  - assert (bool_decide (c ∈ c0 :: cols) = bool_decide (c ∈ cols)) as ->.
    { apply bool_decide_ext. rewrite elem_of_cons. tauto. }
    destruct (get c0 s) as [[v|]|] eqn:Hg; csimpl; [|done..].
    by rewrite lookup_insert_ne.
Qed.

Lemma series_row_dom cols (s : series) :
  dom (series_row cols s) ⊆ list_to_set cols.
Proof.
  intros c Hc. apply elem_of_dom in Hc as [v Hv].
  rewrite series_row_lookup in Hv. case_bool_decide; [|done].
  by apply elem_of_list_to_set.
Qed.

(** ** Rows added by [insert] *)

Lemma foldl_delete_fresh (r : row) (news : list string) :
  (∀ c, c ∈ news → r !! c = None) → foldl (λ r c, base.delete c r) r news = r.
Proof.
  revert r. induction news as [|c news IH]; intros r Hnews; simpl; [done|].
  rewrite delete_id by (apply Hnews; by left).
  apply IH. intros c' Hc'. apply Hnews. by right.
Qed.

Lemma columns_foldl_new_columns df cols :
  columns (foldl df_setcol_none df (new_columns (columns df) cols))
  = columns df ++ new_columns (columns df) cols.
Proof.
  revert df. induction cols as [|c cols IH]; intros df; simpl.
  - by rewrite app_nil_r.
  - case_bool_decide as Hc; [apply IH|]. simpl.
    pose proof (IH (df_setcol_none df c)) as IH'. simpl in IH'.
    rewrite bool_decide_eq_false_2 in IH' by done.
    rewrite IH'. by rewrite <- app_assoc.
Qed.

(** On a table whose cells lie in its columns, adding new columns leaves the
    rows as they are. *)
Lemma foldl_setcol_none_new df cols :
  Forall (λ lr, dom lr.2 ⊆ list_to_set (columns df)) (rows df) →
  foldl df_setcol_none df (new_columns (columns df) cols)
  = mkDF (columns df ++ new_columns (columns df) cols) (rows df).
Proof.
  intros Hcells.
  pose proof (columns_foldl_new_columns df cols) as Hcols.
  pose proof (rows_foldl_setcol_none df (new_columns (columns df) cols)) as Hrows.
  destruct (foldl df_setcol_none df (new_columns (columns df) cols)) as [cs rs].
  simpl in *. subst cs. f_equal. rewrite Hrows. clear Hrows.
  destruct df as [cs0 rs0]. simpl in *.
  induction Hcells as [|[l r] rs0 Hr _ IH]; [done|].
  rewrite fmap_cons. f_equal; [|done]. simpl. f_equal.
  apply foldl_delete_fresh. intros c Hc.
  apply new_columns_fresh in Hc as [_ Hc].
  apply not_elem_of_dom. intros Hd. apply Hc. apply Hr in Hd.
  by apply elem_of_list_to_set in Hd.
Qed.

(** [_update_schema] on a table in its normal form, for keys that it
    accepts. *)
Lemma _update_schema_accepted self tname df cols :
  is_table self tname df → schema_accepts self df cols →
  _update_schema tname cols self
  = (with_table tname (with_columns df cols) (columns (with_columns df cols)) self, Ok tt).
Proof.
  intros [Hdf Hschema Hid Hnames Hcells] Hacc. unfold schema_accepts in Hacc.
  unfold with_columns. simpl.
  destruct (dynamic_schema (opts self)) eqn:Hdyn.
  - destruct (_update_schema_dynamic self tname df cols Hdyn Hdf Hschema Hid Hnames Hacc)
      as [-> _].
    by rewrite foldl_setcol_none_new.
  - rewrite (_update_schema_fixed self tname (columns df) cols Hdyn Hschema).
    rewrite new_columns_nil by done. rewrite app_nil_r.
    assert (forallb (λ c, bool_decide (c ∈ columns df)) cols = true) as ->.
    { induction Hacc as [|c cols Hc _ IH]; simpl; [done|].
      by rewrite bool_decide_eq_true_2. }
    rewrite with_table_id; [done| |done]. by destruct df.
Qed.

(** Under a fixed schema a key outside the schema is refused and nothing
    changes. *)
Lemma _update_schema_refused self tname df cols c :
  is_table self tname df → dynamic_schema (opts self) = false →
  c ∈ cols → c ∉ columns df →
  _update_schema tname cols self = (self, Raise (ValueError UnknownColumn)).
Proof.
  intros [_ Hschema _ _ _] Hdyn Hc Hno.
  rewrite (_update_schema_fixed self tname (columns df) cols Hdyn Hschema).
  assert (forallb (λ c, bool_decide (c ∈ columns df)) cols = false) as ->; [|done].
  induction cols as [|c0 cols IH]; [by apply elem_of_nil in Hc|].
  simpl. apply elem_of_cons in Hc as [<-|Hc].
  - by rewrite bool_decide_eq_false_2.
  - rewrite IH by done. apply andb_false_r.
Qed.

Lemma with_columns_accepted self tname df cols :
  is_table self tname df → schema_accepts self df cols →
  is_table (with_table tname (with_columns df cols) (columns (with_columns df cols)) self)
    tname (with_columns df cols).
Proof.
  intros [Hdf Hschema Hid Hnames Hcells] Hacc. split.
  - apply with_table_db.
  - apply with_table_schemas.
  - simpl. apply elem_of_app. by left.
  - simpl. rewrite forallb_app, Hnames. simpl.
    unfold schema_accepts in Hacc. destruct (dynamic_schema (opts self)).
    + apply forallb_forall. intros c Hc. apply list_elem_of_In in Hc.
      apply new_columns_fresh in Hc as [Hc _].
      rewrite forallb_forall in Hacc. apply Hacc. by apply list_elem_of_In.
    + by rewrite new_columns_nil.
  - simpl. eapply Forall_impl; [exact Hcells|]. simpl. intros lr Hlr c Hc.
    apply Hlr in Hc. rewrite list_to_set_app. set_solver.
Qed.

Lemma same_tables_refl self : same_tables self self.
Proof. done. Qed.

Lemma same_tables_is_table self self' tname df :
  same_tables self self' → is_table self tname df → is_table self' tname df.
Proof.
  intros (Hdb & Hs & _ & _) [? ? ? ? ?]. split; try done; congruence.
Qed.

Lemma set_db_with_table tname df df' schema self :
  set_db <[tname := df']> (with_table tname df schema self) = with_table tname df' schema self.
Proof.
  destruct self. unfold with_table, set_db, set_schemas. simpl.
  by rewrite insert_insert_eq.
Qed.

Lemma db_getitem_found tname df self :
  _db self !! tname = Some df → db_getitem tname self = (self, Ok df).
Proof. intros H. unfold db_getitem, bind, gets, ret, lift. simpl. by rewrite H. Qed.

Lemma columns_df_loc_setrow df l s : columns (df_loc_setrow df l s) = columns df.
Proof. unfold df_loc_setrow. by case_bool_decide. Qed.

Lemma columns_frame_after_insert df row :
  columns (frame_after_insert df row) = columns df ++ new_columns (columns df) (keys row).
Proof. unfold frame_after_insert. by rewrite columns_df_loc_setrow. Qed.

(** [insert_row] on a table in its normal form, for a row whose keys the
    schema accepts: the table becomes [frame_after_insert], the row is
    returned, whole or cut down to [cols]. *)
Lemma insert_row_run uuid4 tname record cols self df :
  is_table self tname df →
  schema_accepts self df (keys (record_new uuid4 (_rowgens self !! tname) record)) →
  ∃ self',
    insert_row uuid4 tname record cols self
    = (self', if (0 <? length cols)%nat
              then series_getitem_list (record_new uuid4 (_rowgens self !! tname) record) cols
              else Ok (record_new uuid4 (_rowgens self !! tname) record))
    ∧ same_tables
        (with_table tname
           (frame_after_insert df (record_new uuid4 (_rowgens self !! tname) record))
           (columns (frame_after_insert df (record_new uuid4 (_rowgens self !! tname) record)))
           self) self'.
Proof.
  intros Htable Hacc. unfold insert_row. rewrite bind_gets. cbv zeta.
  set (row := record_new uuid4 (_rowgens self !! tname) record) in *.
  rewrite (bind_ok _ _ _ _ _ (_update_schema_accepted self tname df (keys row) Htable Hacc)).
  rewrite (bind_ok _ _ _ _ _ (db_getitem_found tname _ _ (with_table_db _ _ _ _))).
  rewrite bind_modify, set_db_with_table.
  destruct (save_if_auto_run
              (with_table tname
                 (df_loc_setrow (with_columns df (keys row)) (df_len (with_columns df (keys row))) row)
                 (columns (with_columns df (keys row))) self)) as (self' & Hsave & Hsame).
  rewrite (bind_ok _ _ _ _ _ Hsave).
  exists self'. split.
  - by destruct (0 <? length cols)%nat.
  - unfold frame_after_insert. by rewrite columns_df_loc_setrow.
Qed.

Lemma schema_accepts_subseteq self df cols cols' :
  cols' ⊆ cols → schema_accepts self df cols → schema_accepts self df cols'.
Proof.
  unfold schema_accepts. intros Hsub. destruct (dynamic_schema (opts self)).
  - rewrite !forallb_forall. intros H c Hc. apply H.
    apply list_elem_of_In. apply Hsub. by apply list_elem_of_In.
  - rewrite !Forall_forall. intros H c Hc. apply H. by apply Hsub.
Qed.

Lemma schema_accepts_app self df cols cols' :
  schema_accepts self df cols → schema_accepts self df cols' →
  schema_accepts self df (cols ++ cols').
Proof.
  unfold schema_accepts. destruct (dynamic_schema (opts self)).
  - rewrite forallb_app. by intros -> ->.
  - apply Forall_app_2.
Qed.

Lemma schema_accepts_id self tname df :
  is_table self tname df → schema_accepts self df [_id_colname].
Proof.
  intros [_ _ Hid _ _]. unfold schema_accepts. destruct (dynamic_schema (opts self)).
  - reflexivity.
  - by apply Forall_singleton.
Qed.

(** ** The row that [insert] stores *)

Lemma record_new_id uuid4 rowgen record :
  NoDup (keys record) →
  get _id_colname (record_new uuid4 rowgen record) = Some (Some uuid4).
Proof.
  intros Hnd. unfold record_new. rewrite get_update.
  - by rewrite get_fmap_values, get_set_eq.
  - rewrite keys_fmap_values. by apply keys_set_NoDup.
Qed.

Lemma record_new_keys uuid4 rowgen record c :
  c ∈ keys record → c ∈ keys (record_new uuid4 rowgen record).
Proof.
  intros Hc. unfold record_new. apply keys_update_src.
  rewrite keys_fmap_values. by apply keys_set_mono.
Qed.

Lemma record_new_keys_subseteq uuid4 rowgen record :
  keys (record_new uuid4 rowgen record)
  ⊆ keys (default [] rowgen) ++ [_id_colname] ++ keys record.
Proof.
  unfold record_new. intros c Hc. apply keys_update_subseteq in Hc.
  rewrite keys_fmap_values in Hc. apply elem_of_app in Hc as [Hc|Hc].
  - apply elem_of_app. by left.
  - apply elem_of_app. right. by apply keys_set_subseteq in Hc.
Qed.

Lemma record_new_accepted uuid4 self tname df record :
  is_table self tname df →
  schema_accepts self df (keys (default [] (_rowgens self !! tname))) →
  schema_accepts self df (keys record) →
  schema_accepts self df (keys (record_new uuid4 (_rowgens self !! tname) record)).
Proof.
  intros Htable Hgen Hrec.
  eapply schema_accepts_subseteq; [apply record_new_keys_subseteq|].
  apply schema_accepts_app; [done|].
  apply schema_accepts_app; [by eapply schema_accepts_id|done].
Qed.

(** ** The frame after [insert] *)

Lemma default_index_fresh df : default_index df → df_len df ∉ index df.
Proof.
  unfold default_index, df_len, range_index. intros -> Hin.
  apply list_elem_of_fmap in Hin as (k & Hk & Hin).
  apply elem_of_seq in Hin. lia.
Qed.

Lemma rows_df_loc_setrow_fresh df l s :
  l ∉ index df →
  rows (df_loc_setrow df l s) = rows df ++ [(l, series_row (columns df) s)].
Proof. intros Hl. unfold df_loc_setrow. by rewrite bool_decide_eq_false_2. Qed.

Lemma rows_frame_after_insert df row :
  df_len df ∉ index df →
  rows (frame_after_insert df row)
  = rows df ++ [(df_len df, series_row (columns (frame_after_insert df row)) row)].
Proof.
  intros Hl. unfold frame_after_insert.
  rewrite columns_df_loc_setrow. by rewrite rows_df_loc_setrow_fresh.
Qed.

Lemma default_index_after_insert df row :
  default_index df → default_index (frame_after_insert df row).
Proof.
  intros Hdef. pose proof (default_index_fresh df Hdef) as Hfresh.
  unfold default_index, index. rewrite rows_frame_after_insert by done.
  rewrite fmap_app, length_app. simpl.
  replace (length (rows df) + 1)%nat with (S (length (rows df))) by lia.
  unfold range_index. rewrite seq_S, fmap_app. simpl.
  unfold default_index, index, range_index in Hdef. by rewrite Hdef.
Qed.

(** Every cell of the new frame lies in one of its columns. *)
Lemma df_loc_setrow_cells df l s :
  Forall (λ lr, dom lr.2 ⊆ list_to_set (columns df)) (rows df) →
  Forall (λ lr, dom lr.2 ⊆ list_to_set (columns (df_loc_setrow df l s)))
    (rows (df_loc_setrow df l s)).
Proof.
  intros Hcells. rewrite columns_df_loc_setrow. unfold df_loc_setrow.
  case_bool_decide; simpl.
  - apply Forall_fmap. eapply Forall_impl; [exact Hcells|].
    intros [l0 r0] Hr. simpl. case_bool_decide; simpl; [|done].
    apply series_row_dom.
  - apply Forall_app_2; [done|]. apply Forall_singleton. apply series_row_dom.
Qed.

Lemma frame_after_insert_is_table self tname df row :
  is_table self tname df → schema_accepts self df (keys row) →
  is_table
    (with_table tname (frame_after_insert df row)
       (columns (frame_after_insert df row)) self)
    tname (frame_after_insert df row).
Proof.
  intros Htable Hacc.
  destruct (with_columns_accepted self tname df (keys row) Htable Hacc)
    as [_ _ Hid Hnames Hcells].
  unfold frame_after_insert. split.
  - apply with_table_db.
  - apply with_table_schemas.
  - by rewrite columns_df_loc_setrow.
  - by rewrite columns_df_loc_setrow.
  - by apply df_loc_setrow_cells.
Qed.

(** The row stored under the label [l]. *)
Lemma df_loc_setrow_stored df l s :
  (l, series_row (columns df) s) ∈ rows (df_loc_setrow df l s).
Proof.
  unfold df_loc_setrow. case_bool_decide as Hl; simpl.
  - apply list_elem_of_fmap in Hl as ([l0 r0] & -> & Hin).
    apply list_elem_of_fmap. exists (l0, r0). split; [|done].
    simpl. by rewrite bool_decide_eq_true_2.
  - apply elem_of_app. right. by apply list_elem_of_singleton.
Qed.

(** The rows under other labels stay. *)
Lemma df_loc_setrow_others df l s l0 r0 :
  l0 ≠ l → (l0, r0) ∈ rows (df_loc_setrow df l s) ↔ (l0, r0) ∈ rows df.
Proof.
  intros Hne. unfold df_loc_setrow. case_bool_decide as Hl; simpl.
  - rewrite list_elem_of_fmap. split.
    + intros ([l1 r1] & Heq & Hin). simpl in Heq.
      case_bool_decide; simplify_eq; done.
    + intros Hin. exists (l0, r0). split; [|done]. simpl.
      by rewrite bool_decide_eq_false_2.
  - rewrite elem_of_app, list_elem_of_singleton. split; [|by left].
    intros [?|?]; [done|]. simplify_eq.
Qed.

(** Storing a row with a new value of the reserved column keeps these values
    present and distinct. *)
Lemma unique_ids_df_loc_setrow df l s id :
  NoDup (index df) → unique_ids df →
  series_row (columns df) s !! _id_colname = Some id →
  Some id ∉ ((λ lr : Z * row, lr.2 !! _id_colname) <$> rows df) →
  unique_ids (df_loc_setrow df l s).
Proof.
  intros Hnd [Hsome Hids] Hid Hfresh. unfold unique_ids, df_loc_setrow.
  set (r := series_row (columns df) s) in *.
  case_bool_decide as Hl; simpl.
  - clear Hl. unfold index in Hnd. destruct df as [cs rs]. simpl in *.
    clearbody r. clear s cs.
    induction rs as [|[l0 r0] rs IH]; [done|].
    rewrite ?fmap_cons in Hnd, Hids, Hfresh. csimpl in *.
    apply NoDup_cons in Hnd as [Hl0 Hnd]. apply NoDup_cons in Hids as [Hr0 Hids].
    apply Forall_cons in Hsome as [Hs0 Hsome].
    apply not_elem_of_cons in Hfresh as [Hne Hfresh].
    destruct (IH Hnd Hsome Hids Hfresh) as [IH1 IH2].
    split.
    + apply Forall_cons. split; [|done]. case_bool_decide; simpl; [by rewrite Hid|done].
    + apply NoDup_cons. split; [|done].
      case_bool_decide as Heq; simpl.
      * subst l0. rewrite Hid. intros Hin. apply Hfresh.
        apply list_elem_of_fmap in Hin as ([l1 r1] & Heq1 & Hin).
        apply list_elem_of_fmap in Hin as ([l2 r2] & Heq2 & Hin).
        simpl in *. case_bool_decide; simplify_eq.
        -- exfalso. apply Hl0. apply list_elem_of_fmap. by exists (l, r2).
        -- apply list_elem_of_fmap. by exists (l2, r2).
      * intros Hin.
        apply list_elem_of_fmap in Hin as ([l1 r1] & Heq1 & Hin).
        apply list_elem_of_fmap in Hin as ([l2 r2] & Heq2 & Hin).
        simpl in *. case_bool_decide; simplify_eq.
        -- rewrite Hid in Heq1. by apply Hne.
        -- apply Hr0. apply list_elem_of_fmap. by exists (l2, r2).
  - split.
    + apply Forall_app_2; [done|]. apply Forall_singleton. simpl. by rewrite Hid.
    + rewrite fmap_app. simpl. apply NoDup_app. split; [done|]. split.
      * intros x Hx Hin. apply list_elem_of_singleton in Hin. subst x.
        rewrite Hid in Hx. by apply Hfresh.
      * apply NoDup_singleton.
Qed.

(** [insert] on a table in its normal form, with a record of [str] values
    whose keys the schema accepts. *)
Lemma insert_run uuid4 tname record cols astype self df :
  is_table self (lower tname) df →
  str_record record →
  schema_accepts self df (keys (default [] (_rowgens self !! lower tname))) →
  schema_accepts self df (keys record) →
  ∃ self',
    insert uuid4 tname record cols astype self
    = (do! row := lift (if (0 <? length cols)%nat
                        then series_getitem_list
                               (record_new uuid4 (_rowgens self !! lower tname) record) cols
                        else Ok (record_new uuid4 (_rowgens self !! lower tname) record)) in
       _output (OutSeries row) true astype) self'
    ∧ same_tables
        (with_table (lower tname)
           (frame_after_insert df (record_new uuid4 (_rowgens self !! lower tname) record))
           (columns (frame_after_insert df
                       (record_new uuid4 (_rowgens self !! lower tname) record)))
           self) self'.
Proof.
  intros Htable Hstr Hgen Hrec.
  destruct (insert_row_run uuid4 (lower tname) record cols self df Htable
              (record_new_accepted uuid4 self (lower tname) df record Htable Hgen Hrec))
    as (self' & Hrow & Hsame).
  exists self'. split; [|done].
  unfold insert.
  rewrite (bind_ok _ _ _ _ _ (_check_tname_found self tname false df (table_stored _ _ _ Htable))).
  rewrite bind_gets. rewrite (_check_dict_type_str_record record _ Hstr).
  rewrite bind_lift_ok.
  destruct (0 <? length cols)%nat.
  - destruct (series_getitem_list _ cols) as [s|e].
    + by rewrite (bind_ok _ _ _ _ _ Hrow).
    + by rewrite (bind_raise _ _ _ _ _ Hrow).
  - by rewrite (bind_ok _ _ _ _ _ Hrow).
Qed.

(** The tables after [insert]. *)
Lemma insert_state uuid4 tname record cols astype self df :
  is_table self (lower tname) df →
  str_record record →
  schema_accepts self df (keys (default [] (_rowgens self !! lower tname))) →
  schema_accepts self df (keys record) →
  same_tables
    (with_table (lower tname)
       (frame_after_insert df (record_new uuid4 (_rowgens self !! lower tname) record))
       (columns (frame_after_insert df
                   (record_new uuid4 (_rowgens self !! lower tname) record)))
       self)
    (insert uuid4 tname record cols astype self).1.
Proof.
  intros Htable Hstr Hgen Hrec.
  destruct (insert_run uuid4 tname record cols astype self df Htable Hstr Hgen Hrec)
    as (self' & -> & Hsame).
  destruct (0 <? length cols)%nat.
  - destruct (series_getitem_list _ cols) as [s|e].
    + rewrite bind_lift_ok. by rewrite _output_state.
    + by rewrite bind_lift_raise.
  - rewrite bind_lift_ok. by rewrite _output_state.
Qed.

Lemma with_table_other tname df schema self t :
  t ≠ tname →
  _db (with_table tname df schema self) !! t = _db self !! t
  ∧ _schemas (with_table tname df schema self) !! t = _schemas self !! t.
Proof. intros Hne. destruct self. simpl. by rewrite !lookup_insert_ne. Qed.

(** ** C4: the identifier of an inserted record *)

(** [insert] stores the new row with the freshly drawn identifier in the
    reserved column, whatever the record or the row generator of the table
    supply for that column; the rows under other labels and the other tables
    stay as they are; so, when the identifier is new to the table, the values
    of the reserved column remain present and pairwise distinct.  The table
    is in its normal form with distinct row labels, the record holds [str]
    values under distinct keys, and the schema accepts the keys. *)
Lemma insert_stores_drawn_id uuid4 tname record cols astype self df :
  is_table self (lower tname) df →
  NoDup (index df) →
  str_record record → NoDup (keys record) →
  schema_accepts self df (keys (default [] (_rowgens self !! lower tname))) →
  schema_accepts self df (keys record) →
  ∃ df',
    is_table (insert uuid4 tname record cols astype self).1 (lower tname) df'
    ∧ (∃ r, (df_len df, r) ∈ rows df' ∧ r !! _id_colname = Some uuid4)
    ∧ (∀ l r, l ≠ df_len df → (l, r) ∈ rows df' ↔ (l, r) ∈ rows df)
    ∧ (∀ t, t ≠ lower tname →
         _db (insert uuid4 tname record cols astype self).1 !! t = _db self !! t)
    ∧ (unique_ids df →
       Some uuid4 ∉ ((λ lr : Z * row, lr.2 !! _id_colname) <$> rows df) →
       unique_ids df').
Proof.
  intros Htable Hnd Hstr Hkeys Hgen Hrec.
  pose proof (insert_state uuid4 tname record cols astype self df Htable Hstr Hgen Hrec)
    as Hsame.
  set (row := record_new uuid4 (_rowgens self !! lower tname) record) in *.
  assert (schema_accepts self df (keys row)) as Hacc.
  { by eapply record_new_accepted. }
  assert (series_row (columns (with_columns df (keys row))) row !! _id_colname
          = Some uuid4) as Hid.
  { rewrite series_row_lookup. rewrite bool_decide_eq_true_2.
    - unfold row. by rewrite record_new_id.
    - simpl. apply elem_of_app. left. by destruct Htable. }
  exists (frame_after_insert df row). split; [|split; [|split; [|split]]].
  - eapply same_tables_is_table; [exact Hsame|]. by apply frame_after_insert_is_table.
  - eexists. split; [apply df_loc_setrow_stored|exact Hid].
  - intros l r Hl. unfold frame_after_insert. by rewrite df_loc_setrow_others.
  - intros t Ht. destruct Hsame as (-> & _). by apply with_table_other.
  - intros Huniq Hfresh. unfold frame_after_insert.
    by apply (unique_ids_df_loc_setrow (with_columns df (keys row)) _ _ uuid4).
Qed.


(** ** The table of two rows *)

Lemma two_rows_is_table : is_table Examples.two_rows_db "t" Examples.two_rows.
Proof.
  split; [reflexivity | reflexivity | by_evaluation | reflexivity |].
  by_evaluation.
Qed.

Lemma two_rows_fixed_is_table : is_table Examples.fixed_db "t" Examples.two_rows.
Proof.
  split; [reflexivity | reflexivity | by_evaluation | reflexivity |].
  by_evaluation.
Qed.

Lemma two_rows_default_index : default_index Examples.two_rows.
Proof. reflexivity. Qed.

Lemma two_rows_unique_ids : unique_ids Examples.two_rows.
Proof.
  split.
  - by_evaluation.
  - by_evaluation.
Qed.

(** ** Conditions on [str] values *)

Lemma fmap_pair_id {A B} (l : list (A * B)) : (λ kv, (kv.1, kv.2)) <$> l = l.
Proof. induction l as [|[a b] l IH]; [done|]. rewrite fmap_cons. simpl. by f_equal. Qed.

Lemma rmap_ok {A B} (f : A → result B) (g : A → B) xs :
  Forall (λ x, f x = Ok (g x)) xs → rmap f xs = Ok (g <$> xs).
Proof.
  induction 1 as [|x xs Hx _ IH]; [done|].
  cbn [rmap]. rewrite Hx, IH. done.
Qed.

Lemma rmap_fmap {A B C} (f : B → result C) (h : A → B) xs :
  rmap f (h <$> xs) = rmap (λ x, f (h x)) xs.
Proof.
  induction xs as [|x xs IH]; [done|].
  rewrite fmap_cons. cbn [rmap]. by rewrite IH.
Qed.

Lemma _check_conditions_str conditions :
  str_condition conditions →
  _check_conditions conditions = Ok (checked conditions)
  ∧ _check_conditions (as_args (checked conditions)) = Ok (checked conditions).
Proof.
  intros Hstr. unfold _check_conditions, _check_dict_type, checked, as_args.
  rewrite !fmap_pair_id. cbn [negb andb].
  assert (forallb (λ kv : string * cond_arg,
                     bool_decide (arg_type kv.2 ∈ [TStr; TList; TRegex])) conditions
          = true) as ->.
  { induction Hstr as [|[k a] conditions Ha _ IH]; [done|].
    cbn [forallb]. rewrite IH, andb_true_r. simpl in Ha.
    destruct a as [[]|]; simpl in *; try done; apply bool_decide_eq_true_2; set_solver. }
  assert (forallb (λ kv : string * cond_arg,
                     bool_decide (arg_type kv.2 ∈ [TStr; TList; TRegex]))
            ((λ kv : string * list pyval, (kv.1, CList kv.2)) <$>
               ((λ kv : string * cond_arg, (kv.1, arg_values kv.2)) <$> conditions))
          = true) as ->.
  { clear Hstr. induction conditions as [|[k a] conditions IH]; [done|].
    rewrite !fmap_cons. cbn [forallb]. rewrite IH, andb_true_r.
    apply bool_decide_eq_true_2. simpl. set_solver. }
  cbn [negb rbind]. split.
  - apply rmap_ok. eapply Forall_impl; [exact Hstr|].
    intros [k a] Ha. simpl in *. destruct a as [[]|vs]; simpl in *; try done.
    unfold _check_type_iter. by rewrite Ha.
  - rewrite rmap_fmap.
    rewrite <- (list_fmap_id ((λ kv : string * cond_arg, (kv.1, arg_values kv.2))
                                <$> conditions)) at 2.
    apply rmap_ok. apply Forall_fmap.
    eapply Forall_impl; [exact Hstr|].
    intros [k a] Ha. simpl in *. unfold _check_type_iter.
    destruct a as [[]|vs]; simpl in *; try done. by rewrite Ha.
Qed.

(** ** Rows updated by [upsert] *)

Lemma row_update_lookup record r c :
  NoDup (keys record) →
  row_update record r !! c = match get c record with
                             | Some v => cell_of v
                             | None => r !! c
                             end.
Proof.
  unfold row_update. revert r.
  induction record as [|[k v] record IH]; intros r Hnd; [done|].
  unfold keys in Hnd. rewrite fmap_cons in Hnd. apply NoDup_cons in Hnd as [Hk Hnd].
  cbn [foldl get]. rewrite IH by done. simpl.
  case_bool_decide as Hkc.
  - subst c. destruct (get k record) as [v'|] eqn:Hget.
    { exfalso. apply Hk. by eapply get_Some_in. }
    destruct (cell_of v) as [s|].
    + by rewrite lookup_insert_eq.
    + by rewrite lookup_delete_eq.
  - destruct (get c record) as [v'|]; [done|].
    destruct (cell_of v) as [s|].
    + by rewrite lookup_insert_ne.
    + by rewrite lookup_delete_ne.
Qed.

Lemma row_update_dom record r (cols : list string) :
  dom r ⊆ list_to_set (C := gset string) cols → Forall (λ k, k ∈ cols) (keys record) →
  dom (row_update record r) ⊆ list_to_set cols.
Proof.
  unfold row_update. revert r.
  induction record as [|[k v] record IH]; intros r Hr Hkeys; [done|].
  unfold keys in Hkeys. rewrite fmap_cons in Hkeys.
  apply Forall_cons in Hkeys as [Hk Hkeys]. cbn [foldl]. apply IH; [|done].
  simpl in *. destruct (cell_of v) as [s|].
  - rewrite dom_insert. apply (elem_of_list_to_set (C := gset string)) in Hk. set_solver.
  - rewrite dom_delete. set_solver.
Qed.

Lemma columns_foldl_setcell df ixs (record : dict pyval) :
  Forall (λ k, k ∈ columns df) (keys record) →
  columns (foldl (λ d kv, df_loc_setcell d ixs kv.1 (cell_of kv.2)) df record)
  = columns df.
Proof.
  revert df. induction record as [|[k v] record IH]; intros df Hkeys; [done|].
  unfold keys in Hkeys. rewrite fmap_cons in Hkeys.
  apply Forall_cons in Hkeys as [Hk Hkeys]. cbn [foldl fst snd].
  assert (columns (df_loc_setcell df ixs k (cell_of v)) = columns df) as Hcols.
  { simpl. by rewrite bool_decide_eq_true_2. }
  rewrite IH; [exact Hcols|]. eapply Forall_impl; [exact Hkeys|].
  intros c Hc. cbv beta. by rewrite Hcols.
Qed.

Lemma rows_foldl_setcell df ixs (record : dict pyval) :
  rows (foldl (λ d kv, df_loc_setcell d ixs kv.1 (cell_of kv.2)) df record)
  = (λ lr, if bool_decide (lr.1 ∈ ixs) then (lr.1, row_update record lr.2) else lr)
      <$> rows df.
Proof.
  revert df. induction record as [|[k v] record IH]; intros df.
  - simpl. rewrite <- (list_fmap_id (rows df)) at 1. apply list_fmap_ext.
    intros i [l r] _. simpl. by case_bool_decide.
  - cbn [foldl]. rewrite IH. simpl. rewrite <- list_fmap_compose.
    apply list_fmap_ext. intros i [l r] _. simpl.
    destruct (bool_decide (l ∈ ixs)) eqn:Hl; simpl; rewrite Hl; done.
Qed.

Lemma keys_in_with_columns df cols :
  Forall (λ k, k ∈ columns (with_columns df cols)) cols.
Proof.
  apply Forall_forall. intros c Hc. simpl. apply elem_of_app.
  destruct (decide (c ∈ columns df)); [by left|right].
  by apply new_columns_elem_of.
Qed.

Lemma columns_frame_after_update df ixs record :
  columns (frame_after_update df ixs record) = columns (with_columns df (keys record)).
Proof. unfold frame_after_update. apply columns_foldl_setcell, keys_in_with_columns. Qed.

Lemma rows_frame_after_update df ixs record :
  rows (frame_after_update df ixs record)
  = (λ lr, if bool_decide (lr.1 ∈ ixs) then (lr.1, row_update record lr.2) else lr)
      <$> rows df.
Proof. unfold frame_after_update. by rewrite rows_foldl_setcell. Qed.

Lemma frame_after_update_is_table self tname df ixs record :
  is_table self tname df → schema_accepts self df (keys record) →
  is_table
    (with_table tname (frame_after_update df ixs record)
       (columns (with_columns df (keys record))) self)
    tname (frame_after_update df ixs record).
Proof.
  intros Htable Hacc.
  destruct (with_columns_accepted self tname df (keys record) Htable Hacc)
    as [_ _ Hid Hnames Hcells].
  split.
  - apply with_table_db.
  - rewrite columns_frame_after_update. apply with_table_schemas.
  - by rewrite columns_frame_after_update.
  - by rewrite columns_frame_after_update.
  - rewrite columns_frame_after_update, rows_frame_after_update.
    apply Forall_fmap. eapply Forall_impl; [exact Hcells|].
    intros [l r] Hr. simpl in *. case_bool_decide; [|done]. simpl.
    apply row_update_dom; [done|]. apply keys_in_with_columns.
Qed.

Lemma for_each_setcell tname ixs (record : dict pyval) df self :
  _db self !! tname = Some df →
  for_each record
    (λ kv, do! dataframe := db_getitem tname in
           modify (set_db <[tname := df_loc_setcell dataframe ixs kv.1 (cell_of kv.2)]>))
    self
  = (set_db <[tname := foldl (λ d kv, df_loc_setcell d ixs kv.1 (cell_of kv.2)) df record]>
       self, Ok tt).
Proof.
  revert df self. induction record as [|[k v] record IH]; intros df self Hdf.
  - simpl. unfold ret. f_equal. destruct self. unfold set_db. simpl in *.
    by rewrite insert_id.
  - cbn [for_each foldl]. rewrite bind_assoc.
    rewrite (bind_ok _ _ _ _ _ (db_getitem_found tname df self Hdf)).
    rewrite bind_modify.
    rewrite (IH (df_loc_setcell df ixs k (cell_of v))).
    + f_equal. destruct self. unfold set_db. simpl. by rewrite insert_insert_eq.
    + destruct self. simpl. apply lookup_insert_eq.
Qed.

Lemma length_checked conditions : length (checked conditions) = length conditions.
Proof. unfold checked. apply length_fmap. Qed.

Lemma selects_by_label_refl df : selects_by_label df df.
Proof. split; [done|]. exists (λ _, True). tauto. Qed.

Lemma selects_by_label_trans df1 df2 df3 :
  selects_by_label df1 df2 → selects_by_label df2 df3 → selects_by_label df1 df3.
Proof.
  intros [Hc1 [P1 H1]] [Hc2 [P2 H2]]. split; [congruence|].
  exists (λ l, P1 l ∧ P2 l). intros lr. rewrite H2, H1. tauto.
Qed.

Lemma df_getitem_mask_selects df m found :
  df_getitem_mask df m = Ok found → selects_by_label df found.
Proof.
  unfold df_getitem_mask. case_match; [|done]. intros [= <-]. split; [done|].
  exists (λ l, mask_get l m = Some true). intros lr. simpl.
  rewrite list_elem_of_filter. tauto.
Qed.

(** A row of the table is in the selection exactly when its label is. *)
Lemma selects_by_label_index df found l r :
  selects_by_label df found → (l, r) ∈ rows df →
  l ∈ index found ↔ (l, r) ∈ rows found.
Proof.
  intros [_ [P HP]] Hin. split.
  - intros Hl. apply list_elem_of_fmap in Hl as ([l0 r0] & -> & Hin0).
    apply HP in Hin0 as [_ Hp]. apply HP. by split.
  - intros Hf. apply list_elem_of_fmap. by exists (l, r).
Qed.

Section Update.
Variable str_match : string → option string → bool.

Lemma find_frame_as_args tname where_ where_not cols self :
  str_condition where_ → str_condition where_not →
  find_frame str_match tname (as_args (checked where_)) (as_args (checked where_not))
    cols self
  = find_frame str_match tname where_ where_not cols self.
Proof.
  intros Hw Hn.
  destruct (_check_conditions_str where_ Hw) as [Hw1 Hw2].
  destruct (_check_conditions_str where_not Hn) as [Hn1 Hn2].
  unfold find_frame. by rewrite Hw1, Hw2, Hn1, Hn2.
Qed.

(** [find] as [upsert] and [delete] call it, with the conditions they have
    checked, is [find] with the conditions of the caller. *)
Lemma find_as_args tname where_ where_not cols astype self :
  str_condition where_ → str_condition where_not →
  find str_match (lower tname) (as_args (checked where_)) (as_args (checked where_not))
    cols astype self
  = find str_match tname where_ where_not cols astype self.
Proof.
  intros Hw Hn. unfold find. rewrite _check_tname_lower.
  destruct (_check_tname tname true self) as [s [t|e]]; [|done].
  unfold bind. by rewrite find_frame_as_args.
Qed.

Lemma find_dataframe_inv self tname df where_ where_not cols self' found :
  _db self !! lower tname = Some df →
  find str_match tname where_ where_not cols (AsStr "dataframe") self
  = (self', Ok (OutFrame found)) →
  find_frame str_match (lower tname) where_ where_not cols self = (self', Ok found).
Proof.
  intros Hdf. rewrite (find_on_table str_match self tname df) by done.
  unfold bind. destruct (find_frame _ _ _ _ _ self) as [s [d|e]]; [|done].
  rewrite _output_frame_as_dataframe. by intros [= -> ->].
Qed.

(** Without a projection, [find] selects rows of the table by their
    labels. *)
Lemma find_frame_selects self tname df where_ where_not self' found :
  _db self !! tname = Some df →
  find_frame str_match tname where_ where_not [] self = (self', Ok found) →
  selects_by_label df found.
Proof.
  intros Hdf. unfold find_frame.
  destruct (_check_conditions where_) as [w|e]; [|done]. rewrite bind_lift_ok.
  destruct (_check_conditions where_not) as [wn|e]; [|done]. rewrite bind_lift_ok.
  rewrite (bind_ok _ _ _ _ _ (db_getitem_found tname df self Hdf)).
  change ((0 <? length (@nil string))%nat && (0 <? df_len df)) with false.
  cbv iota. rewrite bind_ret.
  assert (∃ df1, (if (0 <? length w)%nat
                  then lift (try! m := _get_condition_mask str_match df w in
                             df_getitem_mask df m)
                  else ret df) self = (self, df1)
                 ∧ ∀ d, df1 = Ok d → selects_by_label df d) as (r1 & Hr1 & Hsel1).
  { destruct (0 <? length w)%nat.
    - eexists. split; [done|]. intros d Hd.
      destruct (_get_condition_mask str_match df w) as [m|e]; [|done].
      by apply df_getitem_mask_selects in Hd.
    - eexists. split; [done|]. intros d [= <-]. apply selects_by_label_refl. }
  destruct r1 as [d1|e]; [|by rewrite (bind_raise _ _ _ _ _ Hr1)].
  rewrite (bind_ok _ _ _ _ _ Hr1).
  assert (∃ df2, (if (0 <? length wn)%nat
                  then lift (try! m := _get_condition_mask str_match d1 wn in
                             df_getitem_mask d1 (mask_not m))
                  else ret d1) self = (self, df2)
                 ∧ ∀ d, df2 = Ok d → selects_by_label d1 d) as (r2 & Hr2 & Hsel2).
  { destruct (0 <? length wn)%nat.
    - eexists. split; [done|]. intros d Hd.
      destruct (_get_condition_mask str_match d1 wn) as [m|e]; [|done].
      by apply df_getitem_mask_selects in Hd.
    - eexists. split; [done|]. intros d [= <-]. apply selects_by_label_refl. }
  destruct r2 as [d2|e]; [|by rewrite (bind_raise _ _ _ _ _ Hr2)].
  rewrite (bind_ok _ _ _ _ _ Hr2). unfold ret. intros [= _ <-].
  eapply selects_by_label_trans; [by apply Hsel1|by apply Hsel2].
Qed.

(** The tables after an [upsert] that finds rows to update. *)
Lemma upsert_update_state uuid4 tname record where_ where_not cols astype self df found :
  is_table self (lower tname) df →
  str_record record →
  schema_accepts self df (keys record) →
  str_condition where_ → str_condition where_not →
  where_ ≠ [] ∨ where_not ≠ [] →
  find str_match tname where_ where_not [] (AsStr "dataframe") self
  = (self, Ok (OutFrame found)) →
  rows found ≠ [] →
  same_tables
    (with_table (lower tname) (frame_after_update df (index found) record)
       (columns (with_columns df (keys record))) self)
    (upsert str_match uuid4 tname record where_ where_not cols astype self).1.
Proof.
  intros Htable Hstr Hacc Hw Hwn Hne Hfind Hfound.
  pose proof (table_stored _ _ _ Htable) as Hdf.
  unfold upsert.
  rewrite (bind_ok _ _ _ _ _ (_check_tname_found self tname false df Hdf)).
  destruct (_check_conditions_str where_ Hw) as [-> _].
  destruct (_check_conditions_str where_not Hwn) as [-> _].
  rewrite !bind_lift_ok, bind_gets.
  rewrite (_check_dict_type_str_record record _ Hstr), bind_lift_ok.
  assert ((0 <? length (checked where_))%nat || (0 <? length (checked where_not))%nat
          = true) as ->.
  { rewrite !length_checked. destruct Hne as [Hne|Hne].
    - destruct where_; [done|]. done.
    - destruct where_not; [done|]. apply orb_true_r. }
  rewrite <- (find_as_args tname where_ where_not [] (AsStr "dataframe") self Hw Hwn) in Hfind.
  rewrite (bind_ok _ _ _ _ _ Hfind).
  change (frame_of (OutFrame found)) with (Ok found). rewrite bind_lift_ok. cbv zeta.
  assert ((length (index found) =? 0)%nat = false) as ->.
  { unfold index. rewrite length_fmap. destruct (rows found); [done|]. done. }
  rewrite (bind_ok _ _ _ _ _ (_update_schema_accepted self (lower tname) df (keys record)
                                Htable Hacc)).
  rewrite (bind_ok _ _ _ _ _ (for_each_setcell (lower tname) (index found) record _ _
                                (with_table_db _ _ _ _))).
  rewrite set_db_with_table.
  fold (frame_after_update df (index found) record).
  destruct (save_if_auto_run
              (with_table (lower tname) (frame_after_update df (index found) record)
                 (columns (with_columns df (keys record))) self))
    as (self' & Hsave & Hsame).
  rewrite (bind_ok _ _ _ _ _ Hsave).
  assert (_db self' !! lower tname = Some (frame_after_update df (index found) record))
    as Hdf'.
  { destruct Hsame as (-> & _). apply with_table_db. }
  rewrite (bind_ok _ _ _ _ _ (db_getitem_found _ _ _ Hdf')).
  destruct (0 <? length cols)%nat.
  - destruct (df_getitem_cols _ cols) as [d|e].
    + rewrite bind_lift_ok. by rewrite _output_state.
    + by rewrite bind_lift_raise.
  - rewrite bind_ret. by rewrite _output_state.
Qed.

End Update.

(** ** The identifiers under the other writes *)

(** The other writes keep the identifiers: an update whose record does not
    name the reserved column, and the removal of rows. *)
Lemma unique_ids_frame_after_update df ixs record :
  NoDup (keys record) → _id_colname ∉ keys record →
  unique_ids df → unique_ids (frame_after_update df ixs record).
Proof.
  intros Hnd Hno [Hsome Hids]. unfold unique_ids.
  rewrite rows_frame_after_update.
  assert (∀ lr : Z * row,
            (if bool_decide (lr.1 ∈ ixs) then (lr.1, row_update record lr.2) else lr).2
              !! _id_colname = lr.2 !! _id_colname) as Hsame.
  { intros [l r]. simpl. case_bool_decide; [|done]. simpl.
    rewrite row_update_lookup by done.
    destruct (get _id_colname record) as [v|] eqn:Hget; [|done].
    exfalso. apply Hno. by eapply get_Some_in. }
  split.
  - apply Forall_fmap. eapply Forall_impl; [exact Hsome|].
    intros lr Hlr. simpl. by rewrite Hsame.
  - rewrite <- list_fmap_compose.
    erewrite list_fmap_ext; [exact Hids|]. intros i lr _. simpl. apply Hsame.
Qed.

Lemma unique_ids_df_drop_labels df ls :
  unique_ids df → unique_ids (df_drop_labels df ls).
Proof.
  intros [Hsome Hids]. unfold unique_ids, df_drop_labels. simpl.
  induction (rows df) as [|lr rs IH]; [done|].
  apply Forall_cons in Hsome as [Hlr Hsome].
  rewrite fmap_cons in Hids. apply NoDup_cons in Hids as [Hnew Hids].
  destruct (IH Hsome Hids) as [IH1 IH2].
  destruct (decide (lr.1 ∉ ls)) as [Hl|Hl].
  - rewrite filter_cons_True by done. split.
    + by apply Forall_cons.
    + rewrite fmap_cons. apply NoDup_cons. split; [|done].
      intros Hin. apply Hnew.
      apply list_elem_of_fmap in Hin as (lr' & -> & Hin).
      apply list_elem_of_filter in Hin as [_ Hin].
      by apply (list_elem_of_fmap_2 (λ lr : Z * row, lr.2 !! _id_colname)).
  - by rewrite filter_cons_False.
Qed.

(** ** C8: [upsert] on rows that match *)

(** C8.  When [find] with the conditions of the call returns at least one
    row, [upsert] keeps the number of rows of the table and the place and
    label of every row; a row that [find] returned holds, in every column
    that the record names, the value of the record, and in every other
    column (the reserved one among them, when the record does not name it)
    what it held before; a row that [find] did not return is unchanged.  The
    table is in its normal form, the record holds [str] values under
    distinct keys that the schema accepts, and the conditions are on [str]
    values. *)
Theorem upsert_updates_matched_rows str_match uuid4 tname record where_ where_not
    cols astype self df found :
  is_table self (lower tname) df →
  str_record record → NoDup (keys record) →
  schema_accepts self df (keys record) →
  str_condition where_ → str_condition where_not →
  where_ ≠ [] ∨ where_not ≠ [] →
  find str_match tname where_ where_not [] (AsStr "dataframe") self
  = (self, Ok (OutFrame found)) →
  rows found ≠ [] →
  ∃ df',
    is_table (upsert str_match uuid4 tname record where_ where_not cols astype self).1
      (lower tname) df'
    ∧ length (rows df') = length (rows df)
    ∧ ∀ i l r, rows df !! i = Some (l, r) →
        ∃ r', rows df' !! i = Some (l, r')
          ∧ if bool_decide ((l, r) ∈ rows found)
            then ∀ c, r' !! c = match get c record with
                                | Some v => cell_of v
                                | None => r !! c
                                end
            else r' = r.
Proof.
  intros Htable Hstr Hkeys Hacc Hw Hwn Hne Hfind Hfound.
  pose proof (upsert_update_state str_match uuid4 tname record where_ where_not cols astype
                self df found Htable Hstr Hacc Hw Hwn Hne Hfind Hfound) as Hsame.
  pose proof (table_stored _ _ _ Htable) as Hdf.
  pose proof (find_frame_selects str_match self (lower tname) df where_ where_not self found
                Hdf (find_dataframe_inv str_match self tname df _ _ _ _ _ Hdf Hfind))
    as Hsel.
  exists (frame_after_update df (index found) record). split; [|split].
  - eapply same_tables_is_table; [exact Hsame|].
    by apply frame_after_update_is_table.
  - rewrite rows_frame_after_update. apply length_fmap.
  - intros i l r Hi. rewrite rows_frame_after_update, list_lookup_fmap, Hi. simpl.
    assert (bool_decide (l ∈ index found) = bool_decide ((l, r) ∈ rows found)) as ->.
    { apply bool_decide_ext. apply (selects_by_label_index df found l r Hsel).
      by eapply list_elem_of_lookup_2. }
    case_bool_decide.
    + eexists. split; [done|]. intros c. by apply row_update_lookup.
    + by eexists.
Qed.

(** In the table of two rows, [upsert] with the record [b = "new"],
    [c = "z"] and the condition [a = "x"] rewrites the first row, which keeps
    its identifier and its [a], and leaves the second row as it was. *)
Lemma upsert_updates_matched_rows_witness :
  ∃ df',
    is_table
      (upsert Examples.prefix_match "id2" "T" [("b", PStr "new"); ("c", PStr "z")]
         [("a", CVal (PStr "x"))] [] [] AsNone Examples.two_rows_db).1 "t" df'
    ∧ length (rows df') = 2%nat
    ∧ (∃ r', rows df' !! 0%nat = Some (0, r')
             ∧ r' !! "b" = Some "new" ∧ r' !! "c" = Some "z"
             ∧ r' !! "a" = Some "x" ∧ r' !! "__id__" = Some "id0")
    ∧ rows df' !! 1%nat
      = Some (1, {[ "__id__" := "id1"; "a" := "y"; "b" := "q" ]}).
Proof.
  pose proof (upsert_updates_matched_rows Examples.prefix_match "id2" "T"
                [("b", PStr "new"); ("c", PStr "z")] [("a", CVal (PStr "x"))] [] []
                AsNone Examples.two_rows_db Examples.two_rows
                (mkDF ["__id__"; "a"; "b"]
                   [(0, {[ "__id__" := "id0"; "a" := "x"; "b" := "p" ]})])) as Hup.
  destruct Hup as (df' & Htable & Hlen & Hrows).
  - exact two_rows_is_table.
  - repeat constructor.
  - by_evaluation.
  - reflexivity.
  - repeat constructor.
  - constructor.
  - left. discriminate.
  - reflexivity.
  - discriminate.
  - exists df'. split; [exact Htable|]. split; [exact Hlen|]. split.
    + destruct (Hrows 0%nat 0 {[ "__id__" := "id0"; "a" := "x"; "b" := "p" ]} eq_refl)
        as (r' & Hr' & Hcells).
      rewrite bool_decide_eq_true_2 in Hcells by (by_evaluation).
      exists r'. split; [exact Hr'|].
      rewrite !Hcells. repeat split; reflexivity.
    + destruct (Hrows 1%nat 1 {[ "__id__" := "id1"; "a" := "y"; "b" := "q" ]} eq_refl)
        as (r' & Hr' & Hcells).
      rewrite bool_decide_eq_false_2 in Hcells by (by_evaluation).
      by rewrite Hr', Hcells.
Defined.

(** ** C3: a column that the schema does not have *)

Lemma table_cell_outside self tname df c i l r :
  is_table self tname df → c ∉ columns df → rows df !! i = Some (l, r) → r !! c = None.
Proof.
  intros [_ _ _ _ Hcells] Hc Hi.
  rewrite Forall_lookup in Hcells. specialize (Hcells i (l, r) Hi). simpl in Hcells.
  apply not_elem_of_dom. intros Hd. apply Hcells in Hd.
  by apply elem_of_list_to_set in Hd.
Qed.

Lemma column_added_insert self tname df row c :
  is_table self tname df → default_index df →
  c ∈ keys row → c ∉ columns df →
  column_added c df (frame_after_insert df row) [].
Proof.
  intros Htable Hidx Hc Hno. split.
  - exists (new_columns (columns df) (keys row)).
    split; [apply columns_frame_after_insert|by apply new_columns_elem_of].
  - intros i l r Hi _. split; [|by eapply table_cell_outside].
    rewrite rows_frame_after_insert by (by apply default_index_fresh).
    by apply lookup_app_l_Some.
Qed.

Lemma column_added_update self tname df ixs record c :
  is_table self tname df →
  c ∈ keys record → c ∉ columns df →
  column_added c df (frame_after_update df ixs record) ixs.
Proof.
  intros Htable Hc Hno. split.
  - exists (new_columns (columns df) (keys record)).
    split; [apply columns_frame_after_update|by apply new_columns_elem_of].
  - intros i l r Hi Hl. split; [|by eapply table_cell_outside].
    rewrite rows_frame_after_update, list_lookup_fmap, Hi. simpl.
    by rewrite bool_decide_eq_false_2.
Qed.

Lemma insert_refused uuid4 tname record cols astype self df c :
  is_table self (lower tname) df → str_record record →
  dynamic_schema (opts self) = false →
  c ∈ keys record → c ∉ columns df →
  insert uuid4 tname record cols astype self = (self, Raise (ValueError UnknownColumn)).
Proof.
  intros Htable Hstr Hdyn Hc Hno. unfold insert.
  rewrite (bind_ok _ _ _ _ _ (_check_tname_found self tname false df
                                (table_stored _ _ _ Htable))).
  rewrite bind_gets, (_check_dict_type_str_record record _ Hstr), bind_lift_ok.
  unfold insert_row. rewrite bind_assoc, bind_gets. cbv zeta. rewrite bind_assoc.
  rewrite (bind_raise _ _ _ _ _
             (_update_schema_refused self (lower tname) df _ c Htable Hdyn
                (record_new_keys uuid4 _ record c Hc) Hno)).
  done.
Qed.

Section C3.
Variable str_match : string → option string → bool.

Lemma upsert_without_conditions_state uuid4 tname record cols astype self :
  (upsert str_match uuid4 tname record [] [] cols astype self).1
  = (insert uuid4 tname record cols (AsStr "series") self).1.
Proof.
  rewrite upsert_without_conditions_unfold. unfold bind.
  destruct (insert uuid4 tname record cols (AsStr "series") self) as [s [out|e]]; [|done].
  apply _output_state.
Qed.

Lemma upsert_update_refused uuid4 tname record where_ where_not cols astype self df found c :
  is_table self (lower tname) df →
  str_record record →
  dynamic_schema (opts self) = false →
  c ∈ keys record → c ∉ columns df →
  str_condition where_ → str_condition where_not →
  where_ ≠ [] ∨ where_not ≠ [] →
  find str_match tname where_ where_not [] (AsStr "dataframe") self
  = (self, Ok (OutFrame found)) →
  rows found ≠ [] →
  upsert str_match uuid4 tname record where_ where_not cols astype self
  = (self, Raise (ValueError UnknownColumn)).
Proof.
  intros Htable Hstr Hdyn Hc Hno Hw Hwn Hne Hfind Hfound.
  pose proof (table_stored _ _ _ Htable) as Hdf.
  unfold upsert.
  rewrite (bind_ok _ _ _ _ _ (_check_tname_found self tname false df Hdf)).
  destruct (_check_conditions_str where_ Hw) as [-> _].
  destruct (_check_conditions_str where_not Hwn) as [-> _].
  rewrite !bind_lift_ok, bind_gets.
  rewrite (_check_dict_type_str_record record _ Hstr), bind_lift_ok.
  assert ((0 <? length (checked where_))%nat || (0 <? length (checked where_not))%nat
          = true) as ->.
  { rewrite !length_checked. destruct Hne as [Hne|Hne].
    - destruct where_; [done|]. done.
    - destruct where_not; [done|]. apply orb_true_r. }
  rewrite <- (find_as_args str_match tname where_ where_not [] (AsStr "dataframe") self Hw Hwn)
    in Hfind.
  rewrite (bind_ok _ _ _ _ _ Hfind).
  change (frame_of (OutFrame found)) with (Ok found). rewrite bind_lift_ok. cbv zeta.
  assert ((length (index found) =? 0)%nat = false) as ->.
  { unfold index. rewrite length_fmap. destruct (rows found); [done|]. done. }
  by rewrite (bind_raise _ _ _ _ _
                (_update_schema_refused self (lower tname) df _ c Htable Hdyn Hc Hno)).
Qed.

End C3.

(** C3, as stated, fails for an [upsert] that updates rows: the rows it
    updates existed before and hold the value of the record, not null, in
    the new column.  In the table of two rows, [upsert] with the record
    [c = "z"] and the condition [a = "x"] adds the column [c] to the schema
    and leaves ["z"] in the first row. *)
Lemma upsert_writes_new_column_of_matched_rows :
  let self' := (upsert Examples.prefix_match "id2" "T" [("c", PStr "z")]
                  [("a", CVal (PStr "x"))] [] [] AsNone Examples.two_rows_db).1 in
  let df' := mkDF ["__id__"; "a"; "b"; "c"]
               [(0, {[ "__id__" := "id0"; "a" := "x"; "b" := "p"; "c" := "z" ]});
                (1, {[ "__id__" := "id1"; "a" := "y"; "b" := "q" ]})] in
  dynamic_schema (opts Examples.two_rows_db) = true
  ∧ _db Examples.two_rows_db !! "t" = Some Examples.two_rows
  ∧ ("c" ∉ columns Examples.two_rows)
  ∧ _schemas self' !! "t" = Some ["__id__"; "a"; "b"; "c"]
  ∧ _db self' !! "t" = Some df'
  ∧ ¬ (∀ i l r, rows Examples.two_rows !! i = Some (l, r) →
         ∃ r', rows df' !! i = Some (l, r') ∧ r' !! "c" = None).
Proof.
  cbv zeta. split; [reflexivity|]. split; [reflexivity|].
  split; [by_evaluation|]. split; [by_evaluation|]. split; [by_evaluation|].
  intros Hnull.
  destruct (Hnull 0%nat 0 {[ "__id__" := "id0"; "a" := "x"; "b" := "p" ]} eq_refl)
    as (r' & Hr' & Hc).
  injection Hr' as <-. vm_compute in Hc. discriminate.
Qed.

(** ** Rows found by the value of a column *)

Section ByValue.
Variable str_match : string → option string → bool.

Lemma find_frame_by_value self tname df c v :
  _db self !! tname = Some df → default_index df → c ∈ columns df →
  find_frame str_match tname [(c, CList [PStr v])] [] [] self
  = (self, Ok (mkDF (columns df)
                 (filter (λ lr, cell_eq (PStr v) (lr.2 !! c) = true) (rows df)))).
Proof.
  intros Hdf Hidx Hc. unfold find_frame.
  change (_check_conditions [(c, CList [PStr v])]) with (Ok [(c, [PStr v])]).
  change (_check_conditions []) with (Ok ([] : dict (list pyval))).
  rewrite !bind_lift_ok.
  rewrite (bind_ok _ _ _ _ _ (db_getitem_found tname df self Hdf)).
  change ((0 <? length (@nil string))%nat && (0 <? df_len df)) with false.
  cbv iota. rewrite bind_ret.
  change (0 <? length [(c, [PStr v])])%nat with true.
  change (0 <? length (@nil (string * list pyval)))%nat with false. cbv iota.
  unfold _get_condition_mask. cbn [_get_condition_mask_loop].
  rewrite bool_decide_eq_false_2 by (by intros Hn).
  cbn [isnull]. cbv iota.
  rewrite mask_and_true_col_test by done.
  cbn [rbind].
  rewrite df_getitem_mask_col_test by (by apply default_index_NoDup).
  by rewrite bind_lift_ok, bind_ret.
Qed.

Lemma _output_as_is records self :
  astype (opts self) = AsNone →
  _output records false AsNone self = (self, Ok records).
Proof.
  intros Hnone. unfold _output, self_astype. rewrite bind_gets, Hnone. reflexivity.
Qed.

(** [delete] by the value of one column, on a table with its default index
    in a database without a configured output type. *)
Lemma delete_by_value self tname df c v :
  _db self !! lower tname = Some df → default_index df → c ∈ columns df →
  astype (opts self) = AsNone →
  ∃ self',
    delete str_match tname [(c, CVal (PStr v))] [] [] AsNone self
    = (self', Ok (OutFrame
                    (mkDF (columns df)
                       (filter (λ lr, cell_eq (PStr v) (lr.2 !! c) = true) (rows df)))))
    ∧ same_tables
        (set_db <[lower tname :=
                    df_drop_labels df
                      (filter (λ lr, cell_eq (PStr v) (lr.2 !! c) = true) (rows df)).*1]>
           self) self'.
Proof.
  intros Hdf Hidx Hc Hnone. unfold delete.
  rewrite (bind_ok _ _ _ _ _ (_check_tname_found self tname false df Hdf)).
  change (_check_conditions [(c, CVal (PStr v))]) with (Ok [(c, [PStr v])]).
  change (_check_conditions []) with (Ok ([] : dict (list pyval))).
  rewrite !bind_lift_ok.
  change (as_args [(c, [PStr v])]) with [(c, CList [PStr v])].
  change (as_args []) with (@nil (string * cond_arg)).
  assert (find str_match (lower tname) [(c, CList [PStr v])] [] [] (AsType "DataFrame") self
          = (self, Ok (OutFrame
                         (mkDF (columns df)
                            (filter (λ lr, cell_eq (PStr v) (lr.2 !! c) = true) (rows df))))))
    as Hfind.
  { rewrite (find_on_table str_match self (lower tname) df) by (by rewrite lower_idemp).
    rewrite lower_idemp.
    rewrite (bind_ok _ _ _ _ _ (find_frame_by_value self (lower tname) df c v Hdf Hidx Hc)).
    apply _output_frame_as_DataFrame. }
  rewrite (bind_ok _ _ _ _ _ Hfind).
  cbn [frame_of]. rewrite bind_lift_ok.
  rewrite (bind_ok _ _ _ _ _ (db_getitem_found _ _ _ Hdf)).
  rewrite bind_modify.
  match goal with |- context [save_if_auto ;; _] =>
    match goal with |- context [bind save_if_auto _ ?s] =>
      destruct (save_if_auto_run s) as (self' & Hsave & Hsame)
    end
  end.
  rewrite (bind_ok _ _ _ _ _ Hsave).
  exists self'. split; [|exact Hsame].
  apply _output_as_is. destruct Hsame as (_ & _ & _ & ->). by destruct self.
Qed.

End ByValue.

(** ** The record that [upsert] synthesizes *)

Lemma Forall_set {V} (P : string * V → Prop) k v (d : dict V) :
  Forall P d → P (k, v) → Forall P (set k v d).
Proof.
  intros Hd Hkv. induction Hd as [|[k' v'] d Hk' Hd IH]; simpl.
  - by apply Forall_singleton.
  - case_bool_decide; apply Forall_cons; split; done.
Qed.

Lemma synthesized_str_record record (where_ : dict cond_arg) :
  str_record record → str_condition where_ →
  Forall (λ kv, arg_values kv.2 ≠ []) where_ →
  str_record (synthesized record (checked where_)).
Proof.
  unfold synthesized, checked. revert record.
  induction where_ as [|[k a] where_ IH]; intros record Hrec Hstr Hne; [done|].
  apply Forall_cons in Hstr as [Ha Hstr]. apply Forall_cons in Hne as [Hna Hne].
  rewrite fmap_cons. cbn [foldl]. apply IH; [|done..].
  apply Forall_set; [done|]. simpl in *.
  destruct a as [v|[|v vs]]; simpl in *; [done|done|].
  by apply andb_prop in Ha as [-> _].
Qed.

Lemma synthesized_keys_NoDup record (where_ : dict (list pyval)) :
  NoDup (keys record) → NoDup (keys (synthesized record where_)).
Proof.
  unfold synthesized. revert record.
  induction where_ as [|[k vs] where_ IH]; intros record Hnd; [done|].
  cbn [foldl]. apply IH. by apply keys_set_NoDup.
Qed.

Lemma synthesized_keys record (where_ : dict (list pyval)) k :
  k ∈ keys record ∨ k ∈ keys where_ → k ∈ keys (synthesized record where_).
Proof.
  unfold synthesized. revert record.
  induction where_ as [|[k' vs] where_ IH]; intros record Hk.
  - destruct Hk as [Hk|Hk]; [done|]. by apply elem_of_nil in Hk.
  - cbn [foldl]. apply IH. unfold keys in Hk. rewrite fmap_cons in Hk.
    destruct Hk as [Hk|Hk].
    + left. by apply keys_set_mono.
    + apply elem_of_cons in Hk as [->|Hk]; [left; apply keys_set_elem_of|by right].
Qed.

Section NoMatch.
Variable str_match : string → option string → bool.

(** [upsert] when [find] returns no row: the synthesized record is inserted,
    then the tests of the conflict are run on the row that [insert]
    returns. *)
Lemma upsert_insert_run uuid4 tname record where_ where_not astype self df found :
  is_table self (lower tname) df →
  str_record record →
  str_condition where_ → str_condition where_not →
  where_ ≠ [] →
  Forall (λ kv, arg_values kv.2 ≠ []) where_ →
  schema_accepts self df (keys (default [] (_rowgens self !! lower tname))) →
  schema_accepts self df (keys (synthesized record (checked where_))) →
  find str_match tname where_ where_not [] (AsStr "dataframe") self
  = (self, Ok (OutFrame found)) →
  rows found = [] →
  ∃ self',
    same_tables
      (with_table (lower tname)
         (frame_after_insert df
            (record_new uuid4 (_rowgens self !! lower tname)
               (synthesized record (checked where_))))
         (columns (frame_after_insert df
                     (record_new uuid4 (_rowgens self !! lower tname)
                        (synthesized record (checked where_)))))
         self) self'
    ∧ upsert str_match uuid4 tname record where_ where_not [] astype self
      = (do! tests := lift (conflict_tests
                              (record_new uuid4 (_rowgens self !! lower tname)
                                 (synthesized record (checked where_)))
                              (checked where_not)) in
         if existsb id tests
         then
           do! _id := lift (series_getitem
                              (record_new uuid4 (_rowgens self !! lower tname)
                                 (synthesized record (checked where_)))
                              _id_colname) in
           delete str_match (lower tname) [(_id_colname, CVal (pyval_of _id))] [] []
             AsNone ;;
           raise (ValueError UpsertConflict)
         else
           _output (OutSeries (record_new uuid4 (_rowgens self !! lower tname)
                                 (synthesized record (checked where_))))
             false astype) self'.
Proof.
  intros Htable Hstr Hw Hwn Hne Hvals Hgen Hacc Hfind Hfound.
  pose proof (table_stored _ _ _ Htable) as Hdf.
  destruct (insert_run uuid4 (lower tname) (synthesized record (checked where_)) []
              (AsStr "series") self df) as (self' & Hins & Hsame).
  { by rewrite lower_idemp. }
  { by apply synthesized_str_record. }
  { by rewrite lower_idemp. }
  { done. }
  rewrite lower_idemp in Hins, Hsame.
  change (0 <? length (@nil string))%nat with false in Hins. cbv iota in Hins.
  rewrite bind_lift_ok, _output_series_as_series in Hins.
  exists self'. split; [exact Hsame|].
  unfold upsert.
  rewrite (bind_ok _ _ _ _ _ (_check_tname_found self tname false df Hdf)).
  destruct (_check_conditions_str where_ Hw) as [-> _].
  destruct (_check_conditions_str where_not Hwn) as [-> _].
  rewrite !bind_lift_ok, bind_gets.
  rewrite (_check_dict_type_str_record record _ Hstr), bind_lift_ok.
  assert ((0 <? length (checked where_))%nat = true) as ->.
  { rewrite length_checked. by destruct where_. }
  cbn [orb].
  rewrite <- (find_as_args str_match tname where_ where_not [] (AsStr "dataframe") self Hw Hwn)
    in Hfind.
  rewrite (bind_ok _ _ _ _ _ Hfind).
  cbn [frame_of]. rewrite bind_lift_ok. cbv zeta.
  assert ((length (index found) =? 0)%nat = true) as ->.
  { unfold index. by rewrite Hfound. }
  fold (synthesized record (checked where_)).
  rewrite (bind_ok _ _ _ _ _ Hins).
  cbn [series_of]. rewrite bind_lift_ok. reflexivity.
Qed.

End NoMatch.

(** ** The tests of the conflict *)

Lemma conflict_tests_ok (record_new : series) (where_not : dict (list pyval)) :
  Forall (λ kv, kv.1 ∈ keys record_new) where_not →
  conflict_tests record_new where_not
  = Ok ((λ kv, value_in (default None (get kv.1 record_new)) kv.2) <$> where_not).
Proof.
  intros Hkeys. unfold conflict_tests. apply rmap_ok.
  eapply Forall_impl; [exact Hkeys|]. intros [k vs] Hk. simpl in *.
  unfold series_getitem. destruct (get_in k record_new Hk) as [v ->]. done.
Qed.

Lemma conflict_tests_raises (record_new : series) (where_not : dict (list pyval)) :
  ¬ Forall (λ kv, kv.1 ∈ keys record_new) where_not →
  ∃ k, k ∈ keys where_not ∧ (k ∉ keys record_new)
       ∧ conflict_tests record_new where_not = Raise (KeyError k).
Proof.
  intros Hkeys. apply not_Forall_Exists in Hkeys; [|solve_decision].
  apply Exists_exists in Hkeys as ([k vs] & Hin & Hk). simpl in Hk.
  destruct (rmap_raises
              (λ kv : string * list pyval,
                 try! x := series_getitem record_new kv.1 in Ok (value_in x kv.2))
              where_not (k, vs) (KeyError k) Hin) as ([k' vs'] & e & Hin' & He & Hraise).
  { simpl. unfold series_getitem. destruct (get k record_new) as [v|] eqn:Hget; [|done].
    exfalso. apply Hk. by eapply get_Some_in. }
  simpl in He. unfold series_getitem in He.
  destruct (get k' record_new) as [v|] eqn:Hget; [done|]. simpl in He.
  injection He as <-. exists k'. split; [|split].
  - by apply (list_elem_of_fmap_2 fst _ (k', vs')).
  - by apply get_None_not_in.
  - exact Hraise.
Qed.

(** ** The inserted row is retracted *)

(** In the frame after an [insert] with an identifier new to the table, the
    rows with that identifier are the inserted row, and dropping it leaves
    the former rows. *)
Lemma rows_with_new_id df row uuid4 :
  default_index df →
  _id_colname ∈ columns df →
  get _id_colname row = Some (Some uuid4) →
  Some uuid4 ∉ ((λ lr : Z * Pandas.row, lr.2 !! _id_colname) <$> rows df) →
  (filter (λ lr, cell_eq (PStr uuid4) (lr.2 !! _id_colname) = true)
     (rows (frame_after_insert df row))).*1 = [df_len df]
  ∧ df_drop_labels (frame_after_insert df row) [df_len df] = with_columns df (keys row).
Proof.
  intros Hidx Hid Hrow Hfresh.
  pose proof (default_index_fresh df Hidx) as Hlabel.
  rewrite rows_frame_after_insert by done. split.
  - rewrite filter_app.
    assert (filter (λ lr : Z * Pandas.row,
                      cell_eq (PStr uuid4) (lr.2 !! _id_colname) = true) (rows df) = [])
      as ->.
    { clear Hlabel Hidx. induction (rows df) as [|[l r] rs IH]; [done|].
      rewrite fmap_cons in Hfresh. apply not_elem_of_cons in Hfresh as [Hne Hfresh].
      rewrite filter_cons_False; [by apply IH|]. simpl in *.
      destruct (r !! _id_colname) as [s|]; [|done]. simpl.
      rewrite bool_decide_eq_false_2; [done|]. congruence. }
    rewrite filter_cons_True; [done|]. simpl.
    rewrite series_row_lookup. rewrite bool_decide_eq_true_2.
    + rewrite Hrow. simpl. by rewrite bool_decide_eq_true_2.
    + rewrite columns_frame_after_insert. apply elem_of_app. by left.
  - unfold df_drop_labels. rewrite rows_frame_after_insert by done.
    rewrite columns_frame_after_insert. unfold with_columns. f_equal.
    rewrite filter_app. rewrite filter_cons_False by (simpl; set_solver).
    rewrite filter_nil, app_nil_r.
    clear Hfresh. unfold index in Hlabel.
    induction (rows df) as [|[l r] rs IH]; [done|].
    rewrite fmap_cons in Hlabel. apply not_elem_of_cons in Hlabel as [Hne Hlabel].
    rewrite filter_cons_True by (simpl; set_solver). f_equal. by apply IH.
Qed.

Lemma set_db_db f self : _db (set_db f self) = f (_db self).
Proof. by destruct self. Qed.

Lemma set_db_schemas f self : _schemas (set_db f self) = _schemas self.
Proof. by destruct self. Qed.

(** What [_output] returns depends on the options only. *)
Lemma _output_result records single astype self self' :
  opts self = opts self' →
  (_output records single astype self).2 = (_output records single astype self').2.
Proof.
  intros Hopts. unfold _output, bind, self_astype, gets, ret, raise.
  destruct astype; simpl; rewrite ?Hopts; repeat case_match; simplify_eq; done.
Qed.

(** ** C1: [upsert] that finds no row *)

(** The three outcomes of an [upsert] that finds no row: the conflict, the
    record returned, and [KeyError] from the tests of the conflict. *)
Lemma upsert_no_match_outcome str_match uuid4 tname record where_ where_not
    self df found :
  is_table self (lower tname) df → default_index df →
  astype (opts self) = AsNone →
  str_record record → NoDup (keys record) →
  str_condition where_ → str_condition where_not →
  where_ ≠ [] →
  Forall (λ kv, arg_values kv.2 ≠ []) where_ →
  schema_accepts self df (keys (default [] (_rowgens self !! lower tname))) →
  schema_accepts self df (keys (synthesized record (checked where_))) →
  Some uuid4 ∉ ((λ lr : Z * row, lr.2 !! _id_colname) <$> rows df) →
  find str_match tname where_ where_not [] (AsStr "dataframe") self
  = (self, Ok (OutFrame found)) →
  rows found = [] →
  ∀ astype,
  let record_new :=
    record_new uuid4 (_rowgens self !! lower tname) (synthesized record (checked where_)) in
  let out := upsert str_match uuid4 tname record where_ where_not [] astype self in
  (Forall (λ kv, kv.1 ∈ keys record_new) where_not →
   if existsb (λ kv, value_in (default None (get kv.1 record_new)) kv.2) (checked where_not)
   then out.2 = Raise (ValueError UpsertConflict)
        ∧ is_table out.1 (lower tname) (with_columns df (keys record_new))
   else out.2 = (_output (OutSeries record_new) false astype self).2
        ∧ is_table out.1 (lower tname) (frame_after_insert df record_new))
  ∧ (¬ Forall (λ kv, kv.1 ∈ keys record_new) where_not →
     ∃ k, k ∈ keys where_not ∧ (k ∉ keys record_new)
          ∧ out.2 = Raise (KeyError k)
          ∧ is_table out.1 (lower tname) (frame_after_insert df record_new)).
Proof.
  intros Htable Hidx Hnone Hstr Hkeys Hw Hwn Hne Hvals Hgen Hacc Hfresh Hfind Hfound.
  intros astype row out.
  destruct (upsert_insert_run str_match uuid4 tname record where_ where_not astype self df
              found Htable Hstr Hw Hwn Hne Hvals Hgen Hacc Hfind Hfound)
    as (s1 & Hsame & Hrun).
  fold row in Hsame, Hrun.
  assert (schema_accepts self df (keys row)) as Hacc_row.
  { by apply record_new_accepted. }
  assert (is_table s1 (lower tname) (frame_after_insert df row)) as Htable1.
  { eapply same_tables_is_table; [exact Hsame|]. by apply frame_after_insert_is_table. }
  assert (get _id_colname row = Some (Some uuid4)) as Hid.
  { apply record_new_id. by apply synthesized_keys_NoDup. }
  split.
  - intros Hall.
    assert (Forall (λ kv : string * list pyval, kv.1 ∈ keys row) (checked where_not))
      as Hall'.
    { unfold checked. apply Forall_fmap. eapply Forall_impl; [exact Hall|].
      intros [k a] Hk. exact Hk. }
    unfold out. rewrite Hrun. rewrite (conflict_tests_ok row _ Hall'), bind_lift_ok.
    assert (existsb id ((λ kv : string * list pyval,
                           value_in (default None (get kv.1 row)) kv.2)
                          <$> checked where_not)
            = existsb (λ kv, value_in (default None (get kv.1 row)) kv.2)
                (checked where_not)) as ->.
    { clear. induction (checked where_not) as [|kv l IH]; [reflexivity|].
      rewrite fmap_cons. cbn [existsb]. by rewrite IH. }
    destruct (existsb _ (checked where_not)).
    + unfold series_getitem. rewrite Hid, bind_lift_ok. cbn [pyval_of].
      destruct (delete_by_value str_match s1 (lower tname) (frame_after_insert df row)
                  _id_colname uuid4) as (s2 & Hdel & Hsame2).
      { rewrite lower_idemp. by destruct Htable1. }
      { by apply default_index_after_insert. }
      { by destruct Htable1. }
      { destruct Hsame as (_ & _ & _ & ->). by destruct self. }
      rewrite (bind_ok _ _ _ _ _ Hdel). rewrite lower_idemp in Hsame2.
      unfold raise. split; [done|]. simpl.
      destruct (rows_with_new_id df row uuid4 Hidx (table_has_id _ _ _ Htable) Hid Hfresh)
        as [Hix Hdrop].
      rewrite Hix, Hdrop in Hsame2.
      eapply same_tables_is_table; [exact Hsame2|].
      destruct (with_columns_accepted self (lower tname) df (keys row) Htable Hacc_row)
        as [_ _ Hid' Hnames' Hcells'].
      destruct Hsame as (Hdb1 & Hs1 & _ & _).
      split; [| |exact Hid'|exact Hnames'|exact Hcells'].
      * rewrite set_db_db. apply lookup_insert_eq.
      * rewrite set_db_schemas, Hs1, with_table_schemas.
        by rewrite columns_frame_after_insert.
    + split.
      * apply _output_result. by destruct Hsame as (_ & _ & _ & ->).
      * by rewrite _output_state.
  - intros Hsome.
    destruct (conflict_tests_raises row (checked where_not)) as (k & Hk & Hno & Hraise).
    { intros Hall. apply Hsome. unfold checked in Hall.
      apply Forall_fmap in Hall. eapply Forall_impl; [exact Hall|].
      intros [k a] Hk. exact Hk. }
    exists k. split; [|split; [done|]].
    + unfold checked in Hk. by rewrite keys_fmap_values in Hk.
    + unfold out. rewrite Hrun, Hraise, bind_lift_raise. done.
Qed.

(** C1.  What [upsert] does when [find] returns no row for its conditions,
    on a table in its normal form with its default index, in a database
    without a configured output type, for a record and conditions on [str]
    values and an identifier new to the table.  The record synthesized from
    the record of the call and the first value of every [where] entry is
    inserted.  Then:

    - when every column of [where_not] is a key of the inserted record and
      one of the entries holds of it, the call raises the conflict and the
      table is left with its former rows;
    - when every column of [where_not] is a key of the inserted record and
      no entry holds of it, the inserted row stays and the record is
      returned;
    - when some column of [where_not] is not a key of the inserted record,
      the call raises [KeyError] for such a column and the inserted row
      stays in the table, whether or not another entry holds of it: here
      the code departs from the claim. *)
Theorem upsert_that_finds_no_row str_match uuid4 tname record where_ where_not
    self df found :
  is_table self (lower tname) df → default_index df →
  astype (opts self) = AsNone →
  str_record record → NoDup (keys record) →
  str_condition where_ → str_condition where_not →
  where_ ≠ [] →
  Forall (λ kv, arg_values kv.2 ≠ []) where_ →
  schema_accepts self df (keys (default [] (_rowgens self !! lower tname))) →
  schema_accepts self df (keys (synthesized record (checked where_))) →
  Some uuid4 ∉ ((λ lr : Z * row, lr.2 !! _id_colname) <$> rows df) →
  find str_match tname where_ where_not [] (AsStr "dataframe") self
  = (self, Ok (OutFrame found)) →
  rows found = [] →
  ∀ astype,
  let record_new :=
    record_new uuid4 (_rowgens self !! lower tname) (synthesized record (checked where_)) in
  let out := upsert str_match uuid4 tname record where_ where_not [] astype self in
  (Forall (λ kv, kv.1 ∈ keys record_new) where_not →
   if existsb (λ kv, value_in (default None (get kv.1 record_new)) kv.2) (checked where_not)
   then out.2 = Raise (ValueError UpsertConflict)
        ∧ is_table out.1 (lower tname) (with_columns df (keys record_new))
   else out.2 = (_output (OutSeries record_new) false astype self).2
        ∧ is_table out.1 (lower tname) (frame_after_insert df record_new))
  ∧ (¬ Forall (λ kv, kv.1 ∈ keys record_new) where_not →
     ∃ k, k ∈ keys where_not ∧ (k ∉ keys record_new)
          ∧ out.2 = Raise (KeyError k)
          ∧ is_table out.1 (lower tname) (frame_after_insert df record_new)).
Proof.
  exact (upsert_no_match_outcome str_match uuid4 tname record where_ where_not self df
           found).
Qed.


(** In the table of two rows, [where = {a: x}] and [where_not = {a: x, b: p}]
    select no row, and the record [a = "x"] is inserted under the label 2.
    It satisfies the entry [a = "x"] of [where_not], but the inserted record
    has no key [b]: the call raises [KeyError] for [b] and the row stays.
    With [where_not = {a: x}] alone the call raises the conflict and the
    table is left with its two rows. *)
Lemma upsert_that_finds_no_row_witness :
  ((upsert Examples.prefix_match "id2" "T" [] [("a", CVal (PStr "x"))]
      [("a", CVal (PStr "x")); ("b", CVal (PStr "p"))] [] AsNone Examples.two_rows_db).2
   = Raise (KeyError "b")
   ∧ is_table
       (upsert Examples.prefix_match "id2" "T" [] [("a", CVal (PStr "x"))]
          [("a", CVal (PStr "x")); ("b", CVal (PStr "p"))] [] AsNone
          Examples.two_rows_db).1
       "t"
       (mkDF ["__id__"; "a"; "b"]
          [(0, {[ "__id__" := "id0"; "a" := "x"; "b" := "p" ]});
           (1, {[ "__id__" := "id1"; "a" := "y"; "b" := "q" ]});
           (2, {[ "__id__" := "id2"; "a" := "x" ]})]))
  ∧ ((upsert Examples.prefix_match "id2" "T" [] [("a", CVal (PStr "x"))]
        [("a", CVal (PStr "x"))] [] AsNone Examples.two_rows_db).2
     = Raise (ValueError UpsertConflict)
     ∧ is_table
         (upsert Examples.prefix_match "id2" "T" [] [("a", CVal (PStr "x"))]
            [("a", CVal (PStr "x"))] [] AsNone Examples.two_rows_db).1
         "t" Examples.two_rows).
Proof.
  split.
  - pose proof (upsert_that_finds_no_row Examples.prefix_match "id2" "T" []
                  [("a", CVal (PStr "x"))]
                  [("a", CVal (PStr "x")); ("b", CVal (PStr "p"))]
                  Examples.two_rows_db Examples.two_rows
                  (mkDF ["__id__"; "a"; "b"] [])) as Hup.
    destruct Hup with (astype := AsNone) as [_ Hbad].
    + exact two_rows_is_table.
    + exact two_rows_default_index.
    + reflexivity.
    + constructor.
    + constructor.
    + repeat constructor.
    + repeat constructor.
    + discriminate.
    + repeat constructor; discriminate.
    + reflexivity.
    + reflexivity.
    + by_evaluation.
    + reflexivity.
    + reflexivity.
    + destruct Hbad as (k & Hk & Hno & Hout & Htable).
      { by_evaluation. }
      assert (k = "b") as ->.
      { apply elem_of_cons in Hk as [->|Hk].
        - exfalso. apply Hno. by_evaluation.
        - by apply list_elem_of_singleton in Hk. }
      split; [exact Hout|]. exact Htable.
  - pose proof (upsert_that_finds_no_row Examples.prefix_match "id2" "T" []
                  [("a", CVal (PStr "x"))] [("a", CVal (PStr "x"))]
                  Examples.two_rows_db Examples.two_rows
                  (mkDF ["__id__"; "a"; "b"] [])) as Hup.
    destruct Hup with (astype := AsNone) as [Hgood _].
    + exact two_rows_is_table.
    + exact two_rows_default_index.
    + reflexivity.
    + constructor.
    + constructor.
    + repeat constructor.
    + repeat constructor.
    + discriminate.
    + repeat constructor; discriminate.
    + reflexivity.
    + reflexivity.
    + by_evaluation.
    + reflexivity.
    + reflexivity.
    + exact (Hgood ltac:(by_evaluation)).
Defined.

(** ** Masks computed row by row *)

Lemma mask_get_row_mask df g l r :
  NoDup (index df) → (l, r) ∈ rows df → mask_get l (row_mask df g) = Some (g r).
Proof.
  unfold index, row_mask. induction (rows df) as [|[l' r'] rs IH]; simpl.
  - intros _ H. by apply elem_of_nil in H.
  - rewrite NoDup_cons. intros [Hl' Hnd] Hin.
    apply elem_of_cons in Hin as [[= -> ->]|Hin].
    + by rewrite bool_decide_eq_true_2.
    + rewrite bool_decide_eq_false_2; [by apply IH|].
      intros ->. apply Hl'. by apply (list_elem_of_fmap_2 fst _ (l, r)).
Qed.

Lemma series_const_row_mask df b :
  default_index df → series_const b (length (rows df)) = row_mask df (λ _, b).
Proof.
  intros Hidx. unfold series_const, row_mask. rewrite <- Hidx. unfold index.
  by rewrite <- list_fmap_compose.
Qed.

Lemma col_test_row_mask df c p : col_test df c p = row_mask df (λ r, p (r !! c)).
Proof. done. Qed.

Lemma mask_and_row_mask df f g :
  NoDup (index df) →
  mask_and (row_mask df f) (row_mask df g) = row_mask df (λ r, f r && g r).
Proof.
  intros Hnd. unfold mask_and. unfold row_mask at 2 3.
  rewrite <- list_fmap_compose. apply list_fmap_ext. intros i [l r] Hi. simpl.
  rewrite (mask_get_row_mask df g l r); [done|done|].
  by eapply list_elem_of_lookup_2.
Qed.

Lemma mask_not_row_mask df g : mask_not (row_mask df g) = row_mask df (λ r, negb (g r)).
Proof. unfold mask_not, row_mask. by rewrite <- list_fmap_compose. Qed.

Lemma row_mask_ext df f g : (∀ r, f r = g r) → row_mask df f = row_mask df g.
Proof.
  intros Hfg. unfold row_mask. apply list_fmap_ext. intros i [l r] _. simpl.
  by rewrite Hfg.
Qed.

Lemma df_getitem_mask_row_mask df g :
  NoDup (index df) →
  df_getitem_mask df (row_mask df g)
  = Ok (mkDF (columns df) (filter (λ lr, g lr.2 = true) (rows df))).
Proof.
  intros Hnd. unfold df_getitem_mask.
  rewrite forallb_elem_of.
  - f_equal. f_equal. apply filter_ext_in. intros [l r] Hlr. simpl.
    rewrite (mask_get_row_mask df g l r) by done. split; congruence.
  - intros l Hl. apply bool_decide_eq_true.
    apply list_elem_of_fmap in Hl as ([l' r] & -> & Hlr). simpl.
    rewrite (mask_get_row_mask df g l' r) by done. done.
Qed.

Section RowWise.
Variable str_match : string → option string → bool.

(** With the default index, the loop of [_get_condition_mask] computes, row
    by row, the conjunction of the mask it starts from and of the tests of
    the entries. *)
Lemma _get_condition_mask_loop_row_mask df f condition :
  default_index df →
  Forall (λ kv, checked_values kv.2) condition →
  _get_condition_mask_loop str_match df (row_mask df f) condition
  = Ok (row_mask df (λ r, f r && row_matches str_match (columns df) condition r)).
Proof.
  intros Hidx Hcond. pose proof (default_index_NoDup df Hidx) as Hnd. revert f.
  induction Hcond as [|[k vs] condition Hvs _ IH]; intros f.
  - simpl. f_equal. apply row_mask_ext. intros r. by rewrite andb_true_r.
  - cbn [_get_condition_mask_loop row_matches forallb fst snd].
    case_bool_decide as Hcol.
    { rewrite series_const_row_mask by done. f_equal. apply row_mask_ext. intros r.
      rewrite bool_decide_eq_false_2 by done. simpl. by rewrite andb_false_r. }
    assert (∀ p : option string → bool,
              p = entry_test str_match vs →
              _get_condition_mask_loop str_match df
                (mask_and (row_mask df f) (col_test df k p)) condition
              = Ok (row_mask df
                      (λ r, f r && (bool_decide (k ∈ columns df)
                                    && entry_test str_match vs (r !! k)
                                    && row_matches str_match (columns df) condition r))))
      as Hstep.
    { intros p ->. rewrite col_test_row_mask, mask_and_row_mask by done.
      rewrite IH. f_equal. apply row_mask_ext. intros r.
      rewrite bool_decide_eq_true_2 by done. simpl. by rewrite andb_assoc. }
    simpl in Hvs. destruct Hvs as [Hstr|[v ->]].
    + destruct vs as [|v1 [|v2 vs]].
      * rewrite IH. f_equal. apply row_mask_ext. intros r.
        rewrite bool_decide_eq_true_2 by done. done.
      * simpl in Hstr. destruct v1; try done. cbn [isnull]. by apply Hstep.
      * destruct (str_values_not_special _ Hstr) as [-> ->]. apply Hstep. by destruct v1.
    + destruct v; cbn [isnull]; by apply Hstep.
Qed.

End RowWise.

(** ** What [find] returns *)

Lemma _check_tname_noload self tname :
  _check_tname tname true self
  = (self, match _db self !! lower tname with
           | Some _ => Ok (lower tname)
           | None => Raise (ValueError TableDoesNotExist)
           end).
Proof.
  unfold _check_tname, bind, gets, ret, raise. simpl.
  destruct (_db self !! lower tname); [done|]. by rewrite andb_false_r.
Qed.

Section Find.
Variable str_match : string → option string → bool.

Lemma find_frame_state tname where_ where_not cols self :
  (find_frame str_match tname where_ where_not cols self).1 = self.
Proof.
  unfold find_frame, bind, lift, ret, db_getitem.
  repeat (case_match; simplify_eq; simpl; try done).
Qed.

(** [find] and [find_one] leave the database as it is, whatever they are
    given and whatever they return or raise: no table is loaded or created,
    no file is written. *)
Theorem find_changes_nothing tname where_ where_not cols astype self :
  (find str_match tname where_ where_not cols astype self).1 = self
  ∧ (find_one str_match tname where_ where_not cols astype self).1 = self.
Proof.
  assert (∀ a, (find str_match tname where_ where_not cols a self).1 = self) as Hfind.
  { intros a. unfold find. rewrite _check_tname_noload.
    destruct (_db self !! lower tname) as [df|].
    - unfold bind.
      pose proof (find_frame_state (lower tname) where_ where_not cols self) as Hst.
      destruct (find_frame str_match (lower tname) where_ where_not cols self)
        as [s [d|e]]; simpl in Hst; subst s; [|done].
      apply _output_state.
    - apply _output_state. }
  split; [apply Hfind|].
  unfold find_one, bind. specialize (Hfind (AsStr "dataframe")).
  destruct (find str_match tname where_ where_not cols (AsStr "dataframe") self)
    as [s [out|e]]; simpl in Hfind; subst s; [|done].
  apply _output_state.
Qed.

(** On a table that the database does not hold, [find] returns the cast of a
    frame without columns and rows, and [find_one] the cast of an empty
    series: nothing is raised, and the conditions are not even checked. *)
Theorem find_on_missing_table tname where_ where_not cols astype self :
  _db self !! lower tname = None →
  find str_match tname where_ where_not cols astype self
  = _output (OutFrame (df_new [])) false astype self
  ∧ find_one str_match tname where_ where_not cols astype self
    = _output (OutSeries []) true astype self.
Proof.
  intros Hno.
  assert (∀ a, find str_match tname where_ where_not cols a self
               = _output (OutFrame (df_new [])) false a self) as Hfind.
  { intros a. unfold find. by rewrite _check_tname_noload, Hno. }
  split; [apply Hfind|].
  unfold find_one. rewrite (bind_ok _ _ _ _ _ (Hfind (AsStr "dataframe"))).
  reflexivity.
Qed.

(** With conditions to match only, on a table with its default index,
    [find] returns the rows that pass every entry of the checked condition,
    in the order of the table. *)
Theorem find_where_selects self tname df where_ condition astype :
  _db self !! lower tname = Some df → default_index df →
  _check_conditions where_ = Ok condition → where_ ≠ [] →
  find str_match tname where_ [] [] astype self
  = _output
      (OutFrame
         (mkDF (columns df)
            (filter (λ lr, row_matches str_match (columns df) condition lr.2 = true)
               (rows df))))
      false astype self.
Proof.
  intros Hdf Hidx Hw Hne.
  destruct (_check_conditions_checked _ _ Hw) as [Hkeys Hchecked].
  rewrite (find_on_table str_match self tname df) by done.
  unfold find_frame. rewrite Hw.
  change (_check_conditions []) with (Ok ([] : dict (list pyval))).
  autorewrite with run.
  rewrite (bind_ok _ _ _ _ _ (db_getitem_found (lower tname) df self Hdf)).
  change ((0 <? length (@nil string))%nat && (0 <? df_len df)) with false.
  cbv iota. autorewrite with run.
  assert ((0 <? length condition)%nat = true) as ->.
  { destruct where_; [done|]. destruct condition; [done|done]. }
  unfold _get_condition_mask.
  rewrite (series_const_row_mask df true Hidx).
  rewrite (_get_condition_mask_loop_row_mask str_match df _ condition Hidx Hchecked).
  cbn [rbind].
  rewrite (df_getitem_mask_row_mask df _ (default_index_NoDup df Hidx)).
  autorewrite with run.
  change (0 <? length (@nil (string * list pyval)))%nat with false. cbv iota.
  by autorewrite with run.
Qed.

(** With conditions not to match only, [find] returns the rows that do not
    pass every entry of the checked condition: a row is left out only when
    all the entries of [where_not] hold of it together. *)
Theorem find_where_not_excludes self tname df where_not condition astype :
  _db self !! lower tname = Some df → default_index df →
  _check_conditions where_not = Ok condition → where_not ≠ [] →
  find str_match tname [] where_not [] astype self
  = _output
      (OutFrame
         (mkDF (columns df)
            (filter (λ lr, row_matches str_match (columns df) condition lr.2 = false)
               (rows df))))
      false astype self.
Proof.
  intros Hdf Hidx Hw Hne.
  destruct (_check_conditions_checked _ _ Hw) as [Hkeys Hchecked].
  rewrite (find_on_table str_match self tname df) by done.
  unfold find_frame. rewrite Hw.
  change (_check_conditions []) with (Ok ([] : dict (list pyval))).
  autorewrite with run.
  rewrite (bind_ok _ _ _ _ _ (db_getitem_found (lower tname) df self Hdf)).
  change ((0 <? length (@nil string))%nat && (0 <? df_len df)) with false.
  cbv iota. autorewrite with run.
  change (0 <? length (@nil (string * list pyval)))%nat with false. cbv iota.
  autorewrite with run.
  assert ((0 <? length condition)%nat = true) as ->.
  { destruct where_not; [done|]. destruct condition; [done|done]. }
  unfold _get_condition_mask.
  rewrite (series_const_row_mask df true Hidx).
  rewrite (_get_condition_mask_loop_row_mask str_match df _ condition Hidx Hchecked).
  cbn [rbind]. rewrite mask_not_row_mask.
  rewrite (df_getitem_mask_row_mask df _ (default_index_NoDup df Hidx)).
  autorewrite with run. do 4 f_equal.
  apply filter_ext_in. intros [l r] _. simpl.
  destruct (row_matches str_match (columns df) condition r); done.
Qed.

End Find.

(** A search in a table that was never created, on an empty database. *)
Lemma find_on_missing_table_witness :
  find Examples.prefix_match "T" [("a", CVal (PStr "x"))] [] ["a"] AsNone Examples.memory_db
  = (Examples.memory_db, Ok (OutFrame (mkDF [] []))).
Proof.
  pose proof (find_on_missing_table Examples.prefix_match "T" [("a", CVal (PStr "x"))] []
                ["a"] AsNone Examples.memory_db) as Hfind.
  destruct Hfind as [Hfind _]; [reflexivity|].
  rewrite Hfind. reflexivity.
Defined.

(** In the table of two rows, [a = "x"] and [b] among ["p"], ["q"] hold of
    the first row only. *)
Lemma find_where_selects_witness :
  find Examples.prefix_match "T"
    [("a", CVal (PStr "x")); ("b", CList [PStr "p"; PStr "q"])] [] [] AsNone
    Examples.two_rows_db
  = (Examples.two_rows_db,
     Ok (OutFrame (mkDF ["__id__"; "a"; "b"]
                     [(0, {[ "__id__" := "id0"; "a" := "x"; "b" := "p" ]})]))).
Proof.
  pose proof (find_where_selects Examples.prefix_match Examples.two_rows_db "T"
                Examples.two_rows
                [("a", CVal (PStr "x")); ("b", CList [PStr "p"; PStr "q"])]
                [("a", [PStr "x"]); ("b", [PStr "p"; PStr "q"])] AsNone) as Hfind.
  rewrite Hfind; [reflexivity..|discriminate].
Defined.

(** In the table of two rows, [where_not = {a: x, b: q}] leaves out no row:
    the first row has [a = "x"] but not [b = "q"], the second [b = "q"] but
    not [a = "x"]. *)
Lemma find_where_not_excludes_witness :
  find Examples.prefix_match "T" []
    [("a", CVal (PStr "x")); ("b", CVal (PStr "q"))] [] AsNone Examples.two_rows_db
  = (Examples.two_rows_db, Ok (OutFrame Examples.two_rows)).
Proof.
  pose proof (find_where_not_excludes Examples.prefix_match Examples.two_rows_db "T"
                Examples.two_rows
                [("a", CVal (PStr "x")); ("b", CVal (PStr "q"))]
                [("a", [PStr "x"]); ("b", [PStr "q"])] AsNone) as Hfind.
  rewrite Hfind; [reflexivity..|discriminate].
Defined.

(** ** What [delete] removes *)

Lemma df_drop_labels_found df found :
  selects_by_label df found →
  df_drop_labels df (index found)
  = mkDF (columns df) (filter (λ lr, lr ∉ rows found) (rows df)).
Proof.
  intros Hsel. unfold df_drop_labels. f_equal.
  apply filter_ext_in. intros [l r] Hin. simpl.
  by rewrite (selects_by_label_index df found l r Hsel Hin).
Qed.

Section Delete.
Variable str_match : string → option string → bool.

(** The tables after [delete], and what it returns. *)
Lemma delete_run tname where_ where_not cols astype self df found :
  _db self !! lower tname = Some df →
  str_condition where_ → str_condition where_not →
  find_frame str_match (lower tname) where_ where_not [] self = (self, Ok found) →
  ∃ self',
    same_tables (set_db <[lower tname := df_drop_labels df (index found)]> self) self'
    ∧ delete str_match tname where_ where_not cols astype self
      = _output (OutFrame found) false astype self'.
Proof.
  intros Hdf Hw Hwn Hfind. unfold delete.
  rewrite (bind_ok _ _ _ _ _ (_check_tname_found self tname false df Hdf)).
  destruct (_check_conditions_str where_ Hw) as [-> _].
  destruct (_check_conditions_str where_not Hwn) as [-> _].
  rewrite !bind_lift_ok.
  assert (find str_match (lower tname) (as_args (checked where_))
            (as_args (checked where_not)) [] (AsType "DataFrame") self
          = (self, Ok (OutFrame found))) as Hfound.
  { rewrite (find_as_args str_match tname where_ where_not [] _ self Hw Hwn).
    rewrite (find_on_table str_match self tname df) by done.
    rewrite (bind_ok _ _ _ _ _ Hfind). apply _output_frame_as_DataFrame. }
  rewrite (bind_ok _ _ _ _ _ Hfound).
  cbn [frame_of]. rewrite bind_lift_ok.
  rewrite (bind_ok _ _ _ _ _ (db_getitem_found _ _ _ Hdf)).
  rewrite bind_modify.
  destruct (save_if_auto_run
              (set_db <[lower tname := df_drop_labels df (index found)]> self))
    as (self' & Hsave & Hsame).
  rewrite (bind_ok _ _ _ _ _ Hsave).
  by exists self'.
Qed.

(** [delete] removes from the table exactly the rows that [find] returns for
    the same conditions, keeps the other rows in their order and with their
    labels, leaves the columns, the schema and the other tables as they are,
    and returns the cast of the removed rows.  Its [columns] argument has no
    effect. *)
Theorem delete_removes_what_find_returns tname where_ where_not cols astype self df found :
  _db self !! lower tname = Some df →
  str_condition where_ → str_condition where_not →
  find str_match tname where_ where_not [] (AsStr "dataframe") self
  = (self, Ok (OutFrame found)) →
  _db (delete str_match tname where_ where_not cols astype self).1 !! lower tname
  = Some (mkDF (columns df) (filter (λ lr, lr ∉ rows found) (rows df)))
  ∧ (∀ t, t ≠ lower tname →
       _db (delete str_match tname where_ where_not cols astype self).1 !! t
       = _db self !! t)
  ∧ _schemas (delete str_match tname where_ where_not cols astype self).1
    = _schemas self
  ∧ (delete str_match tname where_ where_not cols astype self).2
    = (_output (OutFrame found) false astype self).2.
Proof.
  intros Hdf Hw Hwn Hfind.
  pose proof (find_dataframe_inv str_match self tname df _ _ _ _ _ Hdf Hfind) as Hframe.
  pose proof (find_frame_selects str_match self (lower tname) df _ _ _ _ Hdf Hframe)
    as Hsel.
  destruct (delete_run tname where_ where_not cols astype self df found Hdf Hw Hwn Hframe)
    as (self' & (Hdb & Hs & _ & Hopts) & ->).
  rewrite _output_state. rewrite Hdb, Hs, set_db_db, set_db_schemas.
  split; [|split; [|split]].
  - rewrite lookup_insert_eq. by rewrite (df_drop_labels_found df found Hsel).
  - intros t Ht. by rewrite lookup_insert_ne.
  - done.
  - apply _output_result. rewrite Hopts. by destruct self.
Qed.

(** Without conditions [delete] removes every row of the table, whatever
    its index: the table keeps its columns, and the cast of the former table
    is returned. *)
Theorem delete_without_conditions_empties tname cols astype self df :
  _db self !! lower tname = Some df →
  _db (delete str_match tname [] [] cols astype self).1 !! lower tname
  = Some (mkDF (columns df) [])
  ∧ (delete str_match tname [] [] cols astype self).2
    = (_output (OutFrame df) false astype self).2.
Proof.
  intros Hdf.
  assert (find_frame str_match (lower tname) [] [] [] self = (self, Ok df)) as Hframe.
  { unfold find_frame.
    change (_check_conditions []) with (Ok ([] : dict (list pyval))).
    autorewrite with run.
    rewrite (bind_ok _ _ _ _ _ (db_getitem_found (lower tname) df self Hdf)).
    reflexivity. }
  destruct (delete_run tname [] [] cols astype self df df Hdf) as
    (self' & (Hdb & _ & _ & Hopts) & ->); [constructor|constructor|done|].
  rewrite _output_state, Hdb, set_db_db, lookup_insert_eq. split.
  - f_equal. unfold df_drop_labels. f_equal.
    apply filter_none. intros lr Hlr Hno. apply Hno. by apply row_label_in_index.
  - apply _output_result. rewrite Hopts. by destruct self.
Qed.

End Delete.

(** In the table of two rows, [delete] with [a = "x"] removes the first row
    and keeps the second under its label 1. *)
Lemma delete_removes_what_find_returns_witness :
  _db (delete Examples.prefix_match "T" [("a", CVal (PStr "x"))] [] [] AsNone
         Examples.two_rows_db).1 !! "t"
  = Some (mkDF ["__id__"; "a"; "b"]
            [(1, {[ "__id__" := "id1"; "a" := "y"; "b" := "q" ]})])
  ∧ (delete Examples.prefix_match "T" [("a", CVal (PStr "x"))] [] [] AsNone
       Examples.two_rows_db).2
    = Ok (OutFrame (mkDF ["__id__"; "a"; "b"]
                      [(0, {[ "__id__" := "id0"; "a" := "x"; "b" := "p" ]})])).
Proof.
  pose proof (delete_removes_what_find_returns Examples.prefix_match "T"
                [("a", CVal (PStr "x"))] [] [] AsNone Examples.two_rows_db
                Examples.two_rows
                (mkDF ["__id__"; "a"; "b"]
                   [(0, {[ "__id__" := "id0"; "a" := "x"; "b" := "p" ]})])) as Hdel.
  destruct Hdel as (Hdb & _ & _ & Hout).
  - reflexivity.
  - repeat constructor.
  - constructor.
  - reflexivity.
  - split; [etransitivity; [exact Hdb|by_evaluation]
           |etransitivity; [exact Hout|reflexivity]].
Defined.

(** [delete] without conditions on the table of two rows. *)
Lemma delete_without_conditions_empties_witness :
  _db (delete Examples.prefix_match "T" [] [] [] AsNone Examples.two_rows_db).1 !! "t"
  = Some (mkDF ["__id__"; "a"; "b"] [])
  ∧ (delete Examples.prefix_match "T" [] [] [] AsNone Examples.two_rows_db).2
    = Ok (OutFrame Examples.two_rows).
Proof.
  pose proof (delete_without_conditions_empties Examples.prefix_match "T" [] AsNone
                Examples.two_rows_db Examples.two_rows) as Hdel.
  destruct Hdel as [Hdb Hout]; [reflexivity|].
  split; [etransitivity; [exact Hdb|reflexivity]
         |etransitivity; [exact Hout|reflexivity]].
Defined.

(** ** Conditions checked twice *)

Lemma rmap_ext {A B} (f g : A → result B) xs :
  (∀ x, f x = g x) → rmap f xs = rmap g xs.
Proof.
  intros Hfg. induction xs as [|x xs IH]; [done|]. cbn [rmap]. by rewrite Hfg, IH.
Qed.

(** A second pass of [_check_conditions], on conditions that it has already
    turned into lists, accepts lists of [str] only. *)
Lemma _check_conditions_again (cw : dict (list pyval)) :
  _check_conditions (as_args cw)
  = if forallb (λ kv, forallb is_str kv.2) cw then Ok cw
    else Raise (ValueError ParameterType).
Proof.
  unfold _check_conditions, _check_dict_type, as_args.
  rewrite fmap_pair_id. cbn [negb andb].
  assert (forallb (λ kv : string * cond_arg,
                     bool_decide (arg_type kv.2 ∈ [TStr; TList; TRegex]))
            ((λ kv : string * list pyval, (kv.1, CList kv.2)) <$> cw) = true) as ->.
  { induction cw as [|[k vs] cw IH]; [done|].
    rewrite fmap_cons. cbn [forallb]. rewrite IH, andb_true_r.
    apply bool_decide_eq_true_2. simpl. set_solver. }
  cbn [negb rbind]. rewrite rmap_fmap.
  transitivity (rmap (λ kv : string * list pyval,
                        try! vs := _check_type_iter (CList kv.2) in Ok (kv.1, vs)) cw).
  { apply rmap_ext. by intros [k vs]. }
  induction cw as [|[k vs] cw IH]; [done|].
  cbn [rmap forallb]. cbv beta. cbn [fst snd]. unfold _check_type_iter at 1.
  destruct (forallb is_str vs); [|done]. cbn [rbind andb].
  rewrite IH. by destruct (forallb _ cw).
Qed.

Lemma _check_conditions_regex (where_ : dict cond_arg) cw k p :
  _check_conditions where_ = Ok cw → (k, CVal (PRegex p)) ∈ where_ →
  forallb (λ kv, forallb is_str kv.2) cw = false.
Proof.
  unfold _check_conditions.
  destruct (_check_dict_type _ _ _ where_ _) as [conditions'|e] eqn:Hd; [|done].
  apply _check_dict_type_conditions_ok in Hd as ->. cbn [rbind].
  intros Hmap Hin. apply rmap_ok_inv in Hmap.
  induction Hmap as [|[k0 a] [k' vs] where_ cw Hkv _ IH];
    [by apply elem_of_nil in Hin|].
  cbn [forallb]. apply elem_of_cons in Hin as [Heq|Hin].
  - injection Heq as <- <-. simpl in Hkv. injection Hkv as <- <-. done.
  - rewrite IH by done. apply andb_false_r.
Qed.

Section Twice.
Variable str_match : string → option string → bool.

Lemma find_checked_regex tname cw cwn cols astype self df :
  _db self !! lower tname = Some df →
  forallb (λ kv, forallb is_str kv.2) cw = false
  ∨ forallb (λ kv, forallb is_str kv.2) cwn = false →
  find str_match (lower tname) (as_args cw) (as_args cwn) cols astype self
  = (self, Raise (ValueError ParameterType)).
Proof.
  intros Hdf Hbad.
  rewrite (find_on_table str_match self (lower tname) df) by (by rewrite lower_idemp).
  unfold find_frame. rewrite !_check_conditions_again.
  destruct (forallb _ cw); [|done].
  destruct Hbad as [Hbad|Hbad]; [done|]. rewrite Hbad. done.
Qed.

(** [delete] and [upsert] check their conditions and pass the checked
    conditions on to [find], which checks them again: a condition whose value
    is a compiled regular expression passes the first check and fails the
    second.  Both methods raise the [ValueError] of [_check_type_iter] and
    leave the database as it was, on every table and for every pattern. *)
Theorem regex_condition_is_refused_by_delete_and_upsert uuid4 tname record
    where_ where_not cols astype self df cw cwn k p :
  _db self !! lower tname = Some df →
  _check_conditions where_ = Ok cw → _check_conditions where_not = Ok cwn →
  (k, CVal (PRegex p)) ∈ where_ ∨ (k, CVal (PRegex p)) ∈ where_not →
  delete str_match tname where_ where_not cols astype self
  = (self, Raise (ValueError ParameterType))
  ∧ (str_record record →
     upsert str_match uuid4 tname record where_ where_not cols astype self
     = (self, Raise (ValueError ParameterType))).
Proof.
  intros Hdf Hw Hwn Hin.
  assert (forallb (λ kv : string * list pyval, forallb is_str kv.2) cw = false
          ∨ forallb (λ kv : string * list pyval, forallb is_str kv.2) cwn = false) as Hbad.
  { destruct Hin as [Hin|Hin]; [left|right]; by eapply _check_conditions_regex. }
  split.
  - unfold delete.
    rewrite (bind_ok _ _ _ _ _ (_check_tname_found self tname false df Hdf)).
    rewrite Hw, Hwn, !bind_lift_ok.
    by rewrite (bind_raise _ _ _ _ _
                  (find_checked_regex tname cw cwn [] (AsType "DataFrame") self df
                     Hdf Hbad)).
  - intros Hstr. unfold upsert.
    rewrite (bind_ok _ _ _ _ _ (_check_tname_found self tname false df Hdf)).
    rewrite Hw, Hwn, !bind_lift_ok, bind_gets.
    rewrite (_check_dict_type_str_record record _ Hstr), bind_lift_ok.
    assert ((0 <? length cw)%nat || (0 <? length cwn)%nat = true) as ->.
    { destruct Hbad as [Hbad|Hbad].
      - destruct cw; [done|done].
      - destruct cwn; [done|]. apply orb_true_r. }
    by rewrite (bind_raise _ _ _ _ _
                  (find_checked_regex tname cw cwn [] (AsStr "dataframe") self df
                     Hdf Hbad)).
Qed.

End Twice.

(** In the table of two rows, [find] with a pattern on column [a] returns
    the first row; [delete] and [upsert] with the same condition raise. *)
Lemma regex_condition_is_refused_by_delete_and_upsert_witness :
  (find Examples.prefix_match "T" [("a", CVal (PRegex "x"))] [] [] AsNone
     Examples.two_rows_db).2
  = Ok (OutFrame (mkDF ["__id__"; "a"; "b"]
                    [(0, {[ "__id__" := "id0"; "a" := "x"; "b" := "p" ]})]))
  ∧ delete Examples.prefix_match "T" [("a", CVal (PRegex "x"))] [] [] AsNone
      Examples.two_rows_db
    = (Examples.two_rows_db, Raise (ValueError ParameterType))
  ∧ upsert Examples.prefix_match "id2" "T" [("b", PStr "new")]
      [("a", CVal (PRegex "x"))] [] [] AsNone Examples.two_rows_db
    = (Examples.two_rows_db, Raise (ValueError ParameterType)).
Proof.
  pose proof (regex_condition_is_refused_by_delete_and_upsert Examples.prefix_match "id2"
                "T" [("b", PStr "new")] [("a", CVal (PRegex "x"))] [] [] AsNone
                Examples.two_rows_db Examples.two_rows [("a", [PRegex "x"])] [] "a" "x")
    as Hre.
  destruct Hre as [Hdel Hup].
  - reflexivity.
  - reflexivity.
  - reflexivity.
  - left. by apply list_elem_of_singleton.
  - split; [reflexivity|]. split; [exact Hdel|]. apply Hup. repeat constructor.
Defined.

(** * The reserved column under [insert] and [upsert] *)

(** ** C4: the identifiers of the records *)

(** C4.  [insert] stores the new row with the freshly drawn identifier in the
    reserved column, whatever the record or the row generator supply for
    that column, and keeps the identifiers of the table present and pairwise
    distinct when the drawn one is new to the table.  The invariant that
    the claim draws from this does not hold of [upsert]: when the record
    names the reserved column, [upsert] writes its value into every row
    that [find] returns, so that two rows that [find] returns hold the same
    identifier afterwards.  The table is in its normal form with distinct
    row labels, the record holds [str] values under distinct keys that the
    schema accepts, and the conditions are on [str] values. *)
Theorem ids_after_insert_and_upsert str_match uuid4 tname record cols out self df :
  is_table self (lower tname) df →
  NoDup (index df) →
  str_record record → NoDup (keys record) →
  schema_accepts self df (keys (default [] (_rowgens self !! lower tname))) →
  schema_accepts self df (keys record) →
  (∃ df',
     is_table (insert uuid4 tname record cols out self).1 (lower tname) df'
     ∧ (∃ r, (df_len df, r) ∈ rows df' ∧ r !! _id_colname = Some uuid4)
     ∧ (∀ l r, l ≠ df_len df → (l, r) ∈ rows df' ↔ (l, r) ∈ rows df)
     ∧ (∀ t, t ≠ lower tname →
          _db (insert uuid4 tname record cols out self).1 !! t = _db self !! t)
     ∧ (unique_ids df →
        Some uuid4 ∉ ((λ lr : Z * row, lr.2 !! _id_colname) <$> rows df) →
        unique_ids df'))
  ∧ (∀ where_ where_not found v i j l1 r1 l2 r2,
       str_condition where_ → str_condition where_not →
       where_ ≠ [] ∨ where_not ≠ [] →
       find str_match tname where_ where_not [] (AsStr "dataframe") self
       = (self, Ok (OutFrame found)) →
       get _id_colname record = Some (PStr v) →
       i ≠ j →
       rows df !! i = Some (l1, r1) → (l1, r1) ∈ rows found →
       rows df !! j = Some (l2, r2) → (l2, r2) ∈ rows found →
       ∃ df',
         is_table
           (upsert str_match uuid4 tname record where_ where_not cols out self).1
           (lower tname) df'
         ∧ (∃ r1' r2',
              rows df' !! i = Some (l1, r1') ∧ r1' !! _id_colname = Some v
              ∧ rows df' !! j = Some (l2, r2') ∧ r2' !! _id_colname = Some v)
         ∧ ¬ unique_ids df').
Proof.
  intros Htable Hnd Hstr Hkeys Hgen Hacc. split.
  - destruct (insert_stores_drawn_id uuid4 tname record cols out self df
                Htable Hnd Hstr Hkeys Hgen Hacc)
      as (df' & Htable' & Hrow & Hothers & Hdb & Huniq).
    by exists df'.
  - intros where_ where_not found v i j l1 r1 l2 r2 Hw Hwn Hne Hfind Hid Hij Hi Hfi Hj Hfj.
    pose proof (upsert_update_state str_match uuid4 tname record where_ where_not cols out
                  self df found Htable Hstr Hacc Hw Hwn Hne Hfind) as Hsame.
    pose proof (table_stored _ _ _ Htable) as Hdf.
    pose proof (find_frame_selects str_match self (lower tname) df where_ where_not self found
                  Hdf (find_dataframe_inv str_match self tname df _ _ _ _ _ Hdf Hfind))
      as Hsel.
    assert (rows found ≠ []) as Hfound.
    { intros Hnil. rewrite Hnil in Hfi. by apply elem_of_nil in Hfi. }
    specialize (Hsame Hfound).
    assert (∀ k l r, rows df !! k = Some (l, r) → (l, r) ∈ rows found →
              rows (frame_after_update df (index found) record) !! k
              = Some (l, row_update record r)
              ∧ row_update record r !! _id_colname = Some v) as Hupd.
    { intros k l r Hk Hf. split.
      - rewrite rows_frame_after_update, list_lookup_fmap, Hk. simpl.
        rewrite bool_decide_eq_true_2; [done|].
        apply (selects_by_label_index df found l r Hsel); [|done].
        by eapply list_elem_of_lookup_2.
      - rewrite row_update_lookup by done. by rewrite Hid. }
    destruct (Hupd i l1 r1 Hi Hfi) as [Hi' Hv1].
    destruct (Hupd j l2 r2 Hj Hfj) as [Hj' Hv2].
    exists (frame_after_update df (index found) record). split; [|split].
    + eapply same_tables_is_table; [exact Hsame|].
      by apply frame_after_update_is_table.
    + by exists (row_update record r1), (row_update record r2).
    + intros [_ Hdup]. apply Hij.
      apply (NoDup_lookup _ i j (Some v) Hdup).
      * by rewrite list_lookup_fmap, Hi'; simpl; rewrite Hv1.
      * by rewrite list_lookup_fmap, Hj'; simpl; rewrite Hv2.
Qed.

(** In the table of two rows, whose identifiers are ["id0"] and ["id1"],
    [upsert] with the record [__id__ = "dup"] and a condition that both rows
    meet leaves the identifier ["dup"] in both rows. *)
Lemma ids_after_insert_and_upsert_witness :
  unique_ids Examples.two_rows
  ∧ ∃ df',
      is_table
        (upsert Examples.prefix_match "id2" "T" [("__id__", PStr "dup")]
           [("a", CList [PStr "x"; PStr "y"])] [] [] AsNone Examples.two_rows_db).1 "t" df'
      ∧ (∃ r1' r2',
           rows df' !! 0%nat = Some (0, r1') ∧ r1' !! "__id__" = Some "dup"
           ∧ rows df' !! 1%nat = Some (1, r2') ∧ r2' !! "__id__" = Some "dup")
      ∧ ¬ unique_ids df'.
Proof.
  split; [exact two_rows_unique_ids|].
  pose proof (ids_after_insert_and_upsert Examples.prefix_match "id2" "T"
                [("__id__", PStr "dup")] [] AsNone Examples.two_rows_db Examples.two_rows)
    as Hids.
  destruct Hids as [_ Hup].
  - exact two_rows_is_table.
  - by_evaluation.
  - repeat constructor.
  - by_evaluation.
  - reflexivity.
  - reflexivity.
  - apply (Hup [("a", CList [PStr "x"; PStr "y"])] [] Examples.two_rows "dup"
             0%nat 1%nat 0 {[ "__id__" := "id0"; "a" := "x"; "b" := "p" ]}
             1 {[ "__id__" := "id1"; "a" := "y"; "b" := "q" ]}).
    + repeat constructor.
    + constructor.
    + left. discriminate.
    + by vm_compute.
    + reflexivity.
    + discriminate.
    + reflexivity.
    + by_evaluation.
    + reflexivity.
    + by_evaluation.
Defined.

(** * Case of the names given to [load] *)

Section CaseDict.
Context {V : Type}.
Implicit Types (d : dict V) (k : string) (v : V).

Lemma get_remove_ne k k' d : k ≠ k' → get k (remove k' d) = get k d.
Proof.
  intros Hne. induction d as [|[k0 v0] d IH]; simpl; [done|].
  case_bool_decide as Hk; simpl; subst.
  - by rewrite bool_decide_eq_false_2.
  - case_bool_decide; [done|]. apply IH.
Qed.

(** The loop of [_check_case_dict] keeps the value of a key under that key
    or under its lowered form, as long as no other key folds to the same
    name. *)
Lemma _check_case_keys_get ks d k v :
  NoDup (keys d) →
  (∃ k0, (k0 = k ∨ k0 = lower k) ∧ get k0 d = Some v
         ∧ ∀ k', k' ∈ keys d → lower k' = lower k → k' = k0) →
  ∃ k0, (k0 = k ∨ k0 = lower k) ∧ get k0 (foldl _check_case_key d ks) = Some v.
Proof.
  revert d. induction ks as [|x ks IH]; intros d Hnd (k0 & Hk0 & Hget & Honly); simpl.
  - by exists k0.
  - assert (lower k0 = lower k) as Hlow.
    { destruct Hk0 as [->| ->]; [done|apply lower_idemp]. }
    unfold _check_case_key at 2. rewrite _check_case_str_lower.
    case_bool_decide as Hx; [|apply IH; [done|by exists k0]].
    destruct (get x d) as [vx|] eqn:Hgx; [|apply IH; [done|by exists k0]].
    apply IH.
    { apply keys_set_NoDup. by apply keys_remove_NoDup. }
    destruct (decide (x = k0)) as [->|Hne].
    + exists (lower k). split; [by right|]. split.
      * rewrite <- Hlow, get_set_eq. congruence.
      * intros k' Hk' Hlk'. apply keys_set_subseteq in Hk'.
        apply elem_of_cons in Hk' as [->|Hk']; [done|].
        exfalso. apply (keys_remove_NoDup k0 d Hnd).
        assert (k' = k0) as <-; [|done].
        apply Honly; [|done]. by apply (keys_remove_subseteq k0 d).
    + assert (lower x ≠ lower k) as Hlx.
      { intros Heq. apply Hne. apply Honly; [|done]. by eapply get_Some_in. }
      exists k0. split; [done|]. split.
      * rewrite get_set_ne, get_remove_ne; [done|by intros ->|].
        intros ->. apply Hlx. by rewrite lower_idemp in Hlow.
      * intros k' Hk' Hlk'. apply keys_set_subseteq in Hk'.
        apply elem_of_cons in Hk' as [->|Hk'].
        { exfalso. apply Hlx. by rewrite lower_idemp in Hlk'. }
        apply Honly; [|done]. by apply (keys_remove_subseteq x d).
Qed.

(** [_check_case_dict] returns a dictionary whose keys are all in lower
    case, with the value of each key of the argument under the lowered key
    when no other key folds to the same name. *)
Lemma _check_case_dict_folds d :
  NoDup (keys d) →
  Forall (λ k, k = lower k) (keys (_check_case_dict d))
  ∧ ∀ k v, get k d = Some v →
      (∀ k', k' ∈ keys d → lower k' = lower k → k' = k) →
      get (lower k) (_check_case_dict d) = Some v.
Proof.
  intros Hnd.
  assert (Forall (λ k, k = lower k) (keys (_check_case_dict d))) as Hall.
  { unfold _check_case_dict. by apply _check_case_keys_lower. }
  split; [done|]. intros k v Hget Honly.
  destruct (_check_case_keys_get (keys d) d k v Hnd) as (k0 & Hk0 & Hget0).
  { exists k. by split; [left|]. }
  fold (_check_case_dict d) in Hget0.
  assert (k0 = lower k) as <-; [|done].
  pose proof (get_Some_in _ _ _ Hget0) as Hin.
  rewrite Forall_forall in Hall. specialize (Hall k0 Hin).
  destruct Hk0 as [->| ->]; done.
Qed.

End CaseDict.

(** [load] of one table with its schema, when the table has no file: the
    table is created under the lowered name with the checked schema. *)
Lemma load_one_with_schema tname cols checked self :
  files self !! lower tname = None →
  _check_columns cols true = Ok checked →
  load (Some [tname]) (Some [(tname, cols)]) None self
  = (with_table (lower tname) (df_new checked) checked self, Ok tt).
Proof.
  intros Hfile Hcols. unfold load.
  assert (_check_case_dict [(tname, cols)] = [(lower tname, cols)]) as ->.
  { unfold _check_case_dict. simpl. unfold _check_case_key.
    rewrite _check_case_str_lower. simpl.
    case_bool_decide as Hne.
    - by rewrite bool_decide_eq_true_2.
    - by rewrite <- Hne. }
  cbn [rmap snd fst]. rewrite Hcols. cbn [rbind]. rewrite bind_gets.
  rewrite bind_lift_ok. cbn [fmap option_fmap option_map].
  rewrite bind_ret. unfold _check_table_names. cbn [fmap list_fmap for_each].
  cbn [mbind option_bind get]. rewrite bool_decide_eq_true_2 by done.
  autorewrite with run. rewrite _check_case_str_lower, lower_idemp.
  destruct self as [nm o db sch rg last qlen flag fs ths clk]. simpl in *.
  unfold modify, bind, ret, gets. simpl. rewrite Hfile. rewrite lookup_insert_eq.
  reflexivity.
Qed.

(** ** C9: the names and the dictionary keys *)

(** C9, amended.  The name of a table is folded to lower case at every
    entry point ([find], [find_one], [insert], [upsert], [delete],
    [get_table_schema], [drop], and the names and dictionary keys given to
    [load]): a call with a name is the call with the lowered name; [load]
    with dictionaries is [load] with the dictionaries that
    [_check_case_dict] returns, whose keys are all in lower case and which
    hold the value of every key of the argument under the lowered key, as
    long as no other key folds to the same name; so [load] of one table with
    its schema, when the table has no file, creates the table under the
    lowered name with that schema.  Column names are taken as they are
    written: [_check_columns] returns the list it was given, with the
    reserved column added at most. *)
Theorem table_names_are_folded (str_match : string → option string → bool)
    (tname : string) :
  (∀ where_ where_not columns astype,
     find str_match tname where_ where_not columns astype
     = find str_match (lower tname) where_ where_not columns astype)
  ∧ (∀ where_ where_not columns astype,
     find_one str_match tname where_ where_not columns astype
     = find_one str_match (lower tname) where_ where_not columns astype)
  ∧ (∀ uuid4 record columns astype,
     insert uuid4 tname record columns astype
     = insert uuid4 (lower tname) record columns astype)
  ∧ (∀ uuid4 record where_ where_not columns astype,
     upsert str_match uuid4 tname record where_ where_not columns astype
     = upsert str_match uuid4 (lower tname) record where_ where_not columns astype)
  ∧ (∀ where_ where_not columns astype,
     delete str_match tname where_ where_not columns astype
     = delete str_match (lower tname) where_ where_not columns astype)
  ∧ get_table_schema tname = get_table_schema (lower tname)
  ∧ (∀ table_names : list string, drop table_names = drop (lower <$> table_names))
  ∧ (∀ (table_names : option (list string))
       (table_schemas : option (dict (list string)))
       (table_rowgens : option (dict series)),
     (∀ schemas : dict (list string),
        table_schemas = Some schemas → NoDup (keys schemas)) →
     (∀ rowgens : dict series,
        table_rowgens = Some rowgens → NoDup (keys rowgens)) →
     load table_names table_schemas table_rowgens
     = load ((λ names : list string, lower <$> names) <$> table_names)
         (_check_case_dict <$> table_schemas) (_check_case_dict <$> table_rowgens))
  ∧ (∀ (V : Type) (dic : dict V),
     NoDup (keys dic) →
     Forall (λ k, k = lower k) (keys (_check_case_dict dic))
     ∧ ∀ k v, get k dic = Some v →
         (∀ k', k' ∈ keys dic → lower k' = lower k → k' = k) →
         get (lower k) (_check_case_dict dic) = Some v)
  ∧ (∀ cols checked self,
     files self !! lower tname = None →
     _check_columns cols true = Ok checked →
     load (Some [tname]) (Some [(tname, cols)]) None self
     = (with_table (lower tname) (df_new checked) checked self, Ok tt))
  ∧ (∀ columns add_id checked,
     _check_columns columns add_id = Ok checked →
     checked = columns ∨ checked = columns ++ [_id_colname]).
Proof.
  repeat match goal with |- _ ∧ _ => split end.
  - intros. unfold find. by rewrite _check_tname_lower.
  - intros. unfold find_one, find. by rewrite _check_tname_lower.
  - intros. unfold insert. by rewrite _check_tname_lower.
  - intros. unfold upsert. by rewrite _check_tname_lower.
  - intros. unfold delete. by rewrite _check_tname_lower.
  - unfold get_table_schema. by rewrite _check_tname_lower.
  - intros. unfold drop. by rewrite _check_table_names_idemp.
  - intros names schemas rowgens Hs Hr. unfold load.
    destruct schemas as [schemas|], rowgens as [rowgens|], names as [names|];
      unfold bind, ret; simpl;
      rewrite ?_check_case_dict_idemp, ?_check_table_names_idemp by eauto; done.
  - intros V dic Hnd. by apply _check_case_dict_folds.
  - intros cols checked self Hfile Hcols. by apply load_one_with_schema.
  - intros columns add_id checked. unfold _check_columns.
    case_bool_decide; [destruct add_id|]; simpl;
      repeat case_match; intros; simplify_eq; auto.
Qed.

(** [load(["T"], {"T": ["A"]})] on a database without files stores the
    schema under ["t"] and creates the table with it; the dictionary that
    reaches the rest of [load] has the key ["t"]. *)
Lemma table_names_are_folded_witness :
  (let self := (load (Some ["T"]) (Some [("T", ["A"])]) None Examples.memory_db).1 in
   _schemas self !! "t" = Some ["A"; "__id__"]
   ∧ _db self !! "t" = Some (df_new ["A"; "__id__"])
   ∧ _schemas self !! "T" = None)
  ∧ keys (_check_case_dict [("T", ["A"]); ("u", ["B"])]) = ["u"; "t"]
  ∧ get "t" (_check_case_dict [("T", ["A"]); ("u", ["B"])]) = Some ["A"]
  ∧ load (Some ["T"]) (Some [("T", ["A"])]) None
    = load (Some ["t"]) (Some [("t", ["A"])]) None.
Proof.
  pose proof (table_names_are_folded Examples.prefix_match "T")
    as (_ & _ & _ & _ & _ & _ & _ & Hload & Hdict & Hone & _).
  split; [|split; [|split]].
  - cbv zeta.
    rewrite (Hone ["A"] ["A"; "__id__"] Examples.memory_db); [|reflexivity|reflexivity].
    split; [reflexivity|]. split; reflexivity.
  - reflexivity.
  - destruct (Hdict (list string) [("T", ["A"]); ("u", ["B"])]) as [_ Hget].
    { by_evaluation. }
    apply (Hget "T" ["A"]); [reflexivity|].
    intros k' Hk' Hlow.
    apply elem_of_cons in Hk' as [->|Hk']; [done|].
    apply list_elem_of_singleton in Hk' as ->. discriminate Hlow.
  - apply (Hload (Some ["T"]) (Some [("T", ["A"])]) None).
    + intros schemas [= <-]. apply NoDup_singleton.
    + intros rowgens [=].
Defined.

(** * A new column under every path of [insert] and [upsert] *)

Lemma get_app_Some {V} k (v : V) (d1 d2 : dict V) :
  get k (d1 ++ d2) = Some v → get k d1 = Some v ∨ get k d2 = Some v.
Proof.
  induction d1 as [|[k' v'] d1 IH]; simpl; [by right|].
  case_bool_decide; [by left|]. apply IH.
Qed.

(** A series cut down to a list of names holds values of the series. *)
Lemma series_getitem_list_get (s s' : series) cols k v :
  series_getitem_list s cols = Ok s' → get k s' = Some v → get k s = Some v.
Proof.
  unfold series_getitem_list.
  assert (∀ acc, (∀ v, get k acc = Some v → get k s = Some v) →
            rfold (λ acc c, match get c s with
                            | Some v => Ok (acc ++ [(c, v)])
                            | None => Raise (KeyError c)
                            end) acc cols = Ok s' →
            get k s' = Some v → get k s = Some v) as Hgen.
  { induction cols as [|c cols IH]; intros acc Hacc; simpl.
    - intros [= <-]. apply Hacc.
    - destruct (get c s) as [vc|] eqn:Hc; [|done]. simpl. apply IH.
      intros v0 Hv0. apply get_app_Some in Hv0 as [Hv0|Hv0]; [by apply Hacc|].
      simpl in Hv0. case_bool_decide; simplify_eq. done. }
  apply Hgen. intros v0 Hv0. done.
Qed.

Lemma synthesized_keys_subseteq record (where_ : dict (list pyval)) :
  keys (synthesized record where_) ⊆ keys record ++ keys where_.
Proof.
  unfold synthesized. revert record.
  induction where_ as [|[k vs] where_ IH]; intros record; simpl.
  - by rewrite app_nil_r.
  - intros c Hc. apply IH in Hc. apply elem_of_app in Hc as [Hc|Hc].
    + apply keys_set_subseteq in Hc. unfold keys at 2. simpl. set_solver.
    + unfold keys at 2. simpl. set_solver.
Qed.

Lemma forallb_colname_subseteq (cols cols' : list string) :
  cols ⊆ cols' → forallb colname_match cols' = true → forallb colname_match cols = true.
Proof.
  intros Hsub Hall. rewrite forallb_forall in *. intros c Hc.
  apply Hall. apply list_elem_of_In. apply Hsub. by apply list_elem_of_In.
Qed.

Lemma column_added_with_columns self tname df cols c :
  is_table self tname df →
  c ∈ cols → c ∉ columns df →
  column_added c df (with_columns df cols) [].
Proof.
  intros Htable Hc Hno. split.
  - exists (new_columns (columns df) cols). split; [done|by apply new_columns_elem_of].
  - intros i l r Hi _. split; [done|by eapply table_cell_outside].
Qed.

Section NewColumn.
Variable str_match : string → option string → bool.

(** The table after an [upsert] that finds no row: the synthesized record was
    inserted, and the inserted row is there, or it was retracted after a
    conflict with [where_not]. *)
Lemma upsert_no_match_state uuid4 tname record where_ where_not cols out self df found :
  is_table self (lower tname) df → default_index df →
  str_record record → NoDup (keys record) →
  str_condition where_ → str_condition where_not →
  where_ ≠ [] ∨ where_not ≠ [] →
  Forall (λ kv, arg_values kv.2 ≠ []) where_ →
  schema_accepts self df (keys (default [] (_rowgens self !! lower tname))) →
  schema_accepts self df (keys (synthesized record (checked where_))) →
  Some uuid4 ∉ ((λ lr : Z * row, lr.2 !! _id_colname) <$> rows df) →
  find str_match tname where_ where_not [] (AsStr "dataframe") self
  = (self, Ok (OutFrame found)) →
  rows found = [] →
  let row :=
    record_new uuid4 (_rowgens self !! lower tname) (synthesized record (checked where_)) in
  ∃ df',
    (df' = frame_after_insert df row ∨ df' = with_columns df (keys row))
    ∧ is_table (upsert str_match uuid4 tname record where_ where_not cols out self).1
        (lower tname) df'.
Proof.
  intros Htable Hidx Hstr Hkeys Hw Hwn Hne Hvals Hgen Hacc Hfresh Hfind Hfound row.
  pose proof (table_stored _ _ _ Htable) as Hdf.
  destruct (insert_run uuid4 (lower tname) (synthesized record (checked where_)) cols
              (AsStr "series") self df) as (s1 & Hins & Hsame).
  { by rewrite lower_idemp. }
  { by apply synthesized_str_record. }
  { by rewrite lower_idemp. }
  { done. }
  rewrite lower_idemp in Hins, Hsame. fold row in Hins, Hsame.
  assert (schema_accepts self df (keys row)) as Hacc_row.
  { by apply record_new_accepted. }
  assert (is_table s1 (lower tname) (frame_after_insert df row)) as Htable1.
  { eapply same_tables_is_table; [exact Hsame|]. by apply frame_after_insert_is_table. }
  assert (get _id_colname row = Some (Some uuid4)) as Hid.
  { apply record_new_id. by apply synthesized_keys_NoDup. }
  unfold upsert.
  rewrite (bind_ok _ _ _ _ _ (_check_tname_found self tname false df Hdf)).
  destruct (_check_conditions_str where_ Hw) as [-> _].
  destruct (_check_conditions_str where_not Hwn) as [-> _].
  rewrite !bind_lift_ok, bind_gets.
  rewrite (_check_dict_type_str_record record _ Hstr), bind_lift_ok.
  assert ((0 <? length (checked where_))%nat || (0 <? length (checked where_not))%nat
          = true) as ->.
  { rewrite !length_checked. destruct Hne as [Hne|Hne].
    - destruct where_; [done|]. done.
    - destruct where_not; [done|]. apply orb_true_r. }
  rewrite <- (find_as_args str_match tname where_ where_not [] (AsStr "dataframe") self Hw Hwn)
    in Hfind.
  rewrite (bind_ok _ _ _ _ _ Hfind).
  cbn [frame_of]. rewrite bind_lift_ok. cbv zeta.
  assert ((length (index found) =? 0)%nat = true) as ->.
  { unfold index. by rewrite Hfound. }
  fold (synthesized record (checked where_)).
  unfold bind at 1. rewrite Hins.
  destruct (if (0 <? length cols)%nat then series_getitem_list row cols else Ok row)
    as [r'|e] eqn:Hproj.
  2:{ rewrite bind_lift_raise. exists (frame_after_insert df row). by split; [left|]. }
  rewrite bind_lift_ok, _output_series_as_series.
  cbn [series_of]. rewrite bind_lift_ok.
  destruct (rmap (λ kv : string * list pyval,
                    try! x := series_getitem r' kv.1 in Ok (value_in x kv.2))
              (checked where_not)) as [tests|e].
  2:{ rewrite bind_lift_raise. exists (frame_after_insert df row). by split; [left|]. }
  rewrite bind_lift_ok.
  destruct (existsb id tests).
  2:{ rewrite _output_state. exists (frame_after_insert df row). by split; [left|]. }
  destruct (series_getitem r' _id_colname) as [_id|e] eqn:Hget.
  2:{ rewrite bind_lift_raise. exists (frame_after_insert df row). by split; [left|]. }
  rewrite bind_lift_ok.
  assert (_id = Some uuid4) as ->.
  { unfold series_getitem in Hget.
    destruct (get _id_colname r') as [x|] eqn:Hx; [|done]. injection Hget as <-.
    assert (get _id_colname row = Some x) as Hrow; [|congruence].
    destruct (0 <? length cols)%nat.
    - by eapply series_getitem_list_get.
    - by injection Hproj as <-. }
  cbn [pyval_of].
  pose proof (find_frame_by_value str_match s1 (lower tname) (frame_after_insert df row)
                _id_colname uuid4 (table_stored _ _ _ Htable1)
                (default_index_after_insert df row Hidx)
                (table_has_id _ _ _ Htable1)) as Hbyid.
  destruct (delete_run str_match (lower tname) [(_id_colname, CVal (PStr uuid4))] [] []
              AsNone s1 (frame_after_insert df row)
              (mkDF (columns (frame_after_insert df row))
                 (filter (λ lr, cell_eq (PStr uuid4) (lr.2 !! _id_colname) = true)
                    (rows (frame_after_insert df row)))))
    as (s2 & Hsame2 & Hdel).
  { rewrite lower_idemp. by destruct Htable1. }
  { repeat constructor. }
  { constructor. }
  { rewrite lower_idemp.
    rewrite <- (find_frame_as_args str_match (lower tname)
                  [(_id_colname, CVal (PStr uuid4))] [] [] s1);
      [exact Hbyid|repeat constructor|constructor]. }
  rewrite lower_idemp in Hsame2.
  assert ((bind (delete str_match (lower tname) [(_id_colname, CVal (PStr uuid4))] [] []
                   AsNone)
             (λ _, raise (ValueError UpsertConflict)) s1).1 = s2) as ->.
  { unfold bind. rewrite Hdel.
    pose proof (_output_state
                  (OutFrame
                     (mkDF (columns (frame_after_insert df row))
                        (filter (λ lr, cell_eq (PStr uuid4) (lr.2 !! _id_colname) = true)
                           (rows (frame_after_insert df row))))) false AsNone s2) as Hst.
    destruct (_output _ false AsNone s2) as [s3 [o|e]]; simpl in *; done. }
  exists (with_columns df (keys row)). split; [by right|].
  destruct (rows_with_new_id df row uuid4 Hidx (table_has_id _ _ _ Htable) Hid Hfresh)
    as [Hix Hdrop].
  unfold index in Hsame2. simpl in Hsame2. rewrite Hix, Hdrop in Hsame2.
  eapply same_tables_is_table; [exact Hsame2|].
  destruct (with_columns_accepted self (lower tname) df (keys row) Htable Hacc_row)
    as [_ _ Hid' Hnames' Hcells'].
  destruct Hsame as (Hdb1 & Hs1 & _ & _).
  split; [| |exact Hid'|exact Hnames'|exact Hcells'].
  - rewrite set_db_db. apply lookup_insert_eq.
  - rewrite set_db_schemas, Hs1, with_table_schemas.
    by rewrite columns_frame_after_insert.
Qed.

(** Under a fixed schema the synthesized record is refused as the record of
    the call is. *)
Lemma upsert_no_match_refused uuid4 tname record where_ where_not cols out self df found c :
  is_table self (lower tname) df →
  str_record record →
  dynamic_schema (opts self) = false →
  c ∈ keys record → c ∉ columns df →
  str_condition where_ → str_condition where_not →
  where_ ≠ [] ∨ where_not ≠ [] →
  Forall (λ kv, arg_values kv.2 ≠ []) where_ →
  find str_match tname where_ where_not [] (AsStr "dataframe") self
  = (self, Ok (OutFrame found)) →
  rows found = [] →
  upsert str_match uuid4 tname record where_ where_not cols out self
  = (self, Raise (ValueError UnknownColumn)).
Proof.
  intros Htable Hstr Hdyn Hc Hno Hw Hwn Hne Hvals Hfind Hfound.
  pose proof (table_stored _ _ _ Htable) as Hdf.
  unfold upsert.
  rewrite (bind_ok _ _ _ _ _ (_check_tname_found self tname false df Hdf)).
  destruct (_check_conditions_str where_ Hw) as [-> _].
  destruct (_check_conditions_str where_not Hwn) as [-> _].
  rewrite !bind_lift_ok, bind_gets.
  rewrite (_check_dict_type_str_record record _ Hstr), bind_lift_ok.
  assert ((0 <? length (checked where_))%nat || (0 <? length (checked where_not))%nat
          = true) as ->.
  { rewrite !length_checked. destruct Hne as [Hne|Hne].
    - destruct where_; [done|]. done.
    - destruct where_not; [done|]. apply orb_true_r. }
  rewrite <- (find_as_args str_match tname where_ where_not [] (AsStr "dataframe") self Hw Hwn)
    in Hfind.
  rewrite (bind_ok _ _ _ _ _ Hfind).
  cbn [frame_of]. rewrite bind_lift_ok. cbv zeta.
  assert ((length (index found) =? 0)%nat = true) as ->.
  { unfold index. by rewrite Hfound. }
  fold (synthesized record (checked where_)).
  apply bind_raise.
  apply (insert_refused uuid4 (lower tname) (synthesized record (checked where_)) cols
           (AsStr "series") self df c).
  - by rewrite lower_idemp.
  - by apply synthesized_str_record.
  - done.
  - apply synthesized_keys. by left.
  - done.
Qed.

End NewColumn.

(** ** C3: the new column under [insert] and [upsert] *)

(** C3, amended.  A table in its normal form (its schema is the list of the
    columns of its frame, with the reserved column, well-formed names and no
    cell outside the columns), a record of [str] values under distinct keys
    that names a column [C] which is not a column of the table, and
    conditions on [str] values or lists of them.

    Under a dynamic schema, with well-formed names for the keys of the
    record and of the row generator:

    - after [insert], and after [upsert] without conditions, on a table
      whose row labels are [0 .. len - 1]: the columns of the table, which
      are its schema, are the former ones followed by new ones with [C]
      among them, and every former row is in its place, unchanged, with a
      null cell in [C];
    - after an [upsert] with conditions for which [find] returns rows: the
      same holds for every row that [find] did not return, and every row
      that [find] returned is in its place and holds the value of the
      record in [C];
    - after an [upsert] with conditions for which [find] returns no row, on
      a table whose row labels are [0 .. len - 1], when every [where] entry
      has a value and a well-formed column name and the drawn identifier is
      new to the table: the first item holds, whether the inserted row
      stays or is retracted after a conflict with [where_not].

    Under a fixed schema each of these calls raises the error of an unknown
    column and leaves the database as it was (for an [upsert] that finds no
    row, when every [where] entry has a value). *)
Theorem unknown_column_is_added_or_refused str_match uuid4 tname record C cols out
    self df :
  is_table self (lower tname) df →
  str_record record → NoDup (keys record) →
  C ∈ keys record → C ∉ columns df →
  (dynamic_schema (opts self) = true →
   forallb colname_match (keys record) = true →
   forallb colname_match (keys (default [] (_rowgens self !! lower tname))) = true →
   (default_index df →
    ∃ df',
      column_added C df df' []
      ∧ is_table (insert uuid4 tname record cols out self).1 (lower tname) df'
      ∧ is_table (upsert str_match uuid4 tname record [] [] cols out self).1
          (lower tname) df')
   ∧ (∀ where_ where_not found,
        str_condition where_ → str_condition where_not →
        where_ ≠ [] ∨ where_not ≠ [] →
        find str_match tname where_ where_not [] (AsStr "dataframe") self
        = (self, Ok (OutFrame found)) →
        (rows found ≠ [] →
         ∃ df',
           column_added C df df' (index found)
           ∧ (∀ i l r s, rows df !! i = Some (l, r) → l ∈ index found →
                get C record = Some (PStr s) →
                ∃ r', rows df' !! i = Some (l, r') ∧ r' !! C = Some s)
           ∧ is_table
               (upsert str_match uuid4 tname record where_ where_not cols out self).1
               (lower tname) df')
        ∧ (rows found = [] →
           default_index df →
           Forall (λ kv, arg_values kv.2 ≠ []) where_ →
           forallb colname_match (keys where_) = true →
           Some uuid4 ∉ ((λ lr : Z * row, lr.2 !! _id_colname) <$> rows df) →
           ∃ df',
             column_added C df df' []
             ∧ is_table
                 (upsert str_match uuid4 tname record where_ where_not cols out self).1
                 (lower tname) df')))
  ∧ (dynamic_schema (opts self) = false →
     insert uuid4 tname record cols out self
     = (self, Raise (ValueError UnknownColumn))
     ∧ upsert str_match uuid4 tname record [] [] cols out self
       = (self, Raise (ValueError UnknownColumn))
     ∧ (∀ where_ where_not found,
          str_condition where_ → str_condition where_not →
          where_ ≠ [] ∨ where_not ≠ [] →
          find str_match tname where_ where_not [] (AsStr "dataframe") self
          = (self, Ok (OutFrame found)) →
          (rows found = [] → Forall (λ kv, arg_values kv.2 ≠ []) where_) →
          upsert str_match uuid4 tname record where_ where_not cols out self
          = (self, Raise (ValueError UnknownColumn)))).
Proof.
  intros Htable Hstr Hkeys HC Hno. split.
  - intros Hdyn Hrec Hgen.
    assert (schema_accepts self df (keys record)) as Hacc.
    { unfold schema_accepts. by rewrite Hdyn. }
    assert (schema_accepts self df (keys (default [] (_rowgens self !! lower tname))))
      as Hacc_gen.
    { unfold schema_accepts. by rewrite Hdyn. }
    split.
    + intros Hidx.
      exists (frame_after_insert df (record_new uuid4 (_rowgens self !! lower tname) record)).
      split; [|split].
      * eapply column_added_insert; [done..| |done]. by apply record_new_keys.
      * eapply same_tables_is_table; [by apply insert_state|].
        apply frame_after_insert_is_table; [done|]. by apply record_new_accepted.
      * rewrite upsert_without_conditions_state.
        eapply same_tables_is_table; [by apply insert_state|].
        apply frame_after_insert_is_table; [done|]. by apply record_new_accepted.
    + intros where_ where_not found Hw Hwn Hne Hfind. split.
      * intros Hfound.
        exists (frame_after_update df (index found) record). split; [|split].
        -- by eapply column_added_update.
        -- intros i l r s Hi Hl Hget. exists (row_update record r). split.
           ++ rewrite rows_frame_after_update, list_lookup_fmap, Hi. simpl.
              by rewrite bool_decide_eq_true_2.
           ++ rewrite row_update_lookup by done. by rewrite Hget.
        -- eapply same_tables_is_table; [by eapply upsert_update_state|].
           by apply frame_after_update_is_table.
      * intros Hfound Hidx Hvals Hnames Hfresh.
        assert (schema_accepts self df (keys (synthesized record (checked where_))))
          as Hacc_syn.
        { unfold schema_accepts. rewrite Hdyn.
          eapply forallb_colname_subseteq; [apply synthesized_keys_subseteq|].
          rewrite forallb_app, Hrec. unfold checked. rewrite keys_fmap_values.
          by rewrite Hnames. }
        destruct (upsert_no_match_state str_match uuid4 tname record where_ where_not cols
                    out self df found Htable Hidx Hstr Hkeys Hw Hwn Hne Hvals Hacc_gen
                    Hacc_syn Hfresh Hfind Hfound) as (df' & [-> | ->] & Htable').
        -- eexists. split; [|exact Htable'].
           eapply column_added_insert; [done..| |done].
           apply record_new_keys. apply synthesized_keys. by left.
        -- eexists. split; [|exact Htable'].
           eapply column_added_with_columns; [done| |done].
           apply record_new_keys. apply synthesized_keys. by left.
  - intros Hdyn. split; [|split].
    + by eapply insert_refused.
    + rewrite upsert_without_conditions_unfold.
      by rewrite (bind_raise _ _ _ _ _
                    (insert_refused uuid4 tname record cols (AsStr "series") self df C
                       Htable Hstr Hdyn HC Hno)).
    + intros where_ where_not found Hw Hwn Hne Hfind Hvals.
      destruct (decide (rows found = [])) as [Hfound|Hfound].
      * eapply upsert_no_match_refused; eauto.
      * by eapply upsert_update_refused.
Qed.

(** In the table of two rows, under a dynamic schema: a record with the new
    column [c] is inserted, and the column is added with null cells in the
    two former rows; [upsert] with the condition [a = "x"] writes ["z"] into
    [c] of the first row and leaves a null cell in the second; [upsert] with
    the condition [a = "w"], which no row meets, adds the column with null
    cells in the two rows.  Under a fixed schema the same [insert] and the
    last [upsert] are refused. *)
Lemma unknown_column_is_added_or_refused_witness :
  (∃ df',
     column_added "c" Examples.two_rows df' []
     ∧ is_table (insert "id2" "T" [("c", PStr "z")] [] AsNone Examples.two_rows_db).1
         "t" df')
  ∧ (∃ df',
       column_added "c" Examples.two_rows df' [0]
       ∧ (∃ r', rows df' !! 0%nat = Some (0, r') ∧ r' !! "c" = Some "z")
       ∧ is_table
           (upsert Examples.prefix_match "id2" "T" [("c", PStr "z")]
              [("a", CVal (PStr "x"))] [] [] AsNone Examples.two_rows_db).1 "t" df')
  ∧ (∃ df',
       column_added "c" Examples.two_rows df' []
       ∧ is_table
           (upsert Examples.prefix_match "id2" "T" [("c", PStr "z")]
              [("a", CVal (PStr "w"))] [] [] AsNone Examples.two_rows_db).1 "t" df')
  ∧ insert "id2" "T" [("c", PStr "z")] [] AsNone Examples.fixed_db
    = (Examples.fixed_db, Raise (ValueError UnknownColumn))
  ∧ upsert Examples.prefix_match "id2" "T" [("c", PStr "z")]
      [("a", CVal (PStr "w"))] [] [] AsNone Examples.fixed_db
    = (Examples.fixed_db, Raise (ValueError UnknownColumn)).
Proof.
  pose proof (unknown_column_is_added_or_refused Examples.prefix_match "id2" "T"
                [("c", PStr "z")] "c" [] AsNone Examples.two_rows_db Examples.two_rows)
    as Hadd.
  destruct Hadd as [Hdyn _];
    [exact two_rows_is_table|repeat constructor|by_evaluation|by_evaluation|by_evaluation|].
  destruct Hdyn as [Hins Hup]; [reflexivity..|].
  pose proof (unknown_column_is_added_or_refused Examples.prefix_match "id2" "T"
                [("c", PStr "z")] "c" [] AsNone Examples.fixed_db Examples.two_rows)
    as Hfix.
  destruct Hfix as [_ Hfix];
    [exact two_rows_fixed_is_table|repeat constructor|by_evaluation|by_evaluation
    |by_evaluation|].
  destruct Hfix as (Hfix_ins & _ & Hfix_up); [reflexivity|].
  split; [|split; [|split; [|split]]].
  - destruct (Hins two_rows_default_index) as (df' & Hcol & Htable & _).
    exists df'. split; [exact Hcol|exact Htable].
  - destruct (Hup [("a", CVal (PStr "x"))] []
                (mkDF ["__id__"; "a"; "b"]
                   [(0, {[ "__id__" := "id0"; "a" := "x"; "b" := "p" ]})]))
      as [Hsome _]; [repeat constructor|constructor|left; discriminate|reflexivity|].
    destruct Hsome as (df' & Hcol & Hval & Htable); [discriminate|].
    exists df'. split; [exact Hcol|]. split; [|exact Htable].
    apply (Hval 0%nat 0 {[ "__id__" := "id0"; "a" := "x"; "b" := "p" ]} "z");
      [reflexivity|by_evaluation|reflexivity].
  - destruct (Hup [("a", CVal (PStr "w"))] [] (mkDF ["__id__"; "a"; "b"] []))
      as [_ Hnone]; [repeat constructor|constructor|left; discriminate|reflexivity|].
    apply Hnone; [reflexivity|exact two_rows_default_index|repeat constructor; discriminate
                 |reflexivity|by_evaluation].
  - exact Hfix_ins.
  - apply (Hfix_up [("a", CVal (PStr "w"))] [] (mkDF ["__id__"; "a"; "b"] []));
      [repeat constructor|constructor|left; discriminate|reflexivity|].
    intros _. repeat constructor; discriminate.
Defined.
